(** * IndexedDBWrapper (src/idb.js): validation, persistence and reports

    A shallow embedding of the wrapper class of [src/idb.js] together with the
    part of the JavaScript host it runs on: IEEE 754 double precision numbers,
    the conversions the operators of the source apply to their operands, the
    calendar functions behind [Date], and an object store with generated
    keys.  The methods of the class that write, list, delete and report
    records are written in a state and error monad over a world made of the
    caller's heap, the database handle held in [this.db] and the trace of
    what the calls did to the host: the calls made on the store, and the
    assignments that the grouping of a report makes on the objects every
    object literal inherits from.  The constructor and [open] are modelled
    over the databases of the origin; a request to open that the browser
    never answers leaves the promise pending. *)

From Stdlib Require Import ZArith Lia List Ascii String.
From Stdlib Require Import Floats.SpecFloat Sorted.
From stdpp Require Import base option list strings gmap fin_maps.

Local Open Scope string_scope.
Local Open Scope Z_scope.

(** ** Numbers: IEEE 754 binary64 *)

Module Number.

Definition prec : Z := 53.
Definition emax : Z := 1024.

Definition number := spec_float.

Definition NaN : number := S754_nan.
Definition zero : number := S754_zero false.

(** The double nearest to an integer (exact below 2^53). *)
Definition of_Z (z : Z) : number := binary_normalize prec emax z 0 false.

Definition one : number := of_Z 1.

Definition add (x y : number) : number := SFadd prec emax x y.
Definition leb (x y : number) : bool := SFleb x y.
Definition ltb (x y : number) : bool := SFltb x y.
Definition eqb (x y : number) : bool := SFeqb x y.

Definition is_nan (x : number) : bool :=
  match x with S754_nan => true | _ => false end.

Definition is_zero (x : number) : bool :=
  match x with S754_zero _ => true | _ => false end.

(** Integer part, rounding towards zero; [None] on NaN and the infinities. *)
Definition truncate (x : number) : option Z :=
  match x with
  | S754_zero _ => Some 0
  | S754_finite s m e =>
      let a := match e with
               | Z0 => Zpos m
               | Zpos p => Z.shiftl (Zpos m) (Zpos p)
               | Zneg p => Z.shiftr (Zpos m) (Zpos p)
               end in
      Some (if s then - a else a)
  | _ => None
  end.

(** Largest integer below or equal to a finite number. *)
Definition floor (x : number) : option Z :=
  match truncate x with
  | Some t => Some (if ltb x (of_Z t) then t - 1 else t)
  | None => None
  end.

Global Instance number_eq_dec : EqDecision number.
Proof. solve_decision. Defined.

End Number.

Abbreviation number := Number.number.

(** ** JavaScript values held in record fields *)

Inductive value : Type :=
  | VUndefined
  | VNull
  | VBool (b : bool)
  | VNum (n : number)
  | VStr (s : string)
  | VDate (t : option Z)   (* a Date object; [None] is the invalid date *)
  | VObject.               (* a plain object without properties of its own *)

Global Instance value_eq_dec : EqDecision value.
Proof. solve_decision. Defined.

(** An object is the finite map of its own properties. *)
Abbreviation obj := (gmap string value).

(** [o.k]: an absent property reads as [undefined]. *)
Definition get (o : obj) (k : string) : value := default VUndefined (o !! k).

(** ['k' in o], for an object whose prototype does not define [k]. *)
Definition has (o : obj) (k : string) : bool := bool_decide (is_Some (o !! k)).

Inductive jstype := TUndefined | TObject | TBoolean | TNumber | TString.

Global Instance jstype_eq_dec : EqDecision jstype.
Proof. solve_decision. Defined.

Definition typeof (v : value) : jstype :=
  match v with
  | VUndefined => TUndefined
  | VNull => TObject
  | VBool _ => TBoolean
  | VNum _ => TNumber
  | VStr _ => TString
  | VDate _ => TObject
  | VObject => TObject
  end.

(** ToBoolean: what [!v] negates. *)
Definition ToBoolean (v : value) : bool :=
  match v with
  | VUndefined | VNull => false
  | VBool b => b
  | VNum n => negb (Number.is_nan n || Number.is_zero n)
  | VStr s => negb (bool_decide (s = ""))
  | VDate _ | VObject => true
  end.

(** [v <= 0] for an operand already known to be a number. *)
Definition le_zero (v : value) : bool :=
  match v with
  | VNum n => Number.leb n Number.zero
  | _ => false
  end.

(** ** The host: time zone, date parsing, printing of numbers and dates *)

Record host : Type := Host {
  (** offset of local time from UTC, in milliseconds, at the UTC time given *)
  LocalTZA : Z -> Z;
  (** [Date.parse] on strings that are not of the form YYYY-MM-DD *)
  parseOther : string -> option Z;
  (** Number::toString *)
  numberToString : number -> string;
  (** Date.prototype.toString *)
  dateToString : option Z -> string;
  (** StringToNumber, the numeric reading of a string *)
  stringToNumber : string -> number;
  (** the text [event.target.errorCode] renders to in a template *)
  errorCode : string
}.

(** ** Calendar arithmetic of ECMAScript time values *)

Module Calendar.

Definition msPerDay : Z := 86400000.
Definition maxTime : Z := 8640000000000000.

Definition Day (t : Z) : Z := t / msPerDay.

Definition isLeap (y : Z) : bool :=
  ((y mod 4 =? 0) && negb (y mod 100 =? 0)) || (y mod 400 =? 0).

Definition DaysInYear (y : Z) : Z := if isLeap y then 366 else 365.

(** Day number of the first day of year [y]. *)
Definition DayFromYear (y : Z) : Z :=
  365 * (y - 1970) + (y - 1969) / 4 - (y - 1901) / 100 + (y - 1601) / 400.

Definition DaysInMonth (y m : Z) : Z :=
  if m =? 2 then (if isLeap y then 29 else 28)
  else if (m =? 4) || (m =? 6) || (m =? 9) || (m =? 11) then 30
  else 31.

(** Year, month (1 to 12) and day of the month of a day number, over the
    proleptic Gregorian calendar, computed on 400-year eras that start on
    the first of March. *)
Definition civil (day : Z) : Z * Z * Z :=
  let z := day + 719468 in
  let era := z / 146097 in
  let doe := z - era * 146097 in
  let yoe := (doe - doe / 1460 + doe / 36524 - doe / 146096) / 365 in
  let doy := doe - (365 * yoe + yoe / 4 - yoe / 100) in
  let mp := (5 * doy + 2) / 153 in
  let d := doy - (153 * mp + 2) / 5 + 1 in
  let m := if mp <? 10 then mp + 3 else mp - 9 in
  let y := yoe + era * 400 + (if m <=? 2 then 1 else 0) in
  (y, m, d).

(** Day number of a calendar date: the inverse of [civil]. *)
Definition dayOfCivil (y m d : Z) : Z :=
  let y' := if m <=? 2 then y - 1 else y in
  let era := y' / 400 in
  let yoe := y' - era * 400 in
  let mp := if m <=? 2 then m + 9 else m - 3 in
  let doy := (153 * mp + 2) / 5 + d - 1 in
  let doe := yoe * 365 + yoe / 4 - yoe / 100 + doy in
  era * 146097 + doe - 719468.

(** The month, from 0, of the day [dwy] of a year, read off the table of
    ECMA-262; [leap] is 1 in a leap year and 0 otherwise. *)
Definition MonthOfYearDay (leap dwy : Z) : Z :=
  if dwy <? 31 then 0
  else if dwy <? 59 + leap then 1
  else if dwy <? 90 + leap then 2
  else if dwy <? 120 + leap then 3
  else if dwy <? 151 + leap then 4
  else if dwy <? 181 + leap then 5
  else if dwy <? 212 + leap then 6
  else if dwy <? 243 + leap then 7
  else if dwy <? 273 + leap then 8
  else if dwy <? 304 + leap then 9
  else if dwy <? 334 + leap then 10
  else 11.

Definition YearFromTime (t : Z) : Z := fst (fst (civil (Day t))).
(** Zero-based, as [getMonth] reports it. *)
Definition MonthFromTime (t : Z) : Z := snd (fst (civil (Day t))) - 1.

End Calendar.

(** ** Conversions and operators *)

Section Operators.

Variable h : host.

(** ToString, which also gives the property key a value is used as.  A
    Date prints through its own [toString], a plain object as
    [[object Object]]. *)
Definition ToString (v : value) : string :=
  match v with
  | VUndefined => "undefined"
  | VNull => "null"
  | VBool true => "true"
  | VBool false => "false"
  | VNum n => numberToString h n
  | VStr s => s
  | VDate t => dateToString h t
  | VObject => "[object Object]"
  end.

(** ToPrimitive without a hint: objects become their string. *)
Definition ToPrimitive (v : value) : value :=
  match v with
  | VDate _ | VObject => VStr (ToString v)
  | _ => v
  end.

Definition ToNumber (v : value) : number :=
  match ToPrimitive v with
  | VNull => Number.zero
  | VBool b => if b then Number.one else Number.zero
  | VNum n => n
  | VStr s => stringToNumber h s
  | _ => Number.NaN
  end.

(** The binary [+]: concatenation as soon as one operand is a string after
    ToPrimitive, addition of doubles otherwise. *)
Definition js_add (a b : value) : value :=
  match ToPrimitive a, ToPrimitive b with
  | VStr s, pb => VStr (s +:+ ToString pb)
  | pa, VStr s => VStr (ToString pa +:+ s)
  | pa, pb => VNum (Number.add (ToNumber pa) (ToNumber pb))
  end.

(** [n === v] for a left operand that is a number. *)
Definition strict_eq_num (n : number) (v : value) : bool :=
  match v with
  | VNum m => Number.eqb n m
  | _ => false
  end.

(** *** Date *)

Definition digit (a : ascii) : option Z :=
  let n := Z.of_N (N_of_ascii a) in
  if (48 <=? n) && (n <=? 57) then Some (n - 48) else None.

Definition is_hyphen (a : ascii) : bool := (N_of_ascii a =? 45)%N.

(** The date-only form YYYY-MM-DD of the date time string format, read as
    midnight UTC of a day that exists. *)
Definition parseDateOnly (s : string) : option Z :=
  match list_ascii_of_string s with
  | [y1; y2; y3; y4; s1; m1; m2; s2; d1; d2] =>
      match digit y1, digit y2, digit y3, digit y4,
            digit m1, digit m2, digit d1, digit d2 with
      | Some a, Some b, Some c, Some d, Some e, Some f, Some g, Some i =>
          let y := 1000 * a + 100 * b + 10 * c + d in
          let m := 10 * e + f in
          let dd := 10 * g + i in
          if is_hyphen s1 && is_hyphen s2
             && (1 <=? m) && (m <=? 12)
             && (1 <=? dd) && (dd <=? Calendar.DaysInMonth y m)
          then Some (Calendar.dayOfCivil y m dd * Calendar.msPerDay)
          else None
      | _, _, _, _, _, _, _, _ => None
      end
  | _ => None
  end.

Definition Date_parse (s : string) : option Z :=
  match parseDateOnly s with
  | Some t => Some t
  | None => parseOther h s
  end.

Definition TimeClip (n : number) : option Z :=
  match Number.truncate n with
  | Some t => if Z.abs t <=? Calendar.maxTime then Some t else None
  | None => None
  end.

(** [new Date(v)]: the time value of the Date object built from one
    argument. *)
Definition Date_new (v : value) : option Z :=
  match v with
  | VDate t => t
  | _ => match ToPrimitive v with
         | VStr s => Date_parse s
         | p => TimeClip (ToNumber p)
         end
  end.

Definition LocalTime (t : Z) : Z := t + LocalTZA h t.

Definition getFullYear (tv : option Z) : number :=
  match tv with
  | Some t => Number.of_Z (Calendar.YearFromTime (LocalTime t))
  | None => Number.NaN
  end.

Definition getMonth (tv : option Z) : number :=
  match tv with
  | Some t => Number.of_Z (Calendar.MonthFromTime (LocalTime t))
  | None => Number.NaN
  end.

End Operators.

(** ** The host object store *)

(** The object store of the host, as the wrapper uses it: [put] without a
    key argument, [getAll] and [delete].  Keys are the numbers, dates and
    strings a record can carry as a key; records are kept in ascending key
    order, the order in which [getAll] lists them. *)
Module Store.

Inductive key : Type :=
  | KNumber (n : number)
  | KDate (t : Z)
  | KString (s : string).

(** Conversion of a value to a key; [None] when the value is not a valid
    key. *)
Definition key_of_value (v : value) : option key :=
  match v with
  | VNum n => if Number.is_nan n then None else Some (KNumber n)
  | VDate (Some t) => Some (KDate t)
  | VStr s => Some (KString s)
  | _ => None
  end.

(** Numbers sort before dates, dates before strings. *)
Definition key_compare (a b : key) : comparison :=
  match a, b with
  | KNumber x, KNumber y => default Eq (SFcompare x y)
  | KNumber _, _ => Lt
  | KDate _, KNumber _ => Gt
  | KDate x, KDate y => x ?= y
  | KDate _, KString _ => Lt
  | KString x, KString y => String.compare x y
  | KString _, _ => Gt
  end.

Definition key_eqb (a b : key) : bool :=
  match key_compare a b with Eq => true | _ => false end.

Record objectStore : Type := ObjectStore {
  records : list (key * obj);
  keyGenerator : Z
}.

Definition maxGenerated : Z := 9007199254740992.   (* 2^53 *)

(** Storing a record: over the record of an equal key, else at its place
    in key order. *)
Fixpoint store_record (k : key) (v : obj) (l : list (key * obj)) : list (key * obj) :=
  match l with
  | [] => [(k, v)]
  | (k', v') :: l' =>
      match key_compare k k' with
      | Lt => (k, v) :: l
      | Eq => (k, v) :: l'
      | Gt => (k', v') :: store_record k v l'
      end
  end.

Definition delete_record (k : key) (l : list (key * obj)) : list (key * obj) :=
  List.filter (fun kv => negb (key_eqb (fst kv) k)) l.

(** The generator moves past an explicit numeric key that reaches it. *)
Definition bump (g : Z) (k : key) : Z :=
  match k with
  | KNumber n =>
      let top := match n with
                 | S754_infinity false => Some maxGenerated
                 | _ => Z.min maxGenerated <$> Number.floor n
                 end in
      match top with
      | Some z => if g <=? z then z + 1 else g
      | None => g
      end
  | _ => g
  end.

Inductive put_result : Type :=
  | PutDone (s : objectStore)
  | PutThrows      (* DataError raised by the call itself *)
  | PutFails.      (* the request ends with an error event *)

(** Modelled from the spec: the options the store is created with, which
    the upgrade routine of the application sets, are not under src/.  The
    spec has every record carry an [id] that is an auto-assigned positive
    integer, optional on input and assigned by the store: the store keeps
    its keys in line at the key path [id] and has a key generator.
    [store.put(value)], without a key argument, then takes the key from the
    [id] of the value when it has one, and from the generator otherwise,
    writing it into the stored copy; the generator gives out the integers
    from 1 to 2^53 and then fails. *)
Definition put (s : objectStore) (v : obj) : put_result :=
  match get v "id" with
  | VUndefined =>
      let g := keyGenerator s in
      if maxGenerated <? g then PutFails
      else PutDone
             {| records := store_record (KNumber (Number.of_Z g))
                             (<["id" := VNum (Number.of_Z g)]> v) (records s);
                keyGenerator := g + 1 |}
  | i =>
      match key_of_value i with
      | None => PutThrows
      | Some k =>
          PutDone {| records := store_record k v (records s);
                     keyGenerator := bump (keyGenerator s) k |}
      end
  end.

Definition getAll (s : objectStore) : list obj := map snd (records s).

Definition delete (s : objectStore) (k : key) : objectStore :=
  {| records := delete_record k (records s); keyGenerator := keyGenerator s |}.

End Store.

Abbreviation objectStore := Store.objectStore.

(** ** The world of a call and the promise monad *)

Definition loc := positive.

Inductive txmode := ReadOnly | ReadWrite.

(** What a call does to the host: the calls made on the database, and the
    compound assignment [o.totalSum += v] on the object [o] that every
    object literal inherits under the name given ([Object.prototype] itself
    under "__proto__", the function [Object] under "constructor", and so
    on). *)
Inductive event : Type :=
  | Transaction (storeName : string) (mode : txmode)
  | Put (storeName : string) (v : obj)
  | GetAll (storeName : string)
  | Delete (storeName : string) (k : value)
  | AddTotalSum (name : string) (v : value).

Record world : Type := World {
  heap : gmap loc obj;                       (* the caller's objects *)
  db : option (gmap string objectStore);     (* [this.db], null before open *)
  log : list event                           (* effects on the host, oldest first *)
}.

Inductive exn := TypeError | NotFoundError | DataError.

(** What a promise is rejected with: a message built by the wrapper, or an
    exception raised while its body ran. *)
Inductive reason : Type :=
  | Message (s : string)
  | Thrown (e : exn).

Inductive outcome (A : Type) : Type :=
  | Resolved (a : A)
  | Rejected (r : reason).
Arguments Resolved {A} a.
Arguments Rejected {A} r.

Definition M (A : Type) : Type := world -> outcome A * world.

Definition ret {A} (a : A) : M A := fun w => (Resolved a, w).

Definition bind {A B} (m : M A) (f : A -> M B) : M B :=
  fun w => match m w with
           | (Resolved a, w') => f a w'
           | (Rejected r, w') => (Rejected r, w')
           end.

Definition reject {A} (s : string) : M A := fun w => (Rejected (Message s), w).
Definition throw {A} (e : exn) : M A := fun w => (Rejected (Thrown e), w).

Notation "x <- m ;; k" := (bind m (fun x => k))
  (at level 100, m at next level, right associativity).
Notation "m ;; k" := (bind m (fun _ => k))
  (at level 100, right associativity).

(** ** Report objects *)

Record group : Type := Group {
  totalSum : value;
  items : list obj
}.

(** A report is the object literal [{}] and the properties set on it. *)
Abbreviation report := (gmap string group).

(** The properties every object literal inherits from [Object.prototype]. *)
Definition inherited : list string :=
  [ "constructor"; "hasOwnProperty"; "isPrototypeOf"; "propertyIsEnumerable";
    "toLocaleString"; "toString"; "valueOf"; "__proto__";
    "__defineGetter__"; "__defineSetter__"; "__lookupGetter__";
    "__lookupSetter__" ].

(** What [report[k]] evaluates to. *)
Inductive slot : Type :=
  | Own (g : group)    (* a group stored on the report itself *)
  | Inherited          (* a function or object found on the prototype *)
  | Total (v : value)  (* a total that was written on the prototype *)
  | Absent.            (* undefined *)

(** [m] holds the [totalSum] properties that were written on the inherited
    objects, by the name of the object; the one of [Object.prototype] is
    found under the name "totalSum" by every object. *)
Definition lookup_slot (m : gmap string value) (r : report) (k : string) : slot :=
  match r !! k with
  | Some g => Own g
  | None =>
      if bool_decide (k ∈ inherited) then Inherited
      else if bool_decide (k = "totalSum") then
             match m !! "__proto__" with
             | Some v => Total v
             | None => Absent
             end
      else Absent
  end.

(** [!report[k]] is false. *)
Definition found (x : slot) : bool :=
  match x with
  | Own _ | Inherited => true
  | Total v => ToBoolean v
  | Absent => false
  end.

Inductive reportResult : Type :=
  | Text (s : string)
  | Report (r : report).

(** ** The wrapper class *)

Module IndexedDBWrapper.

Definition date_required : string := "The `date` field is required.".
Definition sum_required : string :=
  "The `sum` field is required and must be a positive number.".
Definition category_required : string :=
  "The `category` field is required and must be a string.".
Definition added : string := "Data added/updated successfully".
Definition deleted : string := "Record deleted successfully".

Section Methods.

Variable h : host.

(** *** Steps shared by the methods *)

Definition call (e : event) : M unit :=
  fun w => (Resolved tt, {| heap := heap w; db := db w; log := log w ++ [e] |}).

(** [this.db.transaction(storeName, mode).objectStore(storeName)] *)
Definition transaction (storeName : string) (mode : txmode) : M objectStore :=
  fun w =>
    match db w with
    | None => throw TypeError w
    | Some d =>
        (call (Transaction storeName mode) ;;
         match d !! storeName with
         | Some s => ret s
         | None => throw NotFoundError
         end) w
    end.

Definition commit (storeName : string) (s : objectStore) : M unit :=
  fun w => (Resolved tt,
            {| heap := heap w;
               db := <[storeName := s]> <$> db w;
               log := log w |}).

(** Reading the object a reference points to; a reference that holds no
    object makes the property access throw. *)
Definition deref (data : loc) : M obj :=
  fun w => match heap w !! data with
           | Some o => ret o w
           | None => throw TypeError w
           end.

(** [delete data.k], on the caller's object itself. *)
Definition deleteProperty (data : loc) (k : string) : M unit :=
  fun w => (Resolved tt,
            {| heap := alter (delete k) data (heap w);
               db := db w;
               log := log w |}).

(** *** addOrUpdate *)

Definition addOrUpdate (storeName : string) (data : loc) : M string :=
  d <- deref data ;;
  if negb (ToBoolean (get d "date")) then reject date_required
  else if negb (bool_decide (typeof (get d "sum") = TNumber))
          || le_zero (get d "sum") then reject sum_required
  else if negb (ToBoolean (get d "category"))
          || negb (bool_decide (typeof (get d "category") = TString))
  then reject category_required
  else
    store <- transaction storeName ReadWrite ;;
    (if has d "id" then deleteProperty data "id" else ret tt) ;;
    d' <- deref data ;;
    call (Put storeName d') ;;
    match Store.put store d' with
    | Store.PutDone store' => commit storeName store' ;; ret added
    | Store.PutThrows => throw DataError
    | Store.PutFails => reject ("Failed to add/update data: " +:+ errorCode h)
    end.

(** *** getAll *)

Definition getAll (storeName : string) : M (list obj) :=
  store <- transaction storeName ReadOnly ;;
  call (GetAll storeName) ;;
  ret (Store.getAll store).

(** *** delete *)

Definition delete (storeName : string) (key : value) : M string :=
  store <- transaction storeName ReadWrite ;;
  call (Delete storeName key) ;;
  match Store.key_of_value key with
  | Some k => commit storeName (Store.delete store k) ;; ret deleted
  | None => throw DataError
  end.

(** *** Grouping by category *)

(** [o.totalSum] for the inherited object [o] of the name [k]: its own
    property when one was written, else the one its prototype chain ends
    in, that of [Object.prototype]. *)
Definition readTotal (m : gmap string value) (k : string) : value :=
  match m !! k with
  | Some v => v
  | None => default VUndefined (m !! "__proto__")
  end.

(** The [totalSum] properties of the inherited objects after the
    assignments of a trace. *)
Definition totals (l : list event) : gmap string value :=
  fold_left (fun m e => match e with
                        | AddTotalSum k v => <[k := js_add h (readTotal m k) v]> m
                        | _ => m
                        end) l ∅.

(** The body of the [forEach] callback.  On an inherited object the
    assignment of the total goes through and the read of [items] that
    follows finds nothing to push on; on a total found on the prototype,
    a number or a string, the assignment itself throws, the code of a
    class being strict. *)
Definition accumulate (r : report) (record : obj) : M report :=
  fun w =>
    let k := ToString h (get record "category") in
    let m := totals (log w) in
    let r1 := if found (lookup_slot m r k) then r
              else <[k := Group (VNum Number.zero) []]> r in
    match lookup_slot m r1 k with
    | Own g =>
        ret (<[k := Group (js_add h (totalSum g) (get record "sum"))
                          (items g ++ [record])]> r1) w
    | Inherited => (call (AddTotalSum k (get record "sum")) ;; throw TypeError) w
    | Total _ | Absent => throw TypeError w
    end.

Fixpoint forEach (l : list obj) (r : report) : M report :=
  match l with
  | [] => ret r
  | record :: l' => r' <- accumulate r record ;; forEach l' r'
  end.

Definition groupByCategory (l : list obj) : M reportResult :=
  r <- forEach l ∅ ;;
  ret (Report r).

(** *** getYearlyReport *)

Definition inYear (year : value) (record : obj) : bool :=
  let recordDate := Date_new h (get record "date") in
  strict_eq_num (getFullYear h recordDate) year.

Definition getYearlyReport (storeName : string) (year : value) : M reportResult :=
  records <- getAll storeName ;;
  if (length records =? 0)%nat
  then ret (Text ("No records found for " +:+ ToString h year +:+ "."))
  else
    let yearlyRecords := List.filter (inYear year) records in
    groupByCategory yearlyRecords.

(** *** getMonthlyReport *)

Definition inMonth (month year : value) (record : obj) : bool :=
  let recordDate := Date_new h (get record "date") in
  strict_eq_num (Number.add (getMonth h recordDate) Number.one) month
  && strict_eq_num (getFullYear h recordDate) year.

Definition getMonthlyReport (storeName : string) (month year : value) : M reportResult :=
  let none := "No records found for " +:+ ToString h month +:+ "/"
              +:+ ToString h year +:+ "." in
  records <- getAll storeName ;;
  if (length records =? 0)%nat then ret (Text none)
  else
    let monthlyRecords := List.filter (inMonth month year) records in
    if (length monthlyRecords =? 0)%nat then ret (Text none)
    else groupByCategory monthlyRecords.

End Methods.

End IndexedDBWrapper.

(** * Vocabulary of the statements *)

(** ** Validation *)

(** The three guards of [addOrUpdate], in the order of the source. *)
Definition date_rejected (d : obj) : bool := negb (ToBoolean (get d "date")).

Definition sum_rejected (d : obj) : bool :=
  negb (bool_decide (typeof (get d "sum") = TNumber)) || le_zero (get d "sum").

Definition category_rejected (d : obj) : bool :=
  negb (ToBoolean (get d "category"))
  || negb (bool_decide (typeof (get d "category") = TString)).

(** The message of the first guard that fires, if any. *)
Definition verdict (d : obj) : option string :=
  if date_rejected d then Some IndexedDBWrapper.date_required
  else if sum_rejected d then Some IndexedDBWrapper.sum_required
  else if category_rejected d then Some IndexedDBWrapper.category_required
  else None.

(** The words of the specification for a violated field. *)
Definition missing (d : obj) (k : string) : Prop := d !! k = None.

Definition sum_not_positive (d : obj) : Prop :=
  typeof (get d "sum") <> TNumber \/ le_zero (get d "sum") = true.

Definition category_not_string (d : obj) : Prop :=
  missing d "category" \/ typeof (get d "category") <> TString.

(** A valid record: the date holds a value, the sum is a number above zero,
    the category is a string that is not empty.  A date holds a value when
    the field is there and is none of the values that stand for nothing in
    JavaScript ([undefined], [null], [false], [0], [NaN], the empty
    string). *)
Definition date_present (d : obj) : Prop := ToBoolean (get d "date") = true.

Definition sum_positive (d : obj) : Prop :=
  exists n, get d "sum" = VNum n /\ Number.ltb Number.zero n = true.

Definition category_nonempty (d : obj) : Prop :=
  exists s, get d "category" = VStr s /\ s <> "".

Definition valid_record (d : obj) : Prop :=
  date_present d /\ sum_positive d /\ category_nonempty d.

(** ** Worlds *)

(** The database is open and holds the store [s] under the name given. *)
Definition opened (w : world) (storeName : string) (s : objectStore) : Prop :=
  exists d, db w = Some d /\ d !! storeName = Some s.

(** The store after a call. *)
Definition store_of (w : world) (storeName : string) : option objectStore :=
  d ← db w; d !! storeName.

(** The key generator can still produce a key, and the key it is about to
    produce is not the key of a stored record. *)
Definition generator_ready (s : objectStore) : Prop :=
  Store.keyGenerator s <= Store.maxGenerated
  /\ forall k v, (k, v) ∈ Store.records s ->
       Store.key_eqb (Store.KNumber (Number.of_Z (Store.keyGenerator s))) k = false.

(** The heap once [delete data.id] has run. *)
Definition stripped (data : loc) (d : obj) (hp : gmap loc obj) : gmap loc obj :=
  if has d "id" then alter (delete "id") data hp else hp.

(** The store as [addOrUpdate] leaves it, for the object [d] of the caller. *)
Definition stored (s : objectStore) (d : obj) : objectStore :=
  let g := Store.keyGenerator s in
  {| Store.records :=
       Store.store_record (Store.KNumber (Number.of_Z g))
         (<["id" := VNum (Number.of_Z g)]> (delete "id" d)) (Store.records s);
     Store.keyGenerator := g + 1 |}.

(** The world once [getAll] has run on an open store. *)
Definition listed (w : world) (storeName : string) : world :=
  {| heap := heap w; db := db w;
     log := log w ++ [Transaction storeName ReadOnly; GetAll storeName] |}.

(** The outcome of grouping a sequence of records in the world [w]. *)
Definition grouped (h : host) (w : world) (l : list obj) : outcome reportResult :=
  fst (IndexedDBWrapper.groupByCategory h l w).

(** The [totalSum] that [Object.prototype] holds, and with it every
    object that has none of its own: [undefined] until a report has
    written one. *)
Definition prototypeTotal (h : host) (w : world) : value :=
  default VUndefined (IndexedDBWrapper.totals h (log w) !! "__proto__").

(** The keys a report cannot file a record under: the names of the
    properties every object inherits, and "totalSum" once a report has
    left a total that holds a value on [Object.prototype]. *)
Definition taken (h : host) (w : world) (k : string) : Prop :=
  k ∈ inherited \/ (k = "totalSum" /\ ToBoolean (prototypeTotal h w) = true).

(** The assignments on inherited objects among the events of a trace. *)
Definition additions (l : list event) : list (string * value) :=
  omap (fun e => match e with AddTotalSum k v => Some (k, v) | _ => None end) l.

(** Every key of the store is a number its generator has produced: what
    holds of a store that only [addOrUpdate] has written to. *)
Definition generated (s : objectStore) : Prop :=
  1 <= Store.keyGenerator s
  /\ forall k v, (k, v) ∈ Store.records s ->
       exists i, 1 <= i < Store.keyGenerator s /\ k = Store.KNumber (Number.of_Z i).

Definition all_generated (w : world) : Prop :=
  forall storeName s, store_of w storeName = Some s -> generated s.

(** The Put calls among the events of a trace. *)
Definition puts (l : list event) : list obj :=
  omap (fun e => match e with Put _ v => Some v | _ => None end) l.

(** ** Keys *)

Global Instance key_eq_dec : EqDecision Store.key.
Proof. solve_decision. Defined.

(** A key a store can hold: the key of some value.  NaN is the key of
    none. *)
Definition valid_key (k : Store.key) : Prop :=
  exists v, Store.key_of_value v = Some k.

(** The key is the number zero, of either sign. *)
Definition zero_key (k : Store.key) : Prop :=
  match k with
  | Store.KNumber (S754_zero _) => True
  | _ => False
  end.

Global Instance zero_key_dec k : Decision (zero_key k).
Proof. destruct k as [[] | |]; cbn; apply _. Defined.

(** Two keys are the same key when they are equal, or when both are zero:
    +0 and -0 are one key. *)
Definition same_key (a b : Store.key) : Prop :=
  a = b \/ (zero_key a /\ zero_key b).

Global Instance same_key_dec a b : Decision (same_key a b).
Proof. unfold same_key. apply _. Defined.

(** ** Reports *)

(** The key a record is filed under. *)
Definition categoryOf (h : host) (record : obj) : string :=
  ToString h (get record "category").

(** The records of a category, in the order of the sequence. *)
Definition members (h : host) (k : string) (l : list obj) : list obj :=
  List.filter (fun record => bool_decide (categoryOf h record = k)) l.

(** The sum of the [sum] fields of a sequence, added from 0 in order. *)
Definition total (h : host) (l : list obj) : value :=
  fold_left (fun acc record => js_add h acc (get record "sum")) l (VNum Number.zero).

(** The report of the specification: each category that has records maps
    to the total of their sums and to the records themselves. *)
Definition summary (h : host) (l : list obj) (k : string) : option group :=
  match members h k l with
  | [] => None
  | ms => Some (Group (total h ms) ms)
  end.

(** One more record in a group. *)
Definition step (h : host) (g : group) (record : obj) : group :=
  Group (js_add h (totalSum g) (get record "sum")) (items g ++ [record]).

(** The group a category has in a report, or the group it starts with. *)
Definition seed (r : report) (k : string) : group :=
  default (Group (VNum Number.zero) []) (r !! k).

(** ** Dates *)

(** Local time is less than a day away from UTC. *)
Definition zone_bounded (h : host) : Prop :=
  forall t, - Calendar.msPerDay < LocalTZA h t < Calendar.msPerDay.

(** The value [v] is the number of the integer [z]. *)
Definition is_integer (v : value) (z : Z) : Prop :=
  exists n, v = VNum n /\ Number.eqb (Number.of_Z z) n = true.

(** The record's date falls, in local time, in the year given. *)
Definition in_year_of (h : host) (year : value) (record : obj) : Prop :=
  exists t, Date_new h (get record "date") = Some t
    /\ is_integer year (Calendar.YearFromTime (LocalTime h t)).

(** The record's date falls, in local time, in the month given, months
    counted from 1, of the year given. *)
Definition in_month_of (h : host) (month year : value) (record : obj) : Prop :=
  exists t, Date_new h (get record "date") = Some t
    /\ is_integer month (Calendar.MonthFromTime (LocalTime h t) + 1)
    /\ is_integer year (Calendar.YearFromTime (LocalTime h t)).

(** The record's date is midnight UTC of the calendar day given, which is
    what the string YYYY-MM-DD denotes. *)
Definition dated (h : host) (record : obj) (y m d : Z) : Prop :=
  Date_new h (get record "date") = Some (Calendar.dayOfCivil y m d * Calendar.msPerDay).

(** A record of the example data. *)
Definition entry (h : host) (record : obj) (y m d : Z) (sum : Z) (category : string) : Prop :=
  dated h record y m d
  /\ get record "sum" = VNum (Number.of_Z sum)
  /\ get record "category" = VStr category.

(** ** Sample data *)

(** A host in the UTC zone that knows no date format of its own. *)
Definition utc : host :=
  {| LocalTZA := fun _ => 0;
     parseOther := fun _ => None;
     numberToString := fun _ => "";
     dateToString := fun _ => "";
     stringToNumber := fun _ => Number.NaN;
     errorCode := "undefined" |}.

Definition mkRecord (date : string) (sum : number) (category : string) : obj :=
  <["date" := VStr date]> (<["sum" := VNum sum]> (<["category" := VStr category]> ∅)).

Definition withId (i : Z) (r : obj) : obj := <["id" := VNum (Number.of_Z i)]> r.

Definition jan2023 : obj := mkRecord "2023-01-05" (Number.of_Z 10) "food".
Definition jun2023 : obj := mkRecord "2023-06-01" (Number.of_Z 20) "food".
Definition jan2022 : obj := mkRecord "2022-01-01" (Number.of_Z 5) "food".

(** A record whose sum is below zero, one whose sum is NaN, and one whose
    category is the name of a property of [Object.prototype]. *)
Definition overdrawn : obj := mkRecord "2023-01-05" (Number.of_Z (-5)) "food".
Definition nanRecord : obj := mkRecord "2023-01-05" Number.NaN "food".
Definition clash : obj := mkRecord "2023-01-05" (Number.of_Z 10) "constructor".

(** A record whose category is the name under which every object finds
    its prototype. *)
Definition heir : obj := mkRecord "2023-01-05" (Number.of_Z 10) "__proto__".

Definition emptyStore : objectStore := {| Store.records := []; Store.keyGenerator := 1 |}.

Definition exampleStore : objectStore :=
  {| Store.records := [ (Store.KNumber (Number.of_Z 1), withId 1 jan2023);
                        (Store.KNumber (Number.of_Z 2), withId 2 jun2023);
                        (Store.KNumber (Number.of_Z 3), withId 3 jan2022) ];
     Store.keyGenerator := 4 |}.

(** A world whose database holds one store, "costs", and whose heap holds
    one object at reference 1. *)
Definition worldOf (s : objectStore) (d : obj) : world :=
  {| heap := {[ 1%positive := d ]};
     db := Some {[ "costs" := s ]};
     log := [] |}.

(** The example store with a caller whose object carries the [id] of a
    stored record. *)
Definition clientWorld : world := worldOf exampleStore (withId 2 jan2023).

(** Three objects of a caller and an empty store "costs". *)
Definition ledger : world :=
  {| heap := {[ 1%positive := jan2023; 2%positive := jun2023; 3%positive := jan2022 ]};
     db := Some {[ "costs" := emptyStore ]};
     log := [] |}.

(** ** Words for the further properties *)

(** The world with one more host call in its trace. *)
Definition traced (w : world) (e : event) : world :=
  {| heap := heap w; db := db w; log := log w ++ [e] |}.

(** The values that hold nothing: what [!v] turns into true. *)
Definition falsy (v : value) : Prop :=
  v = VUndefined \/ v = VNull \/ v = VBool false \/ v = VStr ""
  \/ (exists s, v = VNum (S754_zero s)) \/ v = VNum Number.NaN.

(** The record listed for the object [d] of a caller once the store has
    given it the key [g]. *)
Definition keyed (g : Z) (d : obj) : obj :=
  <["id" := VNum (Number.of_Z g)]> (delete "id" d).


(** The calls of a trace that can change a store. *)
Definition writes (l : list event) : list event :=
  List.filter (fun e => match e with
                        | Put _ _ | Delete _ _ | Transaction _ ReadWrite => true
                        | _ => false
                        end) l.

(** A call that reads only: the heap and the database are as they were and
    the trace has no new call that can change a store. *)
Definition read_only (w w' : world) : Prop :=
  heap w' = heap w /\ db w' = db w /\ writes (log w') = writes (log w).

(** What a report may make of the world [w]: the world [getAll] leaves,
    or, when it is rejected with a TypeError, that world and one
    assignment more, which adds the sum of a stored record to the total of
    the inherited object that the category of the record names. *)
Definition report_effect (h : host) (w : world) (storeName : string)
    (run : outcome reportResult * world) : Prop :=
  let listing := snd (IndexedDBWrapper.getAll storeName w) in
  snd run = listing
  \/ (fst run = Rejected (Thrown TypeError)
      /\ exists s record,
           opened w storeName s
           /\ record ∈ Store.getAll s
           /\ categoryOf h record ∈ inherited
           /\ snd run = traced listing
                          (AddTotalSum (categoryOf h record) (get record "sum"))).

(** Every sum that was added to the total of an inherited object was a
    number. *)
Definition number_totals (w : world) : Prop :=
  forall k v, (k, v) ∈ additions (log w) -> typeof v = TNumber.

(** The month numbers a calendar has. *)
Definition calendar_months : list Z := [1; 2; 3; 4; 5; 6; 7; 8; 9; 10; 11; 12].


(** ** Stores the wrapper has filled *)

(** A stored record and the integer it was given as its key: the key and
    the [id] are that integer, and the record passes the guards. *)
Definition filed (i : Z) (kv : Store.key * obj) : Prop :=
  fst kv = Store.KNumber (Number.of_Z i)
  /\ get (snd kv) "id" = VNum (Number.of_Z i)
  /\ verdict (snd kv) = None.

(** The records of the store, in the order [getAll] lists them, carry
    strictly increasing integers the generator has given out. *)
Definition kept (s : objectStore) : Prop :=
  1 <= Store.keyGenerator s <= Store.maxGenerated + 1
  /\ exists ids,
       StronglySorted Z.lt ids
       /\ Forall (fun i => 1 <= i < Store.keyGenerator s) ids
       /\ Forall2 filed ids (Store.records s).

(** One call of a method of the wrapper, or the caller changing its own
    objects between two calls. *)
Inductive wrapper_step (h : host) : world -> world -> Prop :=
  | step_addOrUpdate storeName data w :
      wrapper_step h w (snd (IndexedDBWrapper.addOrUpdate h storeName data w))
  | step_getAll storeName w :
      wrapper_step h w (snd (IndexedDBWrapper.getAll storeName w))
  | step_delete storeName key w :
      wrapper_step h w (snd (IndexedDBWrapper.delete storeName key w))
  | step_getYearlyReport storeName year w :
      wrapper_step h w (snd (IndexedDBWrapper.getYearlyReport h storeName year w))
  | step_getMonthlyReport storeName month year w :
      wrapper_step h w (snd (IndexedDBWrapper.getMonthlyReport h storeName month year w))
  | step_caller hp w :
      wrapper_step h w {| heap := hp; db := db w; log := log w |}.

(** The worlds a page gets to from stores that were just created, empty
    and with their generator at 1. *)
Inductive reachable (h : host) : world -> Prop :=
  | reachable_created w :
      (forall storeName s, store_of w storeName = Some s -> s = emptyStore) ->
      reachable h w
  | reachable_step w w' :
      reachable h w -> wrapper_step h w w' -> reachable h w'.

Definition all_kept (w : world) : Prop :=
  forall storeName s, store_of w storeName = Some s -> kept s.


(** The number a record holds as its sum; NaN when it holds none. *)
Definition amount (record : obj) : number :=
  match get record "sum" with
  | VNum n => n
  | _ => Number.NaN
  end.


(** ** Opening the database *)

(** The stores of a database, by name. *)
Abbreviation database := (gmap string objectStore).

Module Lifecycle.

(** What the constructor keeps of its arguments; [this.db] is the [db] of
    the world, null in the world a new wrapper starts in.  The version is
    an integer.  The upgrade routine is taken by what it makes of the
    stores of the database it is called on, [None] when it throws. *)
Record settings : Type := Settings {
  dbName : string;
  version : Z;
  upgradeCallback : option (database -> option database)   (* null when not given *)
}.

Definition constructed (hp : gmap loc obj) : world :=
  {| heap := hp; db := None; log := [] |}.

(** What a promise comes to: it is settled, or it stays pending for good. *)
Inductive promise (A : Type) : Type :=
  | Settled (o : outcome A)
  | Pending.
Arguments Settled {A} o.
Arguments Pending {A}.

(** [indexedDB], for a page whose only connection to the database, if it
    has one, is the one the wrapper holds in [this.db]: the databases of
    the origin with their versions, and what a request to open one ends
    in. *)
Module Factory.

Definition maxVersion : Z := 9007199254740991.   (* 2^53 - 1 *)

Inductive answer : Type :=
  | Throws                                    (* [open] itself throws *)
  | Error                                     (* the request ends in an error event *)
  | Blocked                                   (* the request waits for a connection to close *)
  | Success (upgrade : bool) (stores : database).
      (* success, after an upgradeneeded event when [upgrade] is set *)

(** A version that is not from 1 to 2^53 - 1 makes the call throw; a
    database of a higher version is refused; a database that is not there
    is made, without stores, and upgraded, and a database of a lower
    version is upgraded, once no connection to it is open: a connection
    that is [held] and does not close on the versionchange event keeps the
    request waiting. *)
Definition open (dbs : gmap string (Z * database)) (name : string) (v : Z)
    (held : bool) : answer :=
  if (v <? 1) || (maxVersion <? v) then Throws
  else match dbs !! name with
       | None => if held then Blocked else Success true ∅
       | Some (v0, stores) =>
           if v <? v0 then Error
           else if v0 <? v then (if held then Blocked else Success true stores)
           else Success false stores
       end.

End Factory.

(** [open()]: the upgrade routine, when there is one, runs on the database
    of an upgradeneeded event; success stores the database in [this.db]
    and resolves to it; an error rejects with a text that ends in the
    error code of the host.  A routine that throws aborts the upgrade:
    the request ends in an error event and the database is as it was.
    The wrapper never closes the connection it holds in [this.db] and
    sets no handler for the versionchange and blocked events, so a request
    that needs an upgrade while [this.db] holds a connection is never
    answered: the promise stays pending. *)
Definition open (h : host) (this : settings) (dbs : gmap string (Z * database))
    (w : world) : promise database * gmap string (Z * database) * world :=
  match Factory.open dbs (dbName this) (version this) (bool_decide (db w <> None)) with
  | Factory.Throws => (Settled (Rejected (Thrown TypeError)), dbs, w)
  | Factory.Error =>
      (Settled (Rejected (Message ("Failed to open DB: " +:+ errorCode h))), dbs, w)
  | Factory.Blocked => (Pending, dbs, w)
  | Factory.Success upgrade stores =>
      let upgraded := match upgrade, upgradeCallback this with
                      | true, Some routine => routine stores
                      | _, _ => Some stores
                      end in
      match upgraded with
      | None =>
          (Settled (Rejected (Message ("Failed to open DB: " +:+ errorCode h))), dbs, w)
      | Some stores' =>
          (Settled (Resolved stores'),
           <[dbName this := (version this, stores')]> dbs,
           {| heap := heap w; db := Some stores'; log := log w |})
      end
  end.

End Lifecycle.

(** A routine that creates the store "costs"; creating a store that is
    there throws. *)
Definition createCosts (stores : database) : option database :=
  match stores !! "costs" with
  | Some _ => None
  | None => Some (<["costs" := emptyStore]> stores)
  end.

(** * Properties *)

(** ** Running the methods *)

Lemma verdict_none d :
  verdict d = None <->
  date_rejected d = false /\ sum_rejected d = false /\ category_rejected d = false.
Proof.
  unfold verdict.
  destruct (date_rejected d), (sum_rejected d), (category_rejected d);
    split; try discriminate; intuition congruence.
Qed.

Lemma transaction_opened w storeName mode s :
  opened w storeName s ->
  IndexedDBWrapper.transaction storeName mode w =
    (Resolved s, {| heap := heap w; db := db w;
                    log := log w ++ [Transaction storeName mode] |}).
Proof.
  intros (d & Hdb & Hs). destruct w as [hp dbw lg]. cbn in Hdb. subst dbw.
  unfold IndexedDBWrapper.transaction, bind, IndexedDBWrapper.call. cbn.
  rewrite Hs. reflexivity.
Qed.

Lemma transaction_closed w storeName mode :
  db w = None ->
  IndexedDBWrapper.transaction storeName mode w = (Rejected (Thrown TypeError), w).
Proof. intros Hdb. unfold IndexedDBWrapper.transaction. rewrite Hdb. reflexivity. Qed.

Lemma transaction_resolved w storeName mode s w' :
  IndexedDBWrapper.transaction storeName mode w = (Resolved s, w') ->
  opened w storeName s.
Proof.
  unfold IndexedDBWrapper.transaction, opened.
  destruct (db w) as [d |] eqn:Hdb; [| discriminate].
  unfold bind, IndexedDBWrapper.call. cbn.
  destruct (d !! storeName) as [s' |] eqn:Hs; cbn; [| discriminate].
  intros [= <- _]. eauto.
Qed.

(** A record that fails a guard is rejected with that guard's message and
    the world is left as it was. *)
Lemma addOrUpdate_rejected h storeName data w d msg :
  heap w !! data = Some d ->
  verdict d = Some msg ->
  IndexedDBWrapper.addOrUpdate h storeName data w = (Rejected (Message msg), w).
Proof.
  intros Hd Hv.
  unfold IndexedDBWrapper.addOrUpdate, bind, IndexedDBWrapper.deref.
  rewrite Hd. cbn [ret].
  unfold verdict, date_rejected, sum_rejected, category_rejected in Hv.
  destruct (negb (ToBoolean (get d "date"))).
  { injection Hv as <-. reflexivity. }
  destruct (negb (bool_decide (typeof (get d "sum") = TNumber)) || le_zero (get d "sum")).
  { injection Hv as <-. reflexivity. }
  destruct (negb (ToBoolean (get d "category"))
            || negb (bool_decide (typeof (get d "category") = TString))).
  { injection Hv as <-. reflexivity. }
  discriminate.
Qed.

Lemma stripped_lookup data d hp :
  hp !! data = Some d -> stripped data d hp !! data = Some (delete "id" d).
Proof.
  intros Hd. unfold stripped, has. case_bool_decide as Hid.
  - rewrite lookup_alter_eq, Hd. reflexivity.
  - rewrite Hd. f_equal. symmetry. apply delete_id.
    destruct (d !! "id") eqn:E; [exfalso; apply Hid; eauto | reflexivity].
Qed.

Lemma stripped_other data d hp l :
  l <> data -> stripped data d hp !! l = hp !! l.
Proof.
  intros Hne. unfold stripped. destruct (has d "id"); [| reflexivity].
  apply lookup_alter_ne. congruence.
Qed.

(** A record that passes the guards, on an open store: the transaction is
    opened, the [id] is deleted on the caller's object, and that object is
    put. *)
Lemma addOrUpdate_accepted h storeName data w d s :
  heap w !! data = Some d ->
  verdict d = None ->
  opened w storeName s ->
  let d' := delete "id" d in
  let w1 := {| heap := stripped data d (heap w); db := db w;
               log := log w ++ [Transaction storeName ReadWrite; Put storeName d'] |} in
  IndexedDBWrapper.addOrUpdate h storeName data w =
    match Store.put s d' with
    | Store.PutDone s' =>
        (Resolved IndexedDBWrapper.added,
         {| heap := heap w1; db := <[storeName := s']> <$> db w1; log := log w1 |})
    | Store.PutThrows => (Rejected (Thrown DataError), w1)
    | Store.PutFails =>
        (Rejected (Message ("Failed to add/update data: " +:+ errorCode h)), w1)
    end.
Proof.
  intros Hd Hv Hopen d' w1.
  apply verdict_none in Hv as (Hdate & Hsum & Hcat).
  unfold date_rejected in Hdate. unfold sum_rejected in Hsum.
  unfold category_rejected in Hcat.
  unfold IndexedDBWrapper.addOrUpdate.
  unfold bind at 1. unfold IndexedDBWrapper.deref at 1. rewrite Hd. cbn [ret].
  rewrite Hdate, Hsum, Hcat.
  unfold bind at 1. rewrite (transaction_opened _ _ _ _ Hopen).
  pose proof (stripped_lookup data d (heap w) Hd) as Hs.
  unfold bind, IndexedDBWrapper.deleteProperty, IndexedDBWrapper.deref,
    IndexedDBWrapper.call, IndexedDBWrapper.commit, ret, throw, reject.
  unfold stripped in *.
  destruct (has d "id"); cbn; rewrite Hs; cbn; fold d';
    destruct (Store.put s d'); cbn; rewrite <- ?app_assoc; reflexivity.
Qed.

(** ** The object store *)

Lemma store_record_elem k v l : (k, v) ∈ Store.store_record k v l.
Proof.
  induction l as [| [k' v'] l IH]; cbn.
  - apply list_elem_of_here.
  - destruct (Store.key_compare k k').
    + apply list_elem_of_here.
    + apply list_elem_of_here.
    + apply list_elem_of_further, IH.
Qed.

Lemma store_record_keeps k v l k' v' :
  (k', v') ∈ l ->
  Store.key_eqb k k' = false ->
  (k', v') ∈ Store.store_record k v l.
Proof.
  unfold Store.key_eqb. intros Hin Hne.
  induction l as [| [k0 v0] l IH]; cbn; [inversion Hin |].
  apply elem_of_cons in Hin as [Heq | Hin].
  - injection Heq as <- <-.
    destruct (Store.key_compare k k'); [discriminate | |].
    + apply list_elem_of_further, list_elem_of_here.
    + apply list_elem_of_here.
  - destruct (Store.key_compare k k0).
    + apply list_elem_of_further, Hin.
    + do 2 apply list_elem_of_further. exact Hin.
    + apply list_elem_of_further, IH, Hin.
Qed.

Lemma store_record_inv k v l k' v' :
  (k', v') ∈ Store.store_record k v l ->
  (k', v') = (k, v) \/ (k', v') ∈ l.
Proof.
  induction l as [| [k0 v0] l IH]; cbn.
  - intros Hin. apply elem_of_cons in Hin as [-> | Hin]; [now left | inversion Hin].
  - destruct (Store.key_compare k k0); intros Hin;
      apply elem_of_cons in Hin as [Heq | Hin]; auto.
    + right. apply list_elem_of_further, Hin.
    + right. rewrite Heq. apply list_elem_of_here.
    + destruct (IH Hin) as [-> | Hin']; [now left | right].
      apply list_elem_of_further, Hin'.
Qed.

(** A record stored under a key no record has makes the store one longer. *)
Lemma store_record_length k v l :
  (forall k' v', (k', v') ∈ l -> Store.key_eqb k k' = false) ->
  length (Store.store_record k v l) = S (length l).
Proof.
  unfold Store.key_eqb. induction l as [| [k0 v0] l IH]; cbn; intros Hfresh; [reflexivity |].
  pose proof (Hfresh k0 v0 (list_elem_of_here _ _)) as H0.
  destruct (Store.key_compare k k0); [discriminate | reflexivity |].
  cbn. f_equal. apply IH. intros k' v' Hin.
  apply (Hfresh k' v'), list_elem_of_further, Hin.
Qed.

(** Without an [id] the key comes from the generator. *)
Lemma put_generates s v :
  v !! "id" = None ->
  Store.put s v =
    if Store.maxGenerated <? Store.keyGenerator s then Store.PutFails
    else Store.PutDone
           {| Store.records :=
                Store.store_record (Store.KNumber (Number.of_Z (Store.keyGenerator s)))
                  (<["id" := VNum (Number.of_Z (Store.keyGenerator s))]> v)
                  (Store.records s);
              Store.keyGenerator := Store.keyGenerator s + 1 |}.
Proof. intros Hid. unfold Store.put, get. rewrite Hid. reflexivity. Qed.

Lemma delete_record_elem k l k' v :
  (k', v) ∈ Store.delete_record k l <-> (k', v) ∈ l /\ Store.key_eqb k' k = false.
Proof.
  unfold Store.delete_record.
  rewrite !list_elem_of_In, filter_In. cbn. rewrite negb_true_iff. reflexivity.
Qed.

Lemma delete_record_absent k l :
  (forall k' v, (k', v) ∈ l -> Store.key_eqb k' k = false) ->
  Store.delete_record k l = l.
Proof.
  unfold Store.delete_record. induction l as [| [k0 v0] l IH]; cbn; intros Habs; [reflexivity |].
  rewrite (Habs k0 v0 (list_elem_of_here _ _)). cbn. f_equal.
  apply IH. intros k' v Hin. apply (Habs k' v), list_elem_of_further, Hin.
Qed.

Lemma store_of_opened w storeName s :
  opened w storeName s <-> store_of w storeName = Some s.
Proof.
  unfold opened, store_of. destruct (db w) as [d |]; cbn.
  - split; [intros (d' & [= <-] & Hs); exact Hs | eauto].
  - split; [intros (d' & [=] & _) | discriminate].
Qed.

(** ** addOrUpdate on an open store *)

Lemma addOrUpdate_stored h storeName data w d s :
  heap w !! data = Some d ->
  verdict d = None ->
  opened w storeName s ->
  Store.keyGenerator s <= Store.maxGenerated ->
  IndexedDBWrapper.addOrUpdate h storeName data w =
    (Resolved IndexedDBWrapper.added,
     {| heap := stripped data d (heap w);
        db := <[storeName := stored s d]> <$> db w;
        log := log w ++ [Transaction storeName ReadWrite; Put storeName (delete "id" d)] |}).
Proof.
  intros Hd Hv Hopen Hg.
  rewrite (addOrUpdate_accepted h storeName data w d s Hd Hv Hopen).
  rewrite put_generates by apply lookup_delete_eq.
  destruct (Store.maxGenerated <? Store.keyGenerator s) eqn:E; [lia |].
  reflexivity.
Qed.

Lemma addOrUpdate_exhausted h storeName data w d s :
  heap w !! data = Some d ->
  verdict d = None ->
  opened w storeName s ->
  Store.maxGenerated < Store.keyGenerator s ->
  IndexedDBWrapper.addOrUpdate h storeName data w =
    (Rejected (Message ("Failed to add/update data: " +:+ errorCode h)),
     {| heap := stripped data d (heap w);
        db := db w;
        log := log w ++ [Transaction storeName ReadWrite; Put storeName (delete "id" d)] |}).
Proof.
  intros Hd Hv Hopen Hg.
  rewrite (addOrUpdate_accepted h storeName data w d s Hd Hv Hopen).
  rewrite put_generates by apply lookup_delete_eq.
  destruct (Store.maxGenerated <? Store.keyGenerator s) eqn:E; [| lia].
  reflexivity.
Qed.

Lemma addOrUpdate_dangling h storeName data w :
  heap w !! data = None ->
  IndexedDBWrapper.addOrUpdate h storeName data w = (Rejected (Thrown TypeError), w).
Proof.
  intros Hd. unfold IndexedDBWrapper.addOrUpdate, bind, IndexedDBWrapper.deref.
  rewrite Hd. reflexivity.
Qed.

(** A record that passes the guards while no transaction can be opened: the
    call to [transaction] throws and the caller's object is not touched. *)
Lemma addOrUpdate_unopened h storeName data w d :
  heap w !! data = Some d ->
  verdict d = None ->
  store_of w storeName = None ->
  exists e w',
    IndexedDBWrapper.addOrUpdate h storeName data w = (Rejected (Thrown e), w')
    /\ heap w' = heap w /\ db w' = db w /\ puts (log w') = puts (log w).
Proof.
  intros Hd Hv Hnone.
  apply verdict_none in Hv as (Hdate & Hsum & Hcat).
  unfold date_rejected in Hdate. unfold sum_rejected in Hsum.
  unfold category_rejected in Hcat.
  unfold IndexedDBWrapper.addOrUpdate.
  unfold bind at 1. unfold IndexedDBWrapper.deref at 1. rewrite Hd. cbn [ret].
  rewrite Hdate, Hsum, Hcat.
  unfold bind at 1. unfold IndexedDBWrapper.transaction.
  unfold store_of in Hnone.
  destruct (db w) as [dm |] eqn:Hdb; cbn in Hnone.
  - unfold bind, IndexedDBWrapper.call. cbn. rewrite Hnone. cbn.
    eexists _, _. split; [reflexivity |]. cbn. repeat split; auto.
    unfold puts. rewrite omap_app. cbn. apply app_nil_r.
  - cbn. eexists _, _. split; [reflexivity |]. auto.
Qed.

Lemma store_of_commit hp (dbw : option (gmap string objectStore)) lg storeName s s' :
  store_of {| heap := hp; db := dbw; log := lg |} storeName = Some s ->
  store_of {| heap := hp; db := <[storeName := s']> <$> dbw; log := lg |} storeName = Some s'.
Proof.
  unfold store_of. cbn. destruct dbw as [d |]; cbn; [| discriminate].
  intros _. apply lookup_insert_eq.
Qed.

Lemma store_of_commit_other hp (dbw : option (gmap string objectStore)) lg storeName s' other :
  other <> storeName ->
  store_of {| heap := hp; db := <[storeName := s']> <$> dbw; log := lg |} other =
  store_of {| heap := hp; db := dbw; log := lg |} other.
Proof.
  intros Hne. unfold store_of. cbn. destruct dbw as [d |]; cbn; [| reflexivity].
  apply lookup_insert_ne. congruence.
Qed.

Lemma zero_lt_not_le n : Number.ltb Number.zero n = true -> Number.leb n Number.zero = false.
Proof.
  unfold Number.ltb, Number.leb, SFltb, SFleb, Number.zero.
  destruct n as [s | s | | s m e]; cbn; try discriminate; destruct s; cbn; congruence.
Qed.

Lemma valid_record_passes d : valid_record d -> verdict d = None.
Proof.
  intros (Hdate & (n & Hsum & Hpos) & (s & Hcat & Hne)).
  apply verdict_none. unfold date_rejected, sum_rejected, category_rejected.
  unfold date_present in Hdate. rewrite Hdate, Hsum, Hcat. cbn.
  rewrite (zero_lt_not_le n Hpos).
  rewrite (bool_decide_eq_false_2 (s = "") Hne).
  rewrite !bool_decide_eq_true_2 by reflexivity.
  auto.
Qed.

(** ** Validation errors *)

Lemma messages_distinct :
  IndexedDBWrapper.date_required <> IndexedDBWrapper.sum_required
  /\ IndexedDBWrapper.sum_required <> IndexedDBWrapper.category_required
  /\ IndexedDBWrapper.date_required <> IndexedDBWrapper.category_required.
Proof. repeat split; discriminate. Qed.

Lemma missing_date_rejected d : missing d "date" -> date_rejected d = true.
Proof. unfold missing, date_rejected, get. intros ->. reflexivity. Qed.

Lemma sum_not_positive_rejected d : sum_not_positive d <-> sum_rejected d = true.
Proof.
  unfold sum_not_positive, sum_rejected.
  rewrite orb_true_iff, negb_true_iff, bool_decide_eq_false. tauto.
Qed.

Lemma category_not_string_rejected d :
  category_not_string d -> category_rejected d = true.
Proof.
  unfold category_not_string, category_rejected, missing, get.
  intros [-> | Hn]; [reflexivity |].
  rewrite orb_true_iff, !negb_true_iff, bool_decide_eq_false. tauto.
Qed.

(** C1. A record whose date is missing, whose sum is not a number or is at
    most zero, or whose category is missing or not a string is rejected by
    [addOrUpdate] with a message: the date's message when the date guard
    fires, else the sum's when the sum guard fires, else the category's, and
    the three messages differ.  The world returned is the world given, so no
    transaction was opened, nothing was put and the caller's heap is as it
    was. *)
Theorem invalid_record_rejected_before_storage h storeName data w d :
  heap w !! data = Some d ->
  missing d "date" \/ sum_not_positive d \/ category_not_string d ->
  exists msg,
    IndexedDBWrapper.addOrUpdate h storeName data w = (Rejected (Message msg), w)
    /\ ((msg = IndexedDBWrapper.date_required /\ date_rejected d = true)
        \/ (msg = IndexedDBWrapper.sum_required
            /\ date_rejected d = false /\ sum_not_positive d)
        \/ (msg = IndexedDBWrapper.category_required
            /\ date_rejected d = false /\ ~ sum_not_positive d
            /\ category_rejected d = true))
    /\ IndexedDBWrapper.date_required <> IndexedDBWrapper.sum_required
    /\ IndexedDBWrapper.sum_required <> IndexedDBWrapper.category_required
    /\ IndexedDBWrapper.date_required <> IndexedDBWrapper.category_required.
Proof.
  intros Hd Hbad.
  assert (Hsome : exists msg, verdict d = Some msg).
  { unfold verdict.
    destruct (date_rejected d) eqn:Ed; [eauto |].
    destruct (sum_rejected d) eqn:Es; [eauto |].
    destruct (category_rejected d) eqn:Ec; [eauto |].
    destruct Hbad as [Hm | [Hs | Hc]].
    - apply missing_date_rejected in Hm. congruence.
    - apply sum_not_positive_rejected in Hs. congruence.
    - apply category_not_string_rejected in Hc. congruence. }
  destruct Hsome as [msg Hv]. exists msg.
  split; [exact (addOrUpdate_rejected h storeName data w d msg Hd Hv) |].
  split; [| exact messages_distinct].
  unfold verdict in Hv.
  destruct (date_rejected d) eqn:Ed.
  { left. injection Hv as <-. auto. }
  destruct (sum_rejected d) eqn:Es.
  { right; left. injection Hv as <-. rewrite sum_not_positive_rejected. auto. }
  destruct (category_rejected d) eqn:Ec; [| discriminate].
  right; right. injection Hv as <-. rewrite sum_not_positive_rejected.
  repeat split; congruence.
Qed.

Lemma invalid_record_rejected_witness :
  exists msg,
    IndexedDBWrapper.addOrUpdate utc "costs" 1%positive (worldOf emptyStore overdrawn)
      = (Rejected (Message msg), worldOf emptyStore overdrawn)
    /\ ((msg = IndexedDBWrapper.date_required /\ date_rejected overdrawn = true)
        \/ (msg = IndexedDBWrapper.sum_required
            /\ date_rejected overdrawn = false /\ sum_not_positive overdrawn)
        \/ (msg = IndexedDBWrapper.category_required
            /\ date_rejected overdrawn = false /\ ~ sum_not_positive overdrawn
            /\ category_rejected overdrawn = true))
    /\ IndexedDBWrapper.date_required <> IndexedDBWrapper.sum_required
    /\ IndexedDBWrapper.sum_required <> IndexedDBWrapper.category_required
    /\ IndexedDBWrapper.date_required <> IndexedDBWrapper.category_required.
Proof.
  apply (invalid_record_rejected_before_storage utc "costs" 1%positive
           (worldOf emptyStore overdrawn) overdrawn).
  - vm_compute. reflexivity.
  - right; left; right. vm_compute. reflexivity.
Defined.

(** C9. Some record passes validation without a positive sum: with a date,
    a category that is a string and is not empty, and NaN for its sum, no
    guard fires (NaN has type number and [NaN <= 0] is false), so on an
    open store [addOrUpdate] puts the record and resolves, and the store
    then holds a record whose sum is NaN. *)
Theorem nan_sum_passes_validation h :
  exists d : obj,
    date_present d /\ category_nonempty d
    /\ get d "sum" = VNum Number.NaN
    /\ ~ sum_positive d
    /\ typeof (get d "sum") = TNumber /\ le_zero (get d "sum") = false
    /\ verdict d = None
    /\ exists w' s' v,
         IndexedDBWrapper.addOrUpdate h "costs" 1%positive (worldOf emptyStore d)
           = (Resolved IndexedDBWrapper.added, w')
         /\ Put "costs" d ∈ log w'
         /\ store_of w' "costs" = Some s'
         /\ Store.records s' = [(Store.KNumber (Number.of_Z 1), v)]
         /\ get v "sum" = VNum Number.NaN.
Proof.
  exists nanRecord.
  split; [reflexivity |].
  split; [exists "food"; split; [reflexivity | discriminate] |].
  split; [reflexivity |].
  split; [intros (n & Hn & Hpos); vm_compute in Hn; injection Hn as <-; discriminate |].
  split; [reflexivity |]. split; [reflexivity |]. split; [reflexivity |].
  assert (Hopen : opened (worldOf emptyStore nanRecord) "costs" emptyStore).
  { eexists. split; [reflexivity |]. apply lookup_singleton_eq. }
  rewrite (addOrUpdate_stored h "costs" 1%positive _ nanRecord emptyStore
             (lookup_singleton_eq _ _) eq_refl Hopen ltac:(vm_compute; discriminate)).
  eexists _, (stored emptyStore nanRecord), _.
  split; [reflexivity |].
  split.
  { cbn. replace (delete "id" nanRecord) with nanRecord by (vm_compute; reflexivity).
    apply list_elem_of_further, list_elem_of_here. }
  split; [apply (store_of_commit _ _ _ _ emptyStore); apply store_of_opened, Hopen |].
  split; [reflexivity |].
  vm_compute. reflexivity.
Qed.

(** ** The caller's object *)

Lemma has_delete (d : obj) k : has (delete k d) k = false.
Proof.
  unfold has. apply bool_decide_eq_false. rewrite lookup_delete_eq.
  intros [x Hx]. discriminate.
Qed.

(** C10, amended. When the caller's object has an [id], passes the three
    guards, and the transaction on the store opens, [addOrUpdate] deletes
    the [id] on the caller's own object: after the call, whatever its
    outcome, the reference given holds the object without its [id], every
    other object of the heap is as it was, and the object put is that same
    object. *)
Theorem accepted_record_loses_id_in_place h storeName data w d s res w' :
  heap w !! data = Some d ->
  has d "id" = true ->
  verdict d = None ->
  opened w storeName s ->
  IndexedDBWrapper.addOrUpdate h storeName data w = (res, w') ->
  heap w' !! data = Some (delete "id" d)
  /\ has (delete "id" d) "id" = false
  /\ (forall l, l <> data -> heap w' !! l = heap w !! l)
  /\ Put storeName (delete "id" d) ∈ log w'.
Proof.
  intros Hd Hid Hv Hopen Hrun.
  assert (Hw : heap w' = stripped data d (heap w)
               /\ log w' = (log w ++ [Transaction storeName ReadWrite;
                                      Put storeName (delete "id" d)])%list).
  { destruct (Z_le_gt_dec (Store.keyGenerator s) Store.maxGenerated) as [Hg | Hg].
    - rewrite (addOrUpdate_stored h storeName data w d s Hd Hv Hopen Hg) in Hrun.
      injection Hrun as _ <-. auto.
    - rewrite (addOrUpdate_exhausted h storeName data w d s Hd Hv Hopen) in Hrun by lia.
      injection Hrun as _ <-. auto. }
  destruct Hw as [Hheap Hlog]. rewrite Hheap, Hlog.
  split; [apply stripped_lookup, Hd |].
  split; [apply has_delete |].
  split; [intros l Hl; apply stripped_other, Hl |].
  apply elem_of_app. right. apply list_elem_of_further, list_elem_of_here.
Qed.

Lemma accepted_record_loses_id_witness :
  heap (snd (IndexedDBWrapper.addOrUpdate utc "costs" 1%positive
               (worldOf emptyStore (withId 7 jan2023)))) !! 1%positive
    = Some (delete "id" (withId 7 jan2023))
  /\ has (delete "id" (withId 7 jan2023)) "id" = false
  /\ (forall l, l <> 1%positive ->
        heap (snd (IndexedDBWrapper.addOrUpdate utc "costs" 1%positive
                     (worldOf emptyStore (withId 7 jan2023)))) !! l
        = heap (worldOf emptyStore (withId 7 jan2023)) !! l)
  /\ Put "costs" (delete "id" (withId 7 jan2023))
       ∈ log (snd (IndexedDBWrapper.addOrUpdate utc "costs" 1%positive
                     (worldOf emptyStore (withId 7 jan2023)))).
Proof.
  apply (accepted_record_loses_id_in_place utc "costs" 1%positive
           (worldOf emptyStore (withId 7 jan2023)) (withId 7 jan2023) emptyStore
           (fst (IndexedDBWrapper.addOrUpdate utc "costs" 1%positive
                   (worldOf emptyStore (withId 7 jan2023))))).
  - vm_compute. reflexivity.
  - vm_compute. reflexivity.
  - vm_compute. reflexivity.
  - exists {[ "costs" := emptyStore ]}. split; [reflexivity |]. vm_compute. reflexivity.
  - apply surjective_pairing.
Defined.

(** C10, as stated, fails: a record with an [id] and a sum below zero is
    rejected by the sum guard, and the caller's object still has its [id]
    after the call. *)
Lemma rejected_record_keeps_id :
  has (withId 7 overdrawn) "id" = true
  /\ exists r w' d',
       IndexedDBWrapper.addOrUpdate utc "costs" 1%positive
         (worldOf emptyStore (withId 7 overdrawn)) = (Rejected r, w')
       /\ heap w' !! 1%positive = Some d'
       /\ has d' "id" = true.
Proof.
  split; [vm_compute; reflexivity |].
  eexists _, _, _. split; [| split].
  - apply (addOrUpdate_rejected utc "costs" 1%positive _ (withId 7 overdrawn)
             IndexedDBWrapper.sum_required); vm_compute; reflexivity.
  - cbn. apply lookup_singleton_eq.
  - vm_compute. reflexivity.
Qed.

(** ** Insertion, listing and deletion *)

Lemma getAll_opened w storeName s :
  opened w storeName s ->
  IndexedDBWrapper.getAll storeName w =
    (Resolved (Store.getAll s),
     {| heap := heap w; db := db w;
        log := log w ++ [Transaction storeName ReadOnly; GetAll storeName] |}).
Proof.
  intros Hopen. unfold IndexedDBWrapper.getAll.
  unfold bind at 1. rewrite (transaction_opened _ _ _ _ Hopen).
  unfold bind, IndexedDBWrapper.call, ret. cbn. rewrite <- app_assoc. reflexivity.
Qed.

Lemma getAll_resolved w storeName records w' :
  IndexedDBWrapper.getAll storeName w = (Resolved records, w') ->
  exists s, opened w storeName s /\ records = Store.getAll s.
Proof.
  unfold IndexedDBWrapper.getAll. unfold bind at 1.
  destruct (IndexedDBWrapper.transaction storeName ReadOnly w) as [[s | r] w1] eqn:Ht;
    [| discriminate].
  apply transaction_resolved in Ht.
  unfold bind, IndexedDBWrapper.call, ret. cbn. intros [= <- _]. eauto.
Qed.

Lemma puts_app l1 l2 : puts (l1 ++ l2) = (puts l1 ++ puts l2)%list.
Proof. apply omap_app. Qed.

Lemma exampleStore_ready : generator_ready exampleStore.
Proof.
  split; [vm_compute; discriminate |].
  intros k v Hin. cbn in Hin.
  repeat (apply elem_of_cons in Hin as [[= -> ->] | Hin]; [vm_compute; reflexivity |]).
  inversion Hin.
Qed.

Lemma emptyStore_ready : generator_ready emptyStore.
Proof. split; [vm_compute; discriminate |]. intros k v Hin. inversion Hin. Qed.

Lemma worldOf_opened s d : opened (worldOf s d) "costs" s.
Proof. eexists. split; [reflexivity |]. apply lookup_singleton_eq. Qed.

(** C7. On an open store whose generator is ready, [addOrUpdate] of a valid
    record resolves, and [getAll] on the same store then resolves to a
    sequence holding a record with the date, the sum and the category of
    the input, whose [id] is the key the generator produced, a key no
    stored record had. *)
Theorem addOrUpdate_then_getAll h storeName data w d s :
  heap w !! data = Some d ->
  valid_record d ->
  opened w storeName s ->
  generator_ready s ->
  exists w1 w2 records r,
    IndexedDBWrapper.addOrUpdate h storeName data w
      = (Resolved IndexedDBWrapper.added, w1)
    /\ IndexedDBWrapper.getAll storeName w1 = (Resolved records, w2)
    /\ r ∈ records
    /\ get r "date" = get d "date"
    /\ get r "sum" = get d "sum"
    /\ get r "category" = get d "category"
    /\ get r "id" = VNum (Number.of_Z (Store.keyGenerator s))
    /\ (forall k v, (k, v) ∈ Store.records s ->
          Store.key_eqb (Store.KNumber (Number.of_Z (Store.keyGenerator s))) k = false).
Proof.
  intros Hd Hvalid Hopen [Hlive Hfresh].
  pose proof (valid_record_passes d Hvalid) as Hv.
  pose proof (proj1 (store_of_opened _ _ _) Hopen) as Hstore.
  rewrite (addOrUpdate_stored h storeName data w d s Hd Hv Hopen Hlive).
  set (w1 := {| heap := stripped data d (heap w);
                db := <[storeName := stored s d]> <$> db w;
                log := _ |}).
  assert (Hopen1 : opened w1 storeName (stored s d)).
  { apply store_of_opened. apply (store_of_commit _ _ _ _ s). destruct w; exact Hstore. }
  eexists w1, _, _, (<["id" := VNum (Number.of_Z (Store.keyGenerator s))]> (delete "id" d)).
  split; [reflexivity |].
  split; [exact (getAll_opened w1 storeName (stored s d) Hopen1) |].
  split.
  { unfold Store.getAll. apply list_elem_of_In, in_map_iff.
    eexists (_, _). split; [reflexivity |].
    apply list_elem_of_In. cbn. apply store_record_elem. }
  unfold get.
  rewrite !lookup_insert_ne by discriminate.
  rewrite !lookup_delete_ne by discriminate.
  rewrite lookup_insert_eq. auto.
Qed.

Lemma addOrUpdate_then_getAll_witness :
  exists w1 w2 records r,
    IndexedDBWrapper.addOrUpdate utc "costs" 1%positive clientWorld
      = (Resolved IndexedDBWrapper.added, w1)
    /\ IndexedDBWrapper.getAll "costs" w1 = (Resolved records, w2)
    /\ r ∈ records
    /\ get r "date" = get (withId 2 jan2023) "date"
    /\ get r "sum" = get (withId 2 jan2023) "sum"
    /\ get r "category" = get (withId 2 jan2023) "category"
    /\ get r "id" = VNum (Number.of_Z (Store.keyGenerator exampleStore))
    /\ (forall k v, (k, v) ∈ Store.records exampleStore ->
          Store.key_eqb
            (Store.KNumber (Number.of_Z (Store.keyGenerator exampleStore))) k = false).
Proof.
  apply (addOrUpdate_then_getAll utc "costs" 1%positive clientWorld (withId 2 jan2023)
           exampleStore).
  - vm_compute. reflexivity.
  - split; [vm_compute; reflexivity |]. split.
    + exists (Number.of_Z 10). split; vm_compute; reflexivity.
    + exists "food". split; [vm_compute; reflexivity | discriminate].
  - apply worldOf_opened.
  - apply exampleStore_ready.
Defined.

Lemma delete_opened w storeName key k s :
  opened w storeName s ->
  Store.key_of_value key = Some k ->
  IndexedDBWrapper.delete storeName key w =
    (Resolved IndexedDBWrapper.deleted,
     {| heap := heap w;
        db := <[storeName := Store.delete s k]> <$> db w;
        log := log w ++ [Transaction storeName ReadWrite; Delete storeName key] |}).
Proof.
  intros Hopen Hk. unfold IndexedDBWrapper.delete.
  unfold bind at 1. rewrite (transaction_opened _ _ _ _ Hopen).
  unfold bind, IndexedDBWrapper.call, IndexedDBWrapper.commit, ret. cbn.
  rewrite Hk. cbn. rewrite <- app_assoc. reflexivity.
Qed.

Example delete_second_of_three :
  Store.getAll (Store.delete exampleStore (Store.KNumber (Number.of_Z 2)))
    = [withId 1 jan2023; withId 3 jan2022].
Proof. vm_compute. reflexivity. Qed.

Example delete_absent_key :
  Store.delete exampleStore (Store.KString "2") = exampleStore.
Proof. vm_compute. reflexivity. Qed.

(** ** Grouping by category *)

(** The totals on the inherited objects change with the assignments of a
    trace only. *)
Lemma totals_app h l1 l2 :
  additions l2 = [] ->
  IndexedDBWrapper.totals h (l1 ++ l2) = IndexedDBWrapper.totals h l1.
Proof.
  unfold IndexedDBWrapper.totals. rewrite fold_left_app.
  generalize (fold_left
    (fun m e => match e with
                | AddTotalSum k v => <[k := js_add h (IndexedDBWrapper.readTotal m k) v]> m
                | _ => m
                end) l1 ∅).
  induction l2 as [| e l2 IH]; intros m Hquiet; [reflexivity |].
  destruct e; cbn in Hquiet |- *; try discriminate; apply IH, Hquiet.
Qed.

Lemma prototypeTotal_listed h w storeName :
  prototypeTotal h (listed w storeName) = prototypeTotal h w.
Proof. unfold prototypeTotal, listed. cbn [log]. rewrite totals_app; reflexivity. Qed.

Lemma taken_listed h w storeName k :
  taken h (listed w storeName) k <-> taken h w k.
Proof. unfold taken. rewrite prototypeTotal_listed. reflexivity. Qed.

Global Instance taken_dec h w k : Decision (taken h w k).
Proof. unfold taken. apply _. Defined.

Lemma inherited_not_totalSum : "totalSum" ∉ inherited.
Proof. apply (bool_decide_eq_false_1 ("totalSum" ∈ inherited)). vm_compute. reflexivity. Qed.

Lemma accumulate_eq h r record w :
  IndexedDBWrapper.accumulate h r record w =
    let k := categoryOf h record in
    match r !! k with
    | None =>
        if bool_decide (k ∈ inherited)
        then (Rejected (Thrown TypeError), traced w (AddTotalSum k (get record "sum")))
        else if bool_decide (k = "totalSum") && ToBoolean (prototypeTotal h w)
        then (Rejected (Thrown TypeError), w)
        else (Resolved (<[k := step h (seed r k) record]> r), w)
    | Some _ => (Resolved (<[k := step h (seed r k) record]> r), w)
    end.
Proof.
  unfold IndexedDBWrapper.accumulate, categoryOf, lookup_slot, seed, step, prototypeTotal.
  cbn zeta. set (k := ToString h (get record "category")).
  destruct (r !! k) as [g |] eqn:Hk.
  - cbn [found]. rewrite Hk. reflexivity.
  - destruct (bool_decide (k ∈ inherited)) eqn:Hin.
    + cbn [found]. rewrite Hk. reflexivity.
    + assert (Hfresh : (<[k := Group (VNum Number.zero) []]> r) !! k
                       = Some (Group (VNum Number.zero) [])) by apply lookup_insert_eq.
      destruct (bool_decide (k = "totalSum")) eqn:Hname; cbn [andb].
      * destruct (IndexedDBWrapper.totals h (log w) !! "__proto__") as [t |];
          cbn [found default from_option id].
        -- destruct (ToBoolean t) eqn:Htruthy.
           ++ rewrite Hk. reflexivity.
           ++ rewrite Hfresh, insert_insert_eq. reflexivity.
        -- rewrite Hfresh, insert_insert_eq. reflexivity.
      * cbn [found]. rewrite Hfresh, insert_insert_eq. reflexivity.
Qed.

(** The callback throws exactly on a key that is taken and that the report
    does not own; it then has added to the total of the inherited object,
    when the key names one. *)
Lemma accumulate_taken h r record w :
  let k := categoryOf h record in
  IndexedDBWrapper.accumulate h r record w =
    if bool_decide (taken h w k /\ r !! k = None)
    then (Rejected (Thrown TypeError),
          if bool_decide (k ∈ inherited)
          then traced w (AddTotalSum k (get record "sum")) else w)
    else (Resolved (<[k := step h (seed r k) record]> r), w).
Proof.
  cbn zeta. rewrite accumulate_eq. cbn zeta.
  set (k := categoryOf h record). unfold taken.
  destruct (r !! k) as [g |] eqn:Hk.
  - rewrite bool_decide_eq_false_2; [reflexivity | intros [_ Hc]; discriminate].
  - case_bool_decide as Hin.
    + rewrite bool_decide_eq_true_2; [reflexivity | split; [left; exact Hin | reflexivity]].
    + destruct (bool_decide (k = "totalSum") && ToBoolean (prototypeTotal h w)) eqn:Ht.
      * apply andb_true_iff in Ht as [Hname Ht]. apply bool_decide_eq_true_1 in Hname.
        rewrite bool_decide_eq_true_2; [reflexivity | auto].
      * rewrite bool_decide_eq_false_2; [reflexivity |].
        intros [[Hin' | [Hname Htruthy]] _]; [contradiction |].
        rewrite (bool_decide_eq_true_2 _ Hname), Htruthy in Ht. discriminate.
Qed.

Lemma fold_step h ms g :
  fold_left (step h) ms g =
    Group (fold_left (fun acc record => js_add h acc (get record "sum")) ms (totalSum g))
          (items g ++ ms).
Proof.
  revert g. induction ms as [| m ms IH]; intros g; cbn.
  - rewrite app_nil_r. destruct g; reflexivity.
  - rewrite IH. cbn. rewrite <- app_assoc. reflexivity.
Qed.

(** A [forEach] that returns has left the world as it was. *)
Lemma forEach_world h l r0 r w w' :
  IndexedDBWrapper.forEach h l r0 w = (Resolved r, w') -> w' = w.
Proof.
  revert r0. induction l as [| record l IH]; intros r0; cbn.
  - intros [= _ <-]. reflexivity.
  - unfold bind. rewrite accumulate_taken. cbn zeta.
    case_bool_decide; [discriminate | apply IH].
Qed.

(** What a report holds once [forEach] has run over [l] from the report
    [r0]. *)
Lemma forEach_lookup h l r0 r k w w' :
  IndexedDBWrapper.forEach h l r0 w = (Resolved r, w') ->
  r !! k = match members h k l with
           | [] => r0 !! k
           | ms => Some (fold_left (step h) ms (seed r0 k))
           end.
Proof.
  revert r0. induction l as [| record l IH]; intros r0; cbn.
  - intros [= <- _]. reflexivity.
  - unfold bind. rewrite accumulate_taken. cbn zeta.
    set (k0 := categoryOf h record).
    set (r1 := <[k0 := step h (seed r0 k0) record]> r0).
    case_bool_decide as Htaken; [discriminate |].
    intros Hrun. rewrite (IH r1 Hrun). unfold members. cbn. fold k0.
    fold (members h k l).
    case_bool_decide as Hk.
    + subst k. cbn.
      assert (Hseed : seed r1 k0 = step h (seed r0 k0) record).
      { unfold seed, r1. rewrite lookup_insert_eq. reflexivity. }
      destruct (members h k0 l) as [| m ms].
      * unfold r1. rewrite lookup_insert_eq. reflexivity.
      * rewrite Hseed. reflexivity.
    + assert (Hseed : seed r1 k = seed r0 k).
      { unfold seed, r1. rewrite lookup_insert_ne by exact Hk. reflexivity. }
      rewrite Hseed. unfold r1. rewrite lookup_insert_ne by exact Hk. reflexivity.
Qed.

(** Grouping from the empty report gives the report of the specification. *)
Lemma forEach_summary h l r k w w' :
  IndexedDBWrapper.forEach h l ∅ w = (Resolved r, w') -> r !! k = summary h l k.
Proof.
  intros Hrun. rewrite (forEach_lookup h l ∅ r k w w' Hrun). unfold summary.
  destruct (members h k l) as [| m ms] eqn:E; [apply lookup_empty |].
  rewrite fold_step. unfold seed. rewrite lookup_empty. reflexivity.
Qed.

(** Grouping throws exactly when a record is filed under a key that is
    taken and that the report does not own.  It then throws a TypeError,
    and the one thing it may have changed is the total of the inherited
    object the record was filed under. *)
Lemma forEach_throws h l r0 w :
  (exists e w', IndexedDBWrapper.forEach h l r0 w = (Rejected e, w')) <->
  exists record, record ∈ l /\ taken h w (categoryOf h record)
                 /\ r0 !! categoryOf h record = None.
Proof.
  revert r0. induction l as [| record l IH]; intros r0; cbn.
  - split; [intros (e & w' & [=]) | intros (x & Hx & _); inversion Hx].
  - unfold bind. rewrite accumulate_taken. cbn zeta.
    set (k0 := categoryOf h record).
    set (r1 := <[k0 := step h (seed r0 k0) record]> r0).
    case_bool_decide as Htaken.
    + split; [intros _ | eauto].
      exists record. split; [apply list_elem_of_here | exact Htaken].
    + rewrite (IH r1). split.
      * intros (x & Hx & Hin & Hnone). exists x.
        split; [apply list_elem_of_further, Hx |]. split; [exact Hin |].
        unfold r1 in Hnone. apply lookup_insert_None in Hnone. tauto.
      * intros (x & Hx & Hin & Hnone).
        apply elem_of_cons in Hx as [-> | Hx]; [destruct Htaken; auto |].
        exists x. split; [exact Hx |]. split; [exact Hin |].
        unfold r1. apply lookup_insert_None. split; [exact Hnone |].
        intros Heq. apply Htaken. rewrite Heq. auto.
Qed.

Lemma forEach_rejected h l r0 w e w' :
  IndexedDBWrapper.forEach h l r0 w = (Rejected e, w') ->
  e = Thrown TypeError
  /\ (w' = w
      \/ exists record, record ∈ l /\ categoryOf h record ∈ inherited
           /\ w' = traced w (AddTotalSum (categoryOf h record) (get record "sum"))).
Proof.
  revert r0. induction l as [| record l IH]; intros r0; cbn.
  - discriminate.
  - unfold bind. rewrite accumulate_taken. cbn zeta.
    case_bool_decide as Htaken.
    + intros [= <- <-]. split; [reflexivity |].
      case_bool_decide as Hin; [right | left; reflexivity].
      exists record. split; [apply list_elem_of_here | auto].
    + intros Hrun. destruct (IH _ Hrun) as (He & [Hw | (x & Hx & Hin & Hw)]).
      * auto.
      * split; [exact He |]. right. exists x.
        split; [apply list_elem_of_further, Hx | auto].
Qed.

(** ** Running the reports *)

Lemma grouped_resolved h w l r :
  grouped h w l = Resolved (Report r) <->
  IndexedDBWrapper.forEach h l ∅ w = (Resolved r, w).
Proof.
  unfold grouped, IndexedDBWrapper.groupByCategory, bind.
  destruct (IndexedDBWrapper.forEach h l ∅ w) as [[r' | e] w'] eqn:Hfor; cbn.
  - rewrite (forEach_world h l ∅ r' w w' Hfor). split; congruence.
  - split; [discriminate | intros [=]].
Qed.

Lemma grouped_rejected h w l :
  (exists r, grouped h w l = Resolved (Report r))
  \/ grouped h w l = Rejected (Thrown TypeError).
Proof.
  unfold grouped, IndexedDBWrapper.groupByCategory, bind.
  destruct (IndexedDBWrapper.forEach h l ∅ w) as [[r' | e] w'] eqn:Hfor; cbn.
  - left. eauto.
  - right. destruct (forEach_rejected h l ∅ w e w' Hfor) as [-> _]. reflexivity.
Qed.

(** Grouping throws exactly when a record is filed under a key that is
    taken. *)
Lemma grouped_throws h w l :
  grouped h w l = Rejected (Thrown TypeError) <->
  exists record, record ∈ l /\ taken h w (categoryOf h record).
Proof.
  split.
  - intros Hg. unfold grouped, IndexedDBWrapper.groupByCategory, bind in Hg.
    destruct (IndexedDBWrapper.forEach h l ∅ w) as [[r' | e] w'] eqn:Hfor;
      [discriminate |].
    destruct (proj1 (forEach_throws h l ∅ w) (ex_intro _ e (ex_intro _ w' Hfor)))
      as (record & Hin & Htaken & _). eauto.
  - intros (record & Hin & Htaken).
    destruct (proj2 (forEach_throws h l ∅ w)) as (e & w' & Hfor).
    { exists record. split; [exact Hin |]. split; [exact Htaken | apply lookup_empty]. }
    destruct (grouped_rejected h w l) as [[r Hr] | Hr]; [| exact Hr].
    apply grouped_resolved in Hr. congruence.
Qed.

(** What grouping leaves of the world: a grouping that returns leaves it
    as it was; one that throws may have added to the total of the
    inherited object a record was filed under. *)
Lemma groupByCategory_world h l w :
  let w' := snd (IndexedDBWrapper.groupByCategory h l w) in
  (forall res, grouped h w l = Resolved res -> w' = w)
  /\ (w' = w
      \/ grouped h w l = Rejected (Thrown TypeError)
         /\ exists record, record ∈ l /\ categoryOf h record ∈ inherited
              /\ w' = traced w (AddTotalSum (categoryOf h record) (get record "sum"))).
Proof.
  cbn zeta. unfold grouped, IndexedDBWrapper.groupByCategory, bind.
  destruct (IndexedDBWrapper.forEach h l ∅ w) as [[r' | e] w'] eqn:Hfor; cbn.
  - rewrite (forEach_world h l ∅ r' w w' Hfor). auto.
  - destruct (forEach_rejected h l ∅ w e w' Hfor) as [-> Hw].
    split; [discriminate |]. destruct Hw as [-> | Hw]; auto.
Qed.

Lemma groupByCategory_eq h l w res :
  grouped h w l = Resolved res ->
  IndexedDBWrapper.groupByCategory h l w = (Resolved res, w).
Proof.
  intros Hg. rewrite (surjective_pairing (IndexedDBWrapper.groupByCategory h l w)).
  fold (grouped h w l). rewrite Hg.
  rewrite (proj1 (groupByCategory_world h l w) res Hg). reflexivity.
Qed.

Lemma length_zero {A} (l : list A) : (length l =? 0)%nat = true <-> l = [].
Proof. destruct l; cbn; split; congruence. Qed.

Lemma getYearlyReport_opened h storeName year w s :
  opened w storeName s ->
  IndexedDBWrapper.getYearlyReport h storeName year w =
    match Store.getAll s with
    | [] => (Resolved (Text ("No records found for " +:+ ToString h year +:+ ".")),
             listed w storeName)
    | records =>
        IndexedDBWrapper.groupByCategory h
          (List.filter (IndexedDBWrapper.inYear h year) records) (listed w storeName)
    end.
Proof.
  intros Hopen. unfold IndexedDBWrapper.getYearlyReport, bind.
  rewrite (getAll_opened w storeName s Hopen). fold (listed w storeName).
  destruct (Store.getAll s) as [| record records]; reflexivity.
Qed.

Lemma getMonthlyReport_opened h storeName month year w s :
  opened w storeName s ->
  IndexedDBWrapper.getMonthlyReport h storeName month year w =
    match Store.getAll s with
    | [] => (Resolved (Text ("No records found for " +:+ ToString h month +:+ "/"
                             +:+ ToString h year +:+ ".")), listed w storeName)
    | records =>
        match List.filter (IndexedDBWrapper.inMonth h month year) records with
        | [] => (Resolved (Text ("No records found for " +:+ ToString h month +:+ "/"
                                 +:+ ToString h year +:+ ".")), listed w storeName)
        | monthlyRecords =>
            IndexedDBWrapper.groupByCategory h monthlyRecords (listed w storeName)
        end
    end.
Proof.
  intros Hopen. unfold IndexedDBWrapper.getMonthlyReport, bind.
  rewrite (getAll_opened w storeName s Hopen). fold (listed w storeName).
  destruct (Store.getAll s) as [| record records]; [reflexivity |].
  cbn [length Nat.eqb].
  destruct (List.filter _ (record :: records)) as [| m ms]; reflexivity.
Qed.

(** The outcome of a report on an open store. *)
Lemma getYearlyReport_outcome h storeName year w s :
  opened w storeName s ->
  fst (IndexedDBWrapper.getYearlyReport h storeName year w) =
    match Store.getAll s with
    | [] => Resolved (Text ("No records found for " +:+ ToString h year +:+ "."))
    | records =>
        grouped h (listed w storeName) (List.filter (IndexedDBWrapper.inYear h year) records)
    end.
Proof.
  intros Hopen. rewrite (getYearlyReport_opened h storeName year w s Hopen).
  destruct (Store.getAll s); reflexivity.
Qed.

Lemma getMonthlyReport_outcome h storeName month year w s :
  opened w storeName s ->
  fst (IndexedDBWrapper.getMonthlyReport h storeName month year w) =
    match Store.getAll s with
    | [] => Resolved (Text ("No records found for " +:+ ToString h month +:+ "/"
                            +:+ ToString h year +:+ "."))
    | records =>
        match List.filter (IndexedDBWrapper.inMonth h month year) records with
        | [] => Resolved (Text ("No records found for " +:+ ToString h month +:+ "/"
                                +:+ ToString h year +:+ "."))
        | monthlyRecords => grouped h (listed w storeName) monthlyRecords
        end
    end.
Proof.
  intros Hopen. rewrite (getMonthlyReport_opened h storeName month year w s Hopen).
  destruct (Store.getAll s) as [| record records]; [reflexivity |].
  destruct (List.filter _ (record :: records)); reflexivity.
Qed.

(** A report that resolves leaves the world [getAll] leaves. *)
Lemma getYearlyReport_returns h storeName year w s res w' :
  opened w storeName s ->
  IndexedDBWrapper.getYearlyReport h storeName year w = (Resolved res, w') ->
  w' = listed w storeName.
Proof.
  intros Hopen. rewrite (getYearlyReport_opened h storeName year w s Hopen).
  destruct (Store.getAll s) as [| record records]; [intros [= _ <-]; reflexivity |].
  intros Hrun.
  match type of Hrun with
  | IndexedDBWrapper.groupByCategory _ ?l _ = _ =>
      pose proof (proj1 (groupByCategory_world h l (listed w storeName)) res) as Hw
  end.
  unfold grouped in Hw. rewrite Hrun in Hw. cbn in Hw. auto.
Qed.

Lemma getMonthlyReport_returns h storeName month year w s res w' :
  opened w storeName s ->
  IndexedDBWrapper.getMonthlyReport h storeName month year w = (Resolved res, w') ->
  w' = listed w storeName.
Proof.
  intros Hopen. rewrite (getMonthlyReport_opened h storeName month year w s Hopen).
  destruct (Store.getAll s) as [| record records]; [intros [= _ <-]; reflexivity |].
  destruct (List.filter _ (record :: records)) as [| m ms];
    [intros [= _ <-]; reflexivity |].
  intros Hrun.
  match type of Hrun with
  | IndexedDBWrapper.groupByCategory _ ?l _ = _ =>
      pose proof (proj1 (groupByCategory_world h l (listed w storeName)) res) as Hw
  end.
  unfold grouped in Hw. rewrite Hrun in Hw. cbn in Hw. auto.
Qed.

(** A report that cannot list the store is rejected. *)
Lemma getYearlyReport_resolved h storeName year w res w' :
  IndexedDBWrapper.getYearlyReport h storeName year w = (Resolved res, w') ->
  exists s, opened w storeName s.
Proof.
  unfold IndexedDBWrapper.getYearlyReport. unfold bind at 1.
  destruct (IndexedDBWrapper.getAll storeName w) as [[records | r] w1] eqn:Hall;
    [| discriminate].
  intros _. destruct (getAll_resolved _ _ _ _ Hall) as (s & Hs & _). eauto.
Qed.

Lemma getMonthlyReport_resolved h storeName month year w res w' :
  IndexedDBWrapper.getMonthlyReport h storeName month year w = (Resolved res, w') ->
  exists s, opened w storeName s.
Proof.
  unfold IndexedDBWrapper.getMonthlyReport. unfold bind at 1.
  destruct (IndexedDBWrapper.getAll storeName w) as [[records | r] w1] eqn:Hall;
    [| discriminate].
  intros _. destruct (getAll_resolved _ _ _ _ Hall) as (s & Hs & _). eauto.
Qed.

Lemma grouped_nil h w : grouped h w [] = Resolved (Report ∅).
Proof. reflexivity. Qed.

Lemma grouped_not_text h w l msg : grouped h w l <> Resolved (Text msg).
Proof.
  destruct (grouped_rejected h w l) as [[r Hr] | Hr]; rewrite Hr; discriminate.
Qed.

(** ** The calendar *)

Lemma month_range day : 1 <= snd (fst (Calendar.civil day)) <= 12.
Proof.
  unfold Calendar.civil. cbn [fst snd].
  set (z := day + 719468).
  set (era := z / 146097).
  set (doe := z - era * 146097).
  assert (Hdoe : 0 <= doe < 146097).
  { unfold doe, era. pose proof (Z.mod_pos_bound z 146097 ltac:(lia)) as Hm.
    rewrite Z.mod_eq in Hm by lia. lia. }
  clearbody doe. clear z era.
  set (yoe := (doe - doe / 1460 + doe / 36524 - doe / 146096) / 365).
  set (doy := doe - (365 * yoe + yoe / 4 - yoe / 100)).
  assert (Hdoy : 0 <= doy <= 365).
  { unfold doy, yoe. Z.div_mod_to_equations; lia. }
  clearbody doy.
  set (mp := (5 * doy + 2) / 153).
  assert (0 <= mp <= 11) by (unfold mp; Z.div_mod_to_equations; lia).
  destruct (mp <? 10) eqn:E; lia.
Qed.

Lemma MonthFromTime_range t : 0 <= Calendar.MonthFromTime t <= 11.
Proof.
  unfold Calendar.MonthFromTime. pose proof (month_range (Calendar.Day t)). lia.
Qed.

(** Adding one to a month number is exact. *)
Lemma month_plus_one m :
  0 <= m <= 11 -> Number.add (Number.of_Z m) Number.one = Number.of_Z (m + 1).
Proof.
  intros Hm.
  assert (Hcases : m = 0 \/ m = 1 \/ m = 2 \/ m = 3 \/ m = 4 \/ m = 5 \/ m = 6
                   \/ m = 7 \/ m = 8 \/ m = 9 \/ m = 10 \/ m = 11) by lia.
  repeat (destruct Hcases as [-> | Hcases]; [vm_compute; reflexivity |]).
  subst m. vm_compute. reflexivity.
Qed.

(** Local time is the same day as UTC or the day before or after; from
    midnight UTC it is the same day or the day before. *)
Lemma Day_of_midnight day o :
  - Calendar.msPerDay < o < Calendar.msPerDay ->
  Calendar.Day (day * Calendar.msPerDay + o) = day - 1
  \/ Calendar.Day (day * Calendar.msPerDay + o) = day.
Proof.
  unfold Calendar.Day, Calendar.msPerDay. intros Ho.
  Z.div_mod_to_equations. lia.
Qed.

Lemma inYear_iff h year record :
  IndexedDBWrapper.inYear h year record = true <-> in_year_of h year record.
Proof.
  unfold IndexedDBWrapper.inYear, in_year_of, is_integer, getFullYear, strict_eq_num.
  destruct (Date_new h (get record "date")) as [t |].
  - destruct year; try (split; [discriminate | intros (t' & _ & n' & [=] & _)]).
    split.
    + intros Heq. exists t. split; [reflexivity |]. eauto.
    + intros (t' & [= <-] & n' & [= <-] & Heq). exact Heq.
  - split; [| intros (t' & [=] & _)].
    destruct year; discriminate.
Qed.

Lemma inMonth_iff h month year record :
  IndexedDBWrapper.inMonth h month year record = true <-> in_month_of h month year record.
Proof.
  unfold IndexedDBWrapper.inMonth. rewrite andb_true_iff.
  fold (IndexedDBWrapper.inYear h year record). rewrite inYear_iff.
  unfold in_year_of, in_month_of, is_integer, getMonth, strict_eq_num.
  destruct (Date_new h (get record "date")) as [t |].
  - rewrite month_plus_one by apply MonthFromTime_range.
    split.
    + intros [Hm (t' & [= <-] & Hy)]. exists t. split; [reflexivity |].
      split; [| exact Hy].
      destruct month; try discriminate. eauto.
    + intros (t' & [= <-] & (n & -> & Hm) & Hy). split; [exact Hm |]. eauto.
  - split; [intros [_ (t' & [=] & _)] | intros (t' & [=] & _)].
Qed.

(** The local year and month of a record dated at midnight UTC of a day
    are those of that day or of the day before. *)
Lemma dated_local h record y m d :
  zone_bounded h ->
  dated h record y m d ->
  exists day,
    (day = Calendar.dayOfCivil y m d - 1 \/ day = Calendar.dayOfCivil y m d)
    /\ getFullYear h (Date_new h (get record "date"))
       = Number.of_Z (fst (fst (Calendar.civil day)))
    /\ getMonth h (Date_new h (get record "date"))
       = Number.of_Z (snd (fst (Calendar.civil day)) - 1).
Proof.
  intros Hzone Hdated. unfold dated in Hdated. rewrite Hdated.
  unfold getFullYear, getMonth, LocalTime, Calendar.YearFromTime, Calendar.MonthFromTime.
  set (t := Calendar.dayOfCivil y m d * Calendar.msPerDay).
  exists (Calendar.Day (t + LocalTZA h t)).
  split; [| split; reflexivity].
  apply Day_of_midnight, Hzone.
Qed.

Lemma filter_none {A} (f : A -> bool) l :
  (forall x, x ∈ l -> f x = false) -> List.filter f l = [].
Proof.
  induction l as [| a l IH]; cbn; intros Hn; [reflexivity |].
  rewrite (Hn a (list_elem_of_here _ _)). apply IH.
  intros x Hx. apply Hn, list_elem_of_further, Hx.
Qed.

Lemma filter_all {A} (f : A -> bool) l :
  (forall x, x ∈ l -> f x = true) -> List.filter f l = l.
Proof.
  induction l as [| a l IH]; cbn; intros Hn; [reflexivity |].
  rewrite (Hn a (list_elem_of_here _ _)). f_equal. apply IH.
  intros x Hx. apply Hn, list_elem_of_further, Hx.
Qed.

(** Records of one category, which no object inherits, make a report with
    that one key. *)
Lemma grouped_single_category h w l k :
  l <> [] ->
  (forall record, record ∈ l -> categoryOf h record = k) ->
  ~ taken h w k ->
  grouped h w l = Resolved (Report {[ k := Group (total h l) l ]}).
Proof.
  intros Hne Hcat Hk.
  destruct (grouped_rejected h w l) as [[r Hr] | Hr].
  - rewrite Hr. do 2 f_equal. apply map_eq. intros k'.
    apply grouped_resolved in Hr.
    rewrite (forEach_summary h l r k' w w Hr). unfold summary, members.
    destruct (decide (k' = k)) as [-> | Hk'].
    + rewrite lookup_singleton_eq. rewrite filter_all.
      * destruct l; [congruence | reflexivity].
      * intros x Hx. apply bool_decide_eq_true, Hcat, Hx.
    + rewrite lookup_singleton_ne by congruence. rewrite filter_none; [reflexivity |].
      intros x Hx. apply bool_decide_eq_false. rewrite (Hcat x Hx). congruence.
  - apply grouped_throws in Hr as (x & Hx & Hin).
    rewrite (Hcat x Hx) in Hin. contradiction.
Qed.

Lemma food_not_inherited : "food" ∉ inherited.
Proof. apply (bool_decide_eq_false_1 ("food" ∈ inherited)). vm_compute. reflexivity. Qed.

Lemma food_not_taken h w : ~ taken h w "food".
Proof. intros [Hin | [Hname _]]; [exact (food_not_inherited Hin) | discriminate]. Qed.

Lemma entry_category h record y m d sum category :
  entry h record y m d sum category -> categoryOf h record = category.
Proof. intros (_ & _ & Hc). unfold categoryOf. rewrite Hc. reflexivity. Qed.

(** ** The yearly report *)

(** C2. [getYearlyReport] resolves to the "no records" text only when the
    store is empty, and then the text names the year; on an open store
    that is empty it does resolve to that text; on an open store that
    holds records, none of which falls in the year asked for, it resolves
    to a report without any category, not to a text. *)
Theorem yearly_message_only_for_empty_store h storeName year w res w' :
  IndexedDBWrapper.getYearlyReport h storeName year w = (res, w') ->
  (forall msg, res = Resolved (Text msg) ->
     exists s, opened w storeName s /\ Store.records s = []
               /\ msg = "No records found for " +:+ ToString h year +:+ ".")
  /\ (forall s, opened w storeName s -> Store.records s = [] ->
        res = Resolved (Text ("No records found for " +:+ ToString h year +:+ ".")))
  /\ (forall s, opened w storeName s -> Store.records s <> [] ->
        (forall record, record ∈ Store.getAll s -> ~ in_year_of h year record) ->
        res = Resolved (Report ∅)).
Proof.
  intros Hrun.
  assert (Hres : fst (IndexedDBWrapper.getYearlyReport h storeName year w) = res)
    by (rewrite Hrun; reflexivity).
  split; [| split].
  - intros msg ->.
    destruct (getYearlyReport_resolved _ _ _ _ _ _ Hrun) as [s Hopen].
    rewrite (getYearlyReport_outcome h storeName year w s Hopen) in Hres.
    exists s. split; [exact Hopen |].
    unfold Store.getAll in Hres.
    destruct (Store.records s) as [| kv l]; cbn [map] in Hres.
    + injection Hres as <-. auto.
    + destruct (grouped_not_text _ _ _ _ Hres).
  - intros s Hopen Hempty.
    rewrite (getYearlyReport_outcome h storeName year w s Hopen) in Hres.
    unfold Store.getAll in Hres. rewrite Hempty in Hres. cbn in Hres. congruence.
  - intros s Hopen Hne Hnone.
    rewrite (getYearlyReport_outcome h storeName year w s Hopen) in Hres.
    destruct (Store.getAll s) as [| record records] eqn:Hall.
    + unfold Store.getAll in Hall. apply map_eq_nil in Hall. contradiction.
    + rewrite filter_none in Hres.
      * rewrite grouped_nil in Hres. congruence.
      * intros x Hx. apply not_true_is_false. rewrite inYear_iff. apply Hnone, Hx.
Qed.

Lemma zone_bounded_utc : zone_bounded utc.
Proof. intros t. cbn. unfold Calendar.msPerDay. lia. Qed.

Lemma yearly_message_only_for_empty_store_witness :
  fst (IndexedDBWrapper.getYearlyReport utc "costs" (VNum (Number.of_Z 1999)) clientWorld)
    = Resolved (Report ∅)
  /\ fst (IndexedDBWrapper.getYearlyReport utc "costs" (VNum (Number.of_Z 1999))
            (worldOf emptyStore ∅))
     = Resolved (Text ("No records found for "
                       +:+ ToString utc (VNum (Number.of_Z 1999)) +:+ ".")).
Proof.
  split.
  - refine (proj2 (proj2 (yearly_message_only_for_empty_store utc "costs"
                             (VNum (Number.of_Z 1999)) clientWorld _ _
                             (surjective_pairing _))) exampleStore _ _ _).
    + apply worldOf_opened.
    + discriminate.
    + intros record Hin. rewrite <- inYear_iff.
      cbn in Hin.
      repeat (apply elem_of_cons in Hin as [-> | Hin]; [vm_compute; discriminate |]).
      inversion Hin.
  - refine (proj1 (proj2 (yearly_message_only_for_empty_store utc "costs"
                             (VNum (Number.of_Z 1999)) (worldOf emptyStore ∅) _ _
                             (surjective_pairing _))) emptyStore _ _).
    + apply worldOf_opened.
    + reflexivity.
Defined.

(** C5. On a store that lists exactly three records, dated 2023-01-05,
    2023-06-01 and 2022-01-01, with sums 10, 20 and 5, all of category
    "food", [getYearlyReport] for 2023 resolves to the report whose one
    key is "food", with total 30 and with the two records of 2023 as
    items, in the order of the store. *)
Theorem yearly_report_of_example h storeName w s r1 r2 r3 :
  zone_bounded h ->
  opened w storeName s ->
  Store.getAll s = [r1; r2; r3] ->
  entry h r1 2023 1 5 10 "food" ->
  entry h r2 2023 6 1 20 "food" ->
  entry h r3 2022 1 1 5 "food" ->
  exists w',
    IndexedDBWrapper.getYearlyReport h storeName (VNum (Number.of_Z 2023)) w =
      (Resolved (Report {[ "food" := Group (VNum (Number.of_Z 30)) [r1; r2] ]}), w').
Proof.
  intros Hzone Hopen Hall H1 H2 H3.
  rewrite (getYearlyReport_opened h storeName _ w s Hopen), Hall.
  assert (F1 : IndexedDBWrapper.inYear h (VNum (Number.of_Z 2023)) r1 = true).
  { destruct H1 as (Hd & _).
    destruct (dated_local h r1 _ _ _ Hzone Hd) as (day & [-> | ->] & Hy & _);
      unfold IndexedDBWrapper.inYear; rewrite Hy; vm_compute; reflexivity. }
  assert (F2 : IndexedDBWrapper.inYear h (VNum (Number.of_Z 2023)) r2 = true).
  { destruct H2 as (Hd & _).
    destruct (dated_local h r2 _ _ _ Hzone Hd) as (day & [-> | ->] & Hy & _);
      unfold IndexedDBWrapper.inYear; rewrite Hy; vm_compute; reflexivity. }
  assert (F3 : IndexedDBWrapper.inYear h (VNum (Number.of_Z 2023)) r3 = false).
  { destruct H3 as (Hd & _).
    destruct (dated_local h r3 _ _ _ Hzone Hd) as (day & [-> | ->] & Hy & _);
      unfold IndexedDBWrapper.inYear; rewrite Hy; vm_compute; reflexivity. }
  cbn [List.filter]. rewrite F1, F2, F3.
  exists (listed w storeName). apply groupByCategory_eq.
  rewrite (grouped_single_category h (listed w storeName) [r1; r2] "food").
  - assert (Ht : total h [r1; r2] = VNum (Number.of_Z 30)).
    { destruct H1 as (_ & Hs1 & _), H2 as (_ & Hs2 & _).
      unfold total. cbn [fold_left]. rewrite Hs1, Hs2. vm_compute. reflexivity. }
    rewrite Ht. reflexivity.
  - discriminate.
  - intros record Hin.
    apply elem_of_cons in Hin as [-> | Hin]; [exact (entry_category _ _ _ _ _ _ _ H1) |].
    apply list_elem_of_singleton in Hin as ->. exact (entry_category _ _ _ _ _ _ _ H2).
  - apply food_not_taken.
Qed.

Lemma exampleStore_entries :
  entry utc (withId 1 jan2023) 2023 1 5 10 "food"
  /\ entry utc (withId 2 jun2023) 2023 6 1 20 "food"
  /\ entry utc (withId 3 jan2022) 2022 1 1 5 "food".
Proof. repeat split; vm_compute; reflexivity. Qed.

Lemma yearly_report_of_example_witness :
  exists w',
    IndexedDBWrapper.getYearlyReport utc "costs" (VNum (Number.of_Z 2023)) clientWorld =
      (Resolved (Report {[ "food" := Group (VNum (Number.of_Z 30))
                                        [withId 1 jan2023; withId 2 jun2023] ]}), w').
Proof.
  apply (yearly_report_of_example utc "costs" clientWorld exampleStore
           (withId 1 jan2023) (withId 2 jun2023) (withId 3 jan2022)).
  - exact zone_bounded_utc.
  - apply worldOf_opened.
  - reflexivity.
  - exact (proj1 exampleStore_entries).
  - exact (proj1 (proj2 exampleStore_entries)).
  - exact (proj2 (proj2 exampleStore_entries)).
Defined.

(** ** The monthly report *)

(** The "no records" text of [getMonthlyReport]: on an open store the call
    resolves to it exactly when the store is empty or no record falls in
    the month and year asked for. *)
Lemma monthly_message_policy h storeName month year w s :
  opened w storeName s ->
  fst (IndexedDBWrapper.getMonthlyReport h storeName month year w)
    = Resolved (Text ("No records found for " +:+ ToString h month +:+ "/"
                      +:+ ToString h year +:+ "."))
  <-> (Store.records s = []
       \/ forall record, record ∈ Store.getAll s -> ~ in_month_of h month year record).
Proof.
  intros Hopen. rewrite (getMonthlyReport_outcome h storeName month year w s Hopen).
  unfold Store.getAll at 1.
  destruct (Store.records s) as [| kv l] eqn:Hrec; cbn [map].
  { split; auto. }
  change (snd kv :: map snd l) with (map snd (kv :: l)). rewrite <- Hrec.
  fold (Store.getAll s).
  destruct (List.filter _ (Store.getAll s)) as [| m ms] eqn:Hf.
  - split; [intros _ | reflexivity]. right. intros record Hin Hm.
    apply inMonth_iff in Hm.
    assert (Hx : In record (List.filter (IndexedDBWrapper.inMonth h month year)
                              (Store.getAll s))).
    { apply filter_In. split; [apply list_elem_of_In, Hin | exact Hm]. }
    rewrite Hf in Hx. destruct Hx.
  - split.
    + intros Hg. destruct (grouped_not_text _ _ _ _ Hg).
    + intros [Hnil | Hnone]; [congruence |]. exfalso.
      assert (Hx : In m (List.filter (IndexedDBWrapper.inMonth h month year)
                           (Store.getAll s))) by (rewrite Hf; left; reflexivity).
      apply filter_In in Hx as [Hin Hm].
      apply (Hnone m); [apply list_elem_of_In, Hin | apply inMonth_iff, Hm].
Qed.

(** C6. When [getMonthlyReport] resolves to a report, the records among
    its items are exactly the records of the store whose date falls, in
    local time, in the month given, months counted from 1, of the year
    given, and every key maps to the total and the records of its
    category among them, in the order of the store.  On the three records
    of the example, the report for month 1 of 2023 has the one key "food",
    with total 10 and the record of January 2023 as its only item. *)
Theorem monthly_report_selects_month_and_year h storeName w s :
  opened w storeName s ->
  (forall month year r w',
     IndexedDBWrapper.getMonthlyReport h storeName month year w
       = (Resolved (Report r), w') ->
     (forall record,
        (exists k g, r !! k = Some g /\ record ∈ items g)
        <-> (record ∈ Store.getAll s /\ in_month_of h month year record))
     /\ (forall k,
           r !! k = summary h (List.filter (IndexedDBWrapper.inMonth h month year)
                                 (Store.getAll s)) k))
  /\ (zone_bounded h ->
      forall r1 r2 r3,
        Store.getAll s = [r1; r2; r3] ->
        entry h r1 2023 1 5 10 "food" ->
        entry h r2 2023 6 1 20 "food" ->
        entry h r3 2022 1 1 5 "food" ->
        exists w',
          IndexedDBWrapper.getMonthlyReport h storeName
            (VNum (Number.of_Z 1)) (VNum (Number.of_Z 2023)) w =
            (Resolved (Report {[ "food" := Group (VNum (Number.of_Z 10)) [r1] ]}), w')).
Proof.
  intros Hopen. split.
  - intros month year r w' Hrun.
    assert (Hres : fst (IndexedDBWrapper.getMonthlyReport h storeName month year w)
                   = Resolved (Report r)) by (rewrite Hrun; reflexivity).
    rewrite (getMonthlyReport_outcome h storeName month year w s Hopen) in Hres.
    assert (Hg : grouped h (listed w storeName)
                   (List.filter (IndexedDBWrapper.inMonth h month year) (Store.getAll s))
                 = Resolved (Report r)).
    { destruct (Store.getAll s) as [| x xs]; [discriminate Hres |].
      destruct (List.filter _ (x :: xs)) as [| m ms]; [discriminate Hres |].
      exact Hres. }
    clear Hrun Hres.
    set (l := List.filter (IndexedDBWrapper.inMonth h month year) (Store.getAll s)) in *.
    assert (Hsum : forall k, r !! k = summary h l k).
    { apply grouped_resolved in Hg. intros k. apply (forEach_summary h l r k _ _ Hg). }
    split; [| exact Hsum].
    assert (Hl : forall record, record ∈ l <->
                 record ∈ Store.getAll s /\ in_month_of h month year record).
    { intros record. unfold l. rewrite !list_elem_of_In, filter_In, inMonth_iff.
      reflexivity. }
    intros record. rewrite <- Hl. split.
    + intros (k & g & Hk & Hin). rewrite Hsum in Hk. unfold summary in Hk.
      destruct (members h k l) as [| m ms] eqn:Hm; [discriminate |].
      injection Hk as <-. cbn [items] in Hin. rewrite <- Hm in Hin.
      unfold members in Hin. apply list_elem_of_In, filter_In in Hin as [Hin _].
      apply list_elem_of_In, Hin.
    + intros Hin. exists (categoryOf h record).
      assert (Hmem : record ∈ members h (categoryOf h record) l).
      { unfold members. apply list_elem_of_In, filter_In.
        split; [apply list_elem_of_In, Hin | apply bool_decide_eq_true; reflexivity]. }
      rewrite Hsum. unfold summary.
      destruct (members h (categoryOf h record) l) as [| m ms]; [inversion Hmem |].
      eexists. split; [reflexivity | exact Hmem].
  - intros Hzone r1 r2 r3 Hall H1 H2 H3.
    rewrite (getMonthlyReport_opened h storeName _ _ w s Hopen), Hall.
    assert (F1 : IndexedDBWrapper.inMonth h (VNum (Number.of_Z 1))
                   (VNum (Number.of_Z 2023)) r1 = true).
    { destruct H1 as (Hd & _).
      destruct (dated_local h r1 _ _ _ Hzone Hd) as (day & [-> | ->] & Hy & Hm);
        unfold IndexedDBWrapper.inMonth; rewrite Hy, Hm; vm_compute; reflexivity. }
    assert (F2 : IndexedDBWrapper.inMonth h (VNum (Number.of_Z 1))
                   (VNum (Number.of_Z 2023)) r2 = false).
    { destruct H2 as (Hd & _).
      destruct (dated_local h r2 _ _ _ Hzone Hd) as (day & [-> | ->] & Hy & Hm);
        unfold IndexedDBWrapper.inMonth; rewrite Hy, Hm; vm_compute; reflexivity. }
    assert (F3 : IndexedDBWrapper.inMonth h (VNum (Number.of_Z 1))
                   (VNum (Number.of_Z 2023)) r3 = false).
    { destruct H3 as (Hd & _).
      destruct (dated_local h r3 _ _ _ Hzone Hd) as (day & [-> | ->] & Hy & Hm);
        unfold IndexedDBWrapper.inMonth; rewrite Hy, Hm; vm_compute; reflexivity. }
    cbn [List.filter]. rewrite F1, F2, F3.
    exists (listed w storeName). apply groupByCategory_eq.
    rewrite (grouped_single_category h (listed w storeName) [r1] "food").
    + assert (Ht : total h [r1] = VNum (Number.of_Z 10)).
      { destruct H1 as (_ & Hs1 & _).
        unfold total. cbn [fold_left]. rewrite Hs1. vm_compute. reflexivity. }
      rewrite Ht. reflexivity.
    + discriminate.
    + intros record Hin. apply list_elem_of_singleton in Hin as ->.
      exact (entry_category _ _ _ _ _ _ _ H1).
    + apply food_not_taken.
Qed.

Lemma monthly_report_selects_witness :
  exists w',
    IndexedDBWrapper.getMonthlyReport utc "costs"
      (VNum (Number.of_Z 1)) (VNum (Number.of_Z 2023)) clientWorld =
      (Resolved (Report {[ "food" := Group (VNum (Number.of_Z 10)) [withId 1 jan2023] ]}),
       w').
Proof.
  refine (proj2 (monthly_report_selects_month_and_year utc "costs" clientWorld
                   exampleStore (worldOf_opened _ _))
            zone_bounded_utc (withId 1 jan2023) (withId 2 jun2023) (withId 3 jan2022)
            eq_refl _ _ _).
  - exact (proj1 exampleStore_entries).
  - exact (proj1 (proj2 exampleStore_entries)).
  - exact (proj2 (proj2 exampleStore_entries)).
Defined.

(** A record of the month whose category is the name of a property every
    object inherits makes the report throw: the callback finds the
    inherited property, skips the creation of a group, and reads [items]
    on a value that has none. *)
Lemma monthly_report_throws h storeName month year w s record :
  opened w storeName s ->
  record ∈ Store.getAll s ->
  in_month_of h month year record ->
  categoryOf h record ∈ inherited ->
  fst (IndexedDBWrapper.getMonthlyReport h storeName month year w)
    = Rejected (Thrown TypeError).
Proof.
  intros Hopen Hin Hm Hcat.
  rewrite (getMonthlyReport_outcome h storeName month year w s Hopen).
  assert (Hl : record ∈ List.filter (IndexedDBWrapper.inMonth h month year)
                          (Store.getAll s)).
  { apply list_elem_of_In, filter_In.
    split; [apply list_elem_of_In, Hin | apply inMonth_iff, Hm]. }
  assert (Hthrow : grouped h (listed w storeName)
                     (List.filter (IndexedDBWrapper.inMonth h month year) (Store.getAll s))
                   = Rejected (Thrown TypeError)).
  { apply grouped_throws. exists record. split; [exact Hl | left; exact Hcat]. }
  destruct (Store.getAll s) as [| x xs]; [inversion Hin |].
  destruct (List.filter _ (x :: xs)) as [| m ms]; [inversion Hl | exact Hthrow].
Qed.

(** C3, at the input where the code leaves it.  The record dated
    2023-01-05 with sum 10 and category "constructor" passes the guards of
    [addOrUpdate] and is stored; the store is then not empty and the record
    falls in month 1 of 2023, yet [getMonthlyReport] for that month neither
    resolves to the text nor to a report: it is rejected with the TypeError
    raised while grouping. *)
Theorem monthly_report_rejects_inherited_category :
  exists w1 w2 s,
    IndexedDBWrapper.addOrUpdate utc "costs" 1%positive (worldOf emptyStore clash)
      = (Resolved IndexedDBWrapper.added, w1)
    /\ store_of w1 "costs" = Some s
    /\ Store.getAll s = [withId 1 clash]
    /\ in_month_of utc (VNum (Number.of_Z 1)) (VNum (Number.of_Z 2023)) (withId 1 clash)
    /\ IndexedDBWrapper.getMonthlyReport utc "costs"
         (VNum (Number.of_Z 1)) (VNum (Number.of_Z 2023)) w1
       = (Rejected (Thrown TypeError), w2).
Proof.
  pose proof (worldOf_opened emptyStore clash) as Hopen.
  rewrite (addOrUpdate_stored utc "costs" 1%positive _ clash emptyStore
             (lookup_singleton_eq _ _) eq_refl Hopen ltac:(vm_compute; discriminate)).
  set (w1 := {| heap := _; db := _; log := _ |}).
  assert (Hstore : store_of w1 "costs" = Some (stored emptyStore clash)).
  { apply (store_of_commit _ _ _ _ emptyStore), store_of_opened, Hopen. }
  assert (Hmonth : in_month_of utc (VNum (Number.of_Z 1)) (VNum (Number.of_Z 2023))
                     (withId 1 clash)).
  { apply inMonth_iff. vm_compute. reflexivity. }
  exists w1, (snd (IndexedDBWrapper.getMonthlyReport utc "costs"
                     (VNum (Number.of_Z 1)) (VNum (Number.of_Z 2023)) w1)),
    (stored emptyStore clash).
  split; [reflexivity |]. split; [exact Hstore |].
  split; [vm_compute; reflexivity |]. split; [exact Hmonth |].
  rewrite (surjective_pairing (IndexedDBWrapper.getMonthlyReport _ _ _ _ w1)) at 1.
  apply (f_equal (fun r => (r, _))).
  apply (monthly_report_throws utc "costs" _ _ w1 (stored emptyStore clash) (withId 1 clash)).
  - apply store_of_opened, Hstore.
  - replace (Store.getAll (stored emptyStore clash)) with [withId 1 clash]
      by (vm_compute; reflexivity).
    apply list_elem_of_here.
  - exact Hmonth.
  - apply (bool_decide_eq_true_1 (categoryOf utc (withId 1 clash) ∈ inherited)).
    vm_compute. reflexivity.
Qed.

(** ** The calendar against ECMA-262 *)

Ltac era_of_day day doe era :=
  set (z := day + 719468);
  set (era := z / 146097);
  set (doe := z - era * 146097);
  assert (Hdoe : 0 <= doe < 146097) by
    (unfold doe, era; pose proof (Z.mod_pos_bound z 146097 ltac:(lia)) as Hm;
     rewrite Z.mod_eq in Hm by lia; lia);
  assert (Hday : day = doe + era * 146097 - 719468) by (unfold doe, z; lia);
  clearbody doe; clearbody era; clear z; subst day.

Ltac year_of_era doe yoe doy :=
  set (yoe := (doe - doe / 1460 + doe / 36524 - doe / 146096) / 365);
  set (doy := doe - (365 * yoe + yoe / 4 - yoe / 100));
  assert (Hyoe : 0 <= yoe <= 399) by (unfold yoe; Z.div_mod_to_equations; lia);
  assert (Hdoy : 0 <= doy <= 365) by (unfold doy, yoe; Z.div_mod_to_equations; lia);
  assert (Hleap : doy = 365 ->
                  (yoe + 1) mod 4 = 0 /\ ((yoe + 1) mod 100 <> 0 \/ yoe = 399))
    by (unfold doy, yoe; Z.div_mod_to_equations; lia);
  assert (Hdoe2 : doe = doy + (365 * yoe + yoe / 4 - yoe / 100)) by (unfold doy; lia);
  clearbody doy; clearbody yoe; subst doe.

(** The year of a day is the year ECMA-262 defines: the one whose first day
    is the last first day of a year not after it. *)
Lemma civil_year day :
  Calendar.DayFromYear (fst (fst (Calendar.civil day))) <= day
  < Calendar.DayFromYear (fst (fst (Calendar.civil day)) + 1).
Proof.
  unfold Calendar.civil, Calendar.DayFromYear. cbn [fst snd].
  era_of_day day doe era. year_of_era doe yoe doy.
  set (mp := (5 * doy + 2) / 153).
  assert (Hmp : 0 <= mp <= 11) by (unfold mp; Z.div_mod_to_equations; lia).
  assert (Hmp2 : mp < 10 <-> doy < 306) by (unfold mp; Z.div_mod_to_equations; lia).
  clearbody mp.
  destruct (mp <? 10) eqn:E1.
  - apply Z.ltb_lt in E1.
    replace (mp + 3 <=? 2) with false by (symmetry; apply Z.leb_gt; lia).
    Z.div_mod_to_equations; lia.
  - apply Z.ltb_ge in E1.
    replace (mp - 9 <=? 2) with true by (symmetry; apply Z.leb_le; lia).
    Z.div_mod_to_equations; lia.
Qed.

Lemma YearFromTime_spec t :
  Calendar.DayFromYear (Calendar.YearFromTime t) <= Calendar.Day t
  < Calendar.DayFromYear (Calendar.YearFromTime t + 1).
Proof. apply civil_year. Qed.

Lemma isLeap_cases y :
  (Calendar.isLeap y = true /\ (y mod 4 = 0 /\ y mod 100 <> 0 \/ y mod 400 = 0))
  \/ (Calendar.isLeap y = false /\ (y mod 4 <> 0 \/ y mod 100 = 0) /\ y mod 400 <> 0).
Proof.
  unfold Calendar.isLeap.
  destruct (Z.eqb_spec (y mod 4) 0), (Z.eqb_spec (y mod 100) 0),
    (Z.eqb_spec (y mod 400) 0); cbn; intuition lia.
Qed.

(** The month of a day is the month of the table of ECMA-262, looked up at
    the day within its year. *)
Lemma civil_month day :
  snd (fst (Calendar.civil day)) - 1 =
  Calendar.MonthOfYearDay
    (if Calendar.isLeap (fst (fst (Calendar.civil day))) then 1 else 0)
    (day - Calendar.DayFromYear (fst (fst (Calendar.civil day)))).
Proof.
  destruct (isLeap_cases (fst (fst (Calendar.civil day)))) as [[-> Hl] | [-> Hl]];
    revert Hl; unfold Calendar.civil, Calendar.DayFromYear; cbn [fst snd];
    era_of_day day doe era; year_of_era doe yoe doy;
    set (mp := (5 * doy + 2) / 153);
    (assert (Hmp : 0 <= mp <= 11) by (unfold mp; Z.div_mod_to_equations; lia));
    (assert (Hmpd : 153 * mp <= 5 * doy + 2 < 153 * mp + 153)
      by (unfold mp; Z.div_mod_to_equations; lia));
    clearbody mp; unfold Calendar.MonthOfYearDay;
    repeat match goal with
           | |- context [?a <? ?b] => destruct (Z.ltb_spec a b)
           | |- context [?a <=? ?b] => destruct (Z.leb_spec a b)
           end;
    intros Hl; try lia; Z.div_mod_to_equations; lia.
Qed.

Lemma MonthFromTime_spec t :
  Calendar.MonthFromTime t =
  Calendar.MonthOfYearDay
    (if Calendar.isLeap (Calendar.YearFromTime t) then 1 else 0)
    (Calendar.Day t - Calendar.DayFromYear (Calendar.YearFromTime t)).
Proof. apply civil_month. Qed.

Example civil_2023_01_05 : Calendar.civil 19362 = (2023, 1, 5).
Proof. reflexivity. Qed.

Example dayOfCivil_2023_01_05 : Calendar.dayOfCivil 2023 1 5 = 19362.
Proof. reflexivity. Qed.

Example civil_epoch_eve : Calendar.civil (-1) = (1969, 12, 31).
Proof. reflexivity. Qed.

(** ** Generated keys *)

Lemma digits2_size p : digits2_pos p = Pos.size p.
Proof. induction p; cbn; congruence. Qed.

Lemma digits2_iter_xO p k :
  digits2_pos (Pos.iter xO p k) = (digits2_pos p + k)%positive.
Proof.
  induction k using Pos.peano_ind.
  - cbn. lia.
  - rewrite Pos.iter_succ. cbn. rewrite IHk. lia.
Qed.

Lemma iter_xO_mul p k : Pos.iter xO p k = (p * 2 ^ k)%positive.
Proof.
  induction k using Pos.peano_ind.
  - cbn. lia.
  - rewrite Pos.iter_succ, IHk, Pos.pow_succ_r. lia.
Qed.

(** The double of a positive integer of at most 53 binary digits: the
    integer shifted to 53 digits, with the exponent that undoes the
    shift. *)
Lemma of_Z_small p k :
  Zpos (Pos.size p) + Z.of_N k = 53 ->
  Number.of_Z (Zpos p) = S754_finite false (Pos.shiftl p k) (- Z.of_N k).
Proof.
  intros Hsize. unfold Number.of_Z, Number.prec, Number.emax, binary_normalize, binary_round.
  rewrite digits2_size.
  assert (Hfexp : fexp 53 1024 (Zpos (Pos.size p) + 0) = - Z.of_N k).
  { unfold fexp, emin. lia. }
  rewrite Hfexp. unfold shl_align.
  replace (- Z.of_N k - 0) with (- Z.of_N k) by lia.
  assert (Haux : forall m, Zpos (Pos.size m) = 53 ->
            binary_round_aux 53 1024 false (Zpos m) (- Z.of_N k) loc_Exact
            = S754_finite false m (- Z.of_N k)).
  { intros m Hm. unfold binary_round_aux, shr_fexp. cbn [Zdigits2 shr_record_of_loc].
    rewrite digits2_size, Hm.
    assert (Hf : fexp 53 1024 (53 + - Z.of_N k) - - Z.of_N k = 0).
    { unfold fexp, emin. lia. }
    rewrite Hf. cbn [shr shr_m loc_of_shr_record round_nearest_even Zdigits2].
    rewrite digits2_size, Hm, Hf. cbn [shr shr_m].
    destruct (Z.leb_spec (- Z.of_N k) (1024 - 53)); [reflexivity | lia]. }
  destruct k as [| k]; cbn [Z.of_N Z.opp Pos.shiftl] in *.
  - apply (Haux p). lia.
  - apply (Haux (Pos.iter xO p k)).
    rewrite <- digits2_size, digits2_iter_xO, digits2_size. lia.
Qed.

Lemma size_bounds p :
  2 ^ (Zpos (Pos.size p) - 1) <= Zpos p < 2 ^ Zpos (Pos.size p).
Proof.
  pose proof (Pos.size_gt p) as Hgt. pose proof (Pos.size_le p) as Hle.
  apply Pos2Z.pos_lt_pos in Hgt. apply Pos2Z.pos_le_pos in Hle.
  rewrite Pos2Z.inj_pow in Hgt, Hle.
  replace (Zpos (Pos.size p)) with (Z.succ (Zpos (Pos.size p) - 1)) in Hle at 1 by lia.
  rewrite Z.pow_succ_r in Hle by lia. lia.
Qed.

Lemma size_mono a b : (a < b)%positive -> Zpos (Pos.size a) <= Zpos (Pos.size b).
Proof.
  intros Hab.
  destruct (Z.le_gt_cases (Zpos (Pos.size a)) (Zpos (Pos.size b))) as [H | H];
    [exact H | exfalso].
  pose proof (size_bounds a) as Ha. pose proof (size_bounds b) as Hb.
  assert (Hle : 2 ^ Zpos (Pos.size b) <= 2 ^ (Zpos (Pos.size a) - 1))
    by (apply Z.pow_le_mono_r; lia).
  lia.
Qed.

Lemma size_small p : Zpos p < Store.maxGenerated -> Zpos (Pos.size p) <= 53.
Proof.
  unfold Store.maxGenerated. change 9007199254740992 with (2 ^ 53). intros Hp.
  destruct (Z.le_gt_cases (Zpos (Pos.size p)) 53) as [H | H]; [exact H | exfalso].
  pose proof (size_bounds p) as Hb.
  assert (Hpow : 2 ^ 53 <= 2 ^ (Zpos (Pos.size p) - 1)) by (apply Z.pow_le_mono_r; lia).
  lia.
Qed.

Lemma shiftl_mul p k : Zpos (Pos.shiftl p k) = Zpos p * 2 ^ Z.of_N k.
Proof.
  destruct k as [| k].
  { change (Pos.shiftl p 0) with p. change (Z.of_N 0) with 0.
    rewrite Z.pow_0_r. lia. }
  change (Pos.shiftl p (Npos k)) with (Pos.iter xO p k).
  change (Z.of_N (Npos k)) with (Zpos k).
  rewrite iter_xO_mul. rewrite Pos2Z.inj_mul, Pos2Z.inj_pow. reflexivity.
Qed.

(** The keys a generator produces grow: [of_Z] is strictly increasing on
    the integers from 1 to 2^53. *)
Lemma of_Z_lt a b :
  0 < a < b -> b <= Store.maxGenerated ->
  SFcompare (Number.of_Z a) (Number.of_Z b) = Some Lt.
Proof.
  intros [Ha Hab] Hb.
  destruct a as [| a | a]; try lia.
  pose proof (size_small a ltac:(lia)) as Hsa.
  rewrite (of_Z_small a (Z.to_N (53 - Zpos (Pos.size a)))) by lia.
  destruct (Z.eq_dec b Store.maxGenerated) as [-> | Hne].
  { change (Number.of_Z Store.maxGenerated)
      with (S754_finite false 4503599627370496 1).
    cbn [SFcompare]. rewrite Z2N.id by lia.
    destruct (Z.compare_spec (- (53 - Zpos (Pos.size a))) 1); [lia | reflexivity | lia]. }
  destruct b as [| b | b]; try lia.
  pose proof (size_small b ltac:(lia)) as Hsb.
  pose proof (size_mono a b ltac:(lia)) as Hsab.
  rewrite (of_Z_small b (Z.to_N (53 - Zpos (Pos.size b)))) by lia.
  cbn [SFcompare]. rewrite !Z2N.id by lia.
  destruct (Z.compare_spec (- (53 - Zpos (Pos.size a))) (- (53 - Zpos (Pos.size b))))
    as [He | He | He]; [| reflexivity | lia].
  assert (Hs : Pos.size a = Pos.size b) by lia. rewrite Hs.
  rewrite Pos.compare_cont_spec. cbn [Pos.switch_Eq].
  assert (Hz : Zpos (Pos.shiftl a (Z.to_N (53 - Zpos (Pos.size b))))
               < Zpos (Pos.shiftl b (Z.to_N (53 - Zpos (Pos.size b))))).
  { rewrite !shiftl_mul.
    apply Z.mul_lt_mono_pos_r; [apply Z.pow_pos_nonneg; lia | lia]. }
  change (Pos.shiftl a (Z.to_N (53 - Zpos (Pos.size b)))
          < Pos.shiftl b (Z.to_N (53 - Zpos (Pos.size b))))%positive in Hz.
  apply Pos.compare_lt_iff in Hz. rewrite Hz. reflexivity.
Qed.

Lemma SFcompare_Lt_Gt x y : SFcompare x y = Some Lt -> SFcompare y x = Some Gt.
Proof.
  destruct x as [sx | sx | | sx mx ex], y as [sy | sy | | sy my ey]; cbn;
    try discriminate; try (destruct sx; discriminate); try (destruct sy; discriminate);
    try (destruct sx, sy; (discriminate || reflexivity)).
  change (Pos.compare_cont Eq mx my) with (mx ?= my)%positive.
  change (Pos.compare_cont Eq my mx) with (my ?= mx)%positive.
  rewrite (Z.compare_antisym ex ey), (Pos.compare_antisym mx my).
  destruct sx, sy; try discriminate; try reflexivity;
    destruct (ex ?= ey); cbn; try discriminate; try reflexivity;
    destruct (mx ?= my)%positive; cbn; try discriminate; reflexivity.
Qed.

(** A store whose keys were all generated is ready to generate the next. *)
Lemma generated_ready s :
  generated s ->
  Store.keyGenerator s <= Store.maxGenerated ->
  generator_ready s.
Proof.
  intros [Hpos Hkeys] Hlive. split; [exact Hlive |].
  intros k v Hin. destruct (Hkeys k v Hin) as (i & Hi & ->).
  unfold Store.key_eqb. cbn [Store.key_compare].
  rewrite (SFcompare_Lt_Gt _ _ (of_Z_lt i (Store.keyGenerator s) ltac:(lia) Hlive)).
  reflexivity.
Qed.

Lemma generated_empty : generated emptyStore.
Proof. split; [cbn; lia |]. intros k v Hin. inversion Hin. Qed.

Lemma generated_stored s d : generated s -> generated (stored s d).
Proof.
  intros [Hpos Hkeys]. split; [cbn; lia |].
  intros k v Hin. cbn in Hin.
  apply store_record_inv in Hin as [[= -> _] | Hin].
  - exists (Store.keyGenerator s). split; [cbn; lia | reflexivity].
  - destruct (Hkeys k v Hin) as (i & Hi & ->). exists i. split; [cbn; lia | reflexivity].
Qed.

Lemma generated_delete s k : generated s -> generated (Store.delete s k).
Proof.
  intros [Hpos Hkeys]. split; [exact Hpos |].
  intros k' v Hin. cbn in Hin. apply delete_record_elem in Hin as [Hin _].
  exact (Hkeys k' v Hin).
Qed.

Lemma all_generated_commit w hp lg storeName s' :
  all_generated w ->
  generated s' ->
  all_generated {| heap := hp; db := <[storeName := s']> <$> db w; log := lg |}.
Proof.
  intros Hall Hs' name s Hs. unfold store_of in Hs. cbn in Hs.
  destruct (db w) as [d |] eqn:Hdb; cbn in Hs; [| discriminate].
  destruct (decide (storeName = name)) as [-> | Hne].
  - rewrite lookup_insert_eq in Hs. injection Hs as <-. exact Hs'.
  - rewrite lookup_insert_ne in Hs by exact Hne. apply (Hall name).
    unfold store_of. rewrite Hdb. exact Hs.
Qed.

Lemma all_generated_db w w' : db w' = db w -> all_generated w -> all_generated w'.
Proof. intros Hdb Hall name s Hs. apply (Hall name). unfold store_of in *. congruence. Qed.

(** The wrapper keeps every store filled with generated keys only. *)
Lemma addOrUpdate_all_generated h storeName data w res w' :
  all_generated w ->
  IndexedDBWrapper.addOrUpdate h storeName data w = (res, w') ->
  all_generated w'.
Proof.
  intros Hall Hrun.
  destruct (heap w !! data) as [d |] eqn:Hd.
  2:{ rewrite (addOrUpdate_dangling h storeName data w Hd) in Hrun.
      injection Hrun as _ <-. exact Hall. }
  destruct (verdict d) as [msg |] eqn:Hv.
  { rewrite (addOrUpdate_rejected h storeName data w d msg Hd Hv) in Hrun.
    injection Hrun as _ <-. exact Hall. }
  destruct (store_of w storeName) as [s |] eqn:Hs.
  2:{ destruct (addOrUpdate_unopened h storeName data w d Hd Hv Hs)
        as (e & w0 & Hrun0 & _ & Hdb & _).
      rewrite Hrun0 in Hrun. injection Hrun as _ <-.
      exact (all_generated_db w w0 Hdb Hall). }
  pose proof (proj2 (store_of_opened _ _ _) Hs) as Hopen.
  destruct (Z_le_gt_dec (Store.keyGenerator s) Store.maxGenerated) as [Hg | Hg].
  - rewrite (addOrUpdate_stored h storeName data w d s Hd Hv Hopen Hg) in Hrun.
    injection Hrun as _ <-.
    apply all_generated_commit; [exact Hall |].
    apply generated_stored, (Hall storeName), Hs.
  - rewrite (addOrUpdate_exhausted h storeName data w d s Hd Hv Hopen) in Hrun by lia.
    injection Hrun as _ <-. apply (all_generated_db w); [reflexivity | exact Hall].
Qed.

Lemma transaction_db storeName mode w res w' :
  IndexedDBWrapper.transaction storeName mode w = (res, w') -> db w' = db w.
Proof.
  unfold IndexedDBWrapper.transaction.
  destruct (db w) as [d |] eqn:Hdb; [| intros [= _ <-]; exact Hdb].
  unfold bind, IndexedDBWrapper.call. cbn.
  destruct (d !! storeName); cbn; intros [= _ <-]; cbn; congruence.
Qed.

Lemma delete_all_generated storeName key w res w' :
  all_generated w ->
  IndexedDBWrapper.delete storeName key w = (res, w') ->
  all_generated w'.
Proof.
  intros Hall. unfold IndexedDBWrapper.delete. unfold bind at 1.
  destruct (IndexedDBWrapper.transaction storeName ReadWrite w) as [[s | r] w1] eqn:Ht.
  - pose proof (transaction_resolved _ _ _ _ _ Ht) as Hopen.
    rewrite (transaction_opened _ _ _ _ Hopen) in Ht. injection Ht as <-.
    unfold bind, IndexedDBWrapper.call, IndexedDBWrapper.commit, ret, throw. cbn.
    destruct (Store.key_of_value key) as [k |]; cbn; intros [= _ <-].
    + apply (all_generated_commit w); [exact Hall |].
      apply generated_delete, (Hall storeName), store_of_opened, Hopen.
    + apply (all_generated_db w); [reflexivity | exact Hall].
  - intros [= _ <-]. apply (all_generated_db w); [| exact Hall].
    exact (transaction_db _ _ _ _ _ Ht).
Qed.

(** The example store is the store three calls of [addOrUpdate] fill. *)
Example three_records_stored :
  store_of
    (snd (IndexedDBWrapper.addOrUpdate utc "costs" 3%positive
       (snd (IndexedDBWrapper.addOrUpdate utc "costs" 2%positive
          (snd (IndexedDBWrapper.addOrUpdate utc "costs" 1%positive ledger))))))
    "costs"
  = Some exampleStore.
Proof. vm_compute. reflexivity. Qed.

(** A record whose date is the string YYYY-MM-DD of a day, or the Date
    object of its midnight UTC, is dated that day on every host. *)
Lemma dated_string h record :
  get record "date" = VStr "2023-01-05" -> dated h record 2023 1 5.
Proof. unfold dated. intros ->. reflexivity. Qed.

Lemma dated_object h record y m d :
  get record "date" = VDate (Some (Calendar.dayOfCivil y m d * Calendar.msPerDay)) ->
  dated h record y m d.
Proof. unfold dated. intros ->. reflexivity. Qed.

Example invalid_day_left_to_host h : parseDateOnly "2023-02-30" = None
  /\ Date_parse h "2023-02-30" = parseOther h "2023-02-30".
Proof. split; reflexivity. Qed.

(** * Further properties *)

(** ** addOrUpdate: guards, connection, store *)

(** A record that passes the guards meets [this.db.transaction] next: when
    that call throws, the promise is rejected with what it threw and
    nothing else has happened. *)
Lemma addOrUpdate_transaction_throws h storeName data w d r w' :
  heap w !! data = Some d ->
  verdict d = None ->
  IndexedDBWrapper.transaction storeName ReadWrite w = (Rejected r, w') ->
  IndexedDBWrapper.addOrUpdate h storeName data w = (Rejected r, w').
Proof.
  intros Hd Hv Ht.
  apply verdict_none in Hv as (Hdate & Hsum & Hcat).
  unfold date_rejected in Hdate. unfold sum_rejected in Hsum.
  unfold category_rejected in Hcat.
  unfold IndexedDBWrapper.addOrUpdate.
  unfold bind at 1. unfold IndexedDBWrapper.deref at 1. rewrite Hd. cbn [ret].
  rewrite Hdate, Hsum, Hcat.
  unfold bind at 1. rewrite Ht. reflexivity.
Qed.

Lemma transaction_no_store storeName mode w stores :
  db w = Some stores ->
  stores !! storeName = None ->
  IndexedDBWrapper.transaction storeName mode w
  = (Rejected (Thrown NotFoundError), traced w (Transaction storeName mode)).
Proof.
  intros Hdb Hnone. unfold IndexedDBWrapper.transaction. rewrite Hdb.
  unfold bind, IndexedDBWrapper.call. cbn. rewrite Hnone. reflexivity.
Qed.

(** X1. The guards come before the connection is looked at: on a wrapper
    that was never opened, [addOrUpdate] rejects an invalid record with the
    message of its guard and a record that passes the guards with the
    TypeError of [this.db.transaction]; either way the world is left as it
    was, the caller's [id] included. *)
Theorem addOrUpdate_before_open h storeName data w d :
  heap w !! data = Some d ->
  db w = None ->
  IndexedDBWrapper.addOrUpdate h storeName data w =
    (Rejected (match verdict d with
               | Some msg => Message msg
               | None => Thrown TypeError
               end), w).
Proof.
  intros Hd Hdb.
  destruct (verdict d) as [msg |] eqn:Hv.
  - exact (addOrUpdate_rejected h storeName data w d msg Hd Hv).
  - apply (addOrUpdate_transaction_throws h storeName data w d _ w Hd Hv).
    exact (transaction_closed w storeName ReadWrite Hdb).
Qed.

Lemma addOrUpdate_before_open_witness :
  IndexedDBWrapper.addOrUpdate utc "costs" 1%positive
    {| heap := {[ 1%positive := withId 7 jan2023 ]}; db := None; log := [] |} =
    (Rejected (match verdict (withId 7 jan2023) with
               | Some msg => Message msg
               | None => Thrown TypeError
               end),
     {| heap := {[ 1%positive := withId 7 jan2023 ]}; db := None; log := [] |}).
Proof.
  apply (addOrUpdate_before_open utc "costs" 1%positive
           {| heap := {[ 1%positive := withId 7 jan2023 ]}; db := None; log := [] |}
           (withId 7 jan2023)).
  - vm_compute. reflexivity.
  - reflexivity.
Defined.

(** X2. On an open database that has no store of the name given, a record
    that passes the guards is rejected with the NotFoundError of
    [transaction]: one readwrite transaction was asked for, nothing was
    put, and the caller's object keeps its [id], since the deletion comes
    after the call that throws. *)
Theorem addOrUpdate_unknown_store h storeName data w d stores :
  heap w !! data = Some d ->
  verdict d = None ->
  db w = Some stores ->
  stores !! storeName = None ->
  IndexedDBWrapper.addOrUpdate h storeName data w =
    (Rejected (Thrown NotFoundError), traced w (Transaction storeName ReadWrite)).
Proof.
  intros Hd Hv Hdb Hnone.
  apply (addOrUpdate_transaction_throws h storeName data w d _ _ Hd Hv).
  exact (transaction_no_store storeName ReadWrite w stores Hdb Hnone).
Qed.

Lemma addOrUpdate_unknown_store_witness :
  IndexedDBWrapper.addOrUpdate utc "income" 1%positive clientWorld =
    (Rejected (Thrown NotFoundError), traced clientWorld (Transaction "income" ReadWrite)).
Proof.
  apply (addOrUpdate_unknown_store utc "income" 1%positive clientWorld
           (withId 2 jan2023) {[ "costs" := exampleStore ]}).
  - vm_compute. reflexivity.
  - vm_compute. reflexivity.
  - reflexivity.
  - vm_compute. reflexivity.
Defined.

Lemma falsy_ToBoolean v : falsy v <-> ToBoolean v = false.
Proof.
  unfold falsy. split.
  - intros [-> | [-> | [-> | [-> | [[s ->] | ->]]]]]; reflexivity.
  - destruct v as [| | b | n | s | t |]; cbn; try discriminate; auto.
    + destruct b; [discriminate | auto].
    + destruct n as [s | s | | s m e]; cbn; try discriminate; eauto 10.
    + case_bool_decide as Hs; [subst s; auto | discriminate].
Qed.

(** X3. A date that is there but holds nothing is taken for a missing one:
    a record whose date is 0 (the time value of 1970-01-01), -0, NaN, the
    empty string, null or false is rejected with the message that the date
    is required, whatever its other fields, and the world is left as it
    was. *)
Theorem falsy_date_rejected h storeName data w d :
  heap w !! data = Some d ->
  falsy (get d "date") ->
  IndexedDBWrapper.addOrUpdate h storeName data w =
    (Rejected (Message IndexedDBWrapper.date_required), w).
Proof.
  intros Hd Hfalsy. apply (addOrUpdate_rejected h storeName data w d _ Hd).
  unfold verdict, date_rejected.
  rewrite (proj1 (falsy_ToBoolean _) Hfalsy). reflexivity.
Qed.

Lemma falsy_date_rejected_witness :
  IndexedDBWrapper.addOrUpdate utc "costs" 1%positive
    (worldOf exampleStore (<["date" := VNum Number.zero]> jan2023)) =
    (Rejected (Message IndexedDBWrapper.date_required),
     worldOf exampleStore (<["date" := VNum Number.zero]> jan2023)).
Proof.
  apply (falsy_date_rejected utc "costs" 1%positive _
           (<["date" := VNum Number.zero]> jan2023)).
  - vm_compute. reflexivity.
  - right; right; right; right; left. exists false. vm_compute. reflexivity.
Defined.

(** X4. On an open store whose generator is ready, [addOrUpdate] resolves
    exactly for the records whose date holds a value, whose sum is a number
    that is not at most zero (NaN and +Infinity are such numbers), and
    whose category is a string that is not empty. *)
Theorem addOrUpdate_resolves_iff h storeName data w d s :
  heap w !! data = Some d ->
  opened w storeName s ->
  generator_ready s ->
  (exists msg w', IndexedDBWrapper.addOrUpdate h storeName data w = (Resolved msg, w'))
  <-> (~ falsy (get d "date")
       /\ (exists n, get d "sum" = VNum n /\ Number.leb n Number.zero = false)
       /\ (exists c, get d "category" = VStr c /\ c <> "")).
Proof.
  intros Hd Hopen [Hlive _].
  assert (Hpass : verdict d = None <->
                  (~ falsy (get d "date")
                   /\ (exists n, get d "sum" = VNum n /\ Number.leb n Number.zero = false)
                   /\ (exists c, get d "category" = VStr c /\ c <> ""))).
  { rewrite verdict_none. unfold date_rejected, sum_rejected, category_rejected.
    rewrite falsy_ToBoolean. split.
    - intros (Hdate & Hsum & Hcat).
      apply negb_false_iff in Hdate.
      apply orb_false_iff in Hsum as [Hty Hle].
      apply orb_false_iff in Hcat as [Htrue Hstr].
      apply negb_false_iff in Hty, Htrue, Hstr.
      apply bool_decide_eq_true in Hty, Hstr.
      split; [congruence |]. split.
      + destruct (get d "sum"); try discriminate. eauto.
      + destruct (get d "category") as [| | | | c | |]; try discriminate.
        exists c. split; [reflexivity |]. intros ->. discriminate.
    - intros (Hdate & (n & Hn & Hle) & (c & Hc & Hne)).
      rewrite Hn, Hc. cbn. rewrite Hle.
      rewrite (bool_decide_eq_false_2 (c = "") Hne).
      rewrite !bool_decide_eq_true_2 by reflexivity.
      destruct (ToBoolean (get d "date")); [auto | contradiction Hdate; reflexivity]. }
  rewrite <- Hpass. split.
  - intros (msg & w' & Hrun).
    destruct (verdict d) as [m |] eqn:Hv; [| reflexivity].
    rewrite (addOrUpdate_rejected h storeName data w d m Hd Hv) in Hrun. discriminate.
  - intros Hv. eexists _, _.
    exact (addOrUpdate_stored h storeName data w d s Hd Hv Hopen Hlive).
Qed.

Lemma addOrUpdate_resolves_iff_witness :
  (exists msg w',
     IndexedDBWrapper.addOrUpdate utc "costs" 1%positive clientWorld = (Resolved msg, w'))
  <-> (~ falsy (get (withId 2 jan2023) "date")
       /\ (exists n, get (withId 2 jan2023) "sum" = VNum n
                     /\ Number.leb n Number.zero = false)
       /\ (exists c, get (withId 2 jan2023) "category" = VStr c /\ c <> "")).
Proof.
  apply (addOrUpdate_resolves_iff utc "costs" 1%positive clientWorld
           (withId 2 jan2023) exampleStore).
  - vm_compute. reflexivity.
  - apply worldOf_opened.
  - apply exampleStore_ready.
Defined.


(** ** Generated keys, listing order, deletion *)

Lemma of_Z_finite g :
  1 <= g <= Store.maxGenerated ->
  exists m e, Number.of_Z g = S754_finite false m e.
Proof.
  intros [Hlo Hhi]. destruct g as [| p | p]; try lia.
  destruct (Z.eq_dec (Zpos p) Store.maxGenerated) as [-> | Hne].
  { eexists _, _. vm_compute. reflexivity. }
  pose proof (size_small p ltac:(lia)) as Hs.
  rewrite (of_Z_small p (Z.to_N (53 - Zpos (Pos.size p)))) by lia. eauto.
Qed.

Lemma key_of_generated g :
  1 <= g <= Store.maxGenerated ->
  Store.key_of_value (VNum (Number.of_Z g)) = Some (Store.KNumber (Number.of_Z g)).
Proof. intros Hg. destruct (of_Z_finite g Hg) as (m & e & ->). reflexivity. Qed.

Lemma key_eqb_generated g :
  1 <= g <= Store.maxGenerated ->
  Store.key_eqb (Store.KNumber (Number.of_Z g)) (Store.KNumber (Number.of_Z g)) = true.
Proof.
  intros Hg. destruct (of_Z_finite g Hg) as (m & e & ->).
  unfold Store.key_eqb. cbn. rewrite Z.compare_refl.
  change (Pos.compare_cont Eq m m) with (m ?= m)%positive.
  rewrite Pos.compare_refl. reflexivity.
Qed.

Lemma generated_below s k v :
  generated s ->
  Store.keyGenerator s <= Store.maxGenerated ->
  (k, v) ∈ Store.records s ->
  Store.key_compare (Store.KNumber (Number.of_Z (Store.keyGenerator s))) k = Gt
  /\ Store.key_compare k (Store.KNumber (Number.of_Z (Store.keyGenerator s))) = Lt.
Proof.
  intros [Hpos Hkeys] Hlive Hin. destruct (Hkeys k v Hin) as (i & Hi & ->).
  pose proof (of_Z_lt i (Store.keyGenerator s) ltac:(lia) Hlive) as Hlt.
  cbn [Store.key_compare]. rewrite Hlt, (SFcompare_Lt_Gt _ _ Hlt). auto.
Qed.

Lemma store_record_last k v l :
  (forall k' v', (k', v') ∈ l -> Store.key_compare k k' = Gt) ->
  Store.store_record k v l = (l ++ [(k, v)])%list.
Proof.
  induction l as [| [k0 v0] l IH]; cbn; intros Habove; [reflexivity |].
  rewrite (Habove k0 v0 (list_elem_of_here _ _)). f_equal.
  apply IH. intros k' v' Hin. apply (Habove k' v'), list_elem_of_further, Hin.
Qed.

Lemma delete_record_last k v l :
  (forall k' v', (k', v') ∈ l -> Store.key_eqb k' k = false) ->
  Store.key_eqb k k = true ->
  Store.delete_record k (l ++ [(k, v)]) = l.
Proof.
  intros Hother Hself. unfold Store.delete_record.
  rewrite List.filter_app. cbn. rewrite Hself. cbn. rewrite app_nil_r.
  apply (delete_record_absent k l Hother).
Qed.

(** X5. On a store that only the wrapper has written to, [getAll] after an
    [addOrUpdate] that passed the guards lists the records it listed
    before, in the same order, followed by the new record; and the new
    record is the caller's object with every field it had, also those the
    guards do not look at, except that its [id] is the key the store gave
    it, whatever [id] the caller supplied. *)
Theorem getAll_after_addOrUpdate h storeName data w d s :
  heap w !! data = Some d ->
  verdict d = None ->
  opened w storeName s ->
  generated s ->
  Store.keyGenerator s <= Store.maxGenerated ->
  exists w1 w2,
    IndexedDBWrapper.addOrUpdate h storeName data w
      = (Resolved IndexedDBWrapper.added, w1)
    /\ IndexedDBWrapper.getAll storeName w1
       = (Resolved (Store.getAll s ++ [keyed (Store.keyGenerator s) d])%list, w2)
    /\ (forall k, k <> "id" -> keyed (Store.keyGenerator s) d !! k = d !! k)
    /\ keyed (Store.keyGenerator s) d !! "id"
       = Some (VNum (Number.of_Z (Store.keyGenerator s))).
Proof.
  intros Hd Hv Hopen Hgen Hlive.
  pose proof (proj1 (store_of_opened _ _ _) Hopen) as Hstore.
  rewrite (addOrUpdate_stored h storeName data w d s Hd Hv Hopen Hlive).
  set (w1 := {| heap := stripped data d (heap w);
                db := <[storeName := stored s d]> <$> db w;
                log := _ |}).
  assert (Hopen1 : opened w1 storeName (stored s d)).
  { apply store_of_opened. apply (store_of_commit _ _ _ _ s). destruct w; exact Hstore. }
  eexists w1, _. split; [reflexivity |].
  split.
  { rewrite (getAll_opened w1 storeName (stored s d) Hopen1). f_equal. f_equal.
    unfold Store.getAll, stored. cbn [Store.records].
    rewrite store_record_last.
    - rewrite map_app. reflexivity.
    - intros k' v' Hin. exact (proj1 (generated_below s k' v' Hgen Hlive Hin)). }
  unfold keyed. split.
  - intros k Hk. rewrite lookup_insert_ne by congruence.
    apply lookup_delete_ne. congruence.
  - apply lookup_insert_eq.
Qed.

Lemma exampleStore_generated : generated exampleStore.
Proof.
  split; [cbn; lia |]. intros k v Hin. cbn in Hin.
  apply elem_of_cons in Hin as [[= -> _] | Hin]; [exists 1; cbn; split; [lia | reflexivity] |].
  apply elem_of_cons in Hin as [[= -> _] | Hin]; [exists 2; cbn; split; [lia | reflexivity] |].
  apply elem_of_cons in Hin as [[= -> _] | Hin]; [exists 3; cbn; split; [lia | reflexivity] |].
  inversion Hin.
Qed.

Lemma getAll_after_addOrUpdate_witness :
  exists w1 w2,
    IndexedDBWrapper.addOrUpdate utc "costs" 1%positive clientWorld
      = (Resolved IndexedDBWrapper.added, w1)
    /\ IndexedDBWrapper.getAll "costs" w1
       = (Resolved (Store.getAll exampleStore
                    ++ [keyed (Store.keyGenerator exampleStore) (withId 2 jan2023)])%list,
          w2)
    /\ (forall k, k <> "id" ->
          keyed (Store.keyGenerator exampleStore) (withId 2 jan2023) !! k
          = withId 2 jan2023 !! k)
    /\ keyed (Store.keyGenerator exampleStore) (withId 2 jan2023) !! "id"
       = Some (VNum (Number.of_Z (Store.keyGenerator exampleStore))).
Proof.
  apply (getAll_after_addOrUpdate utc "costs" 1%positive clientWorld (withId 2 jan2023)
           exampleStore).
  - vm_compute. reflexivity.
  - vm_compute. reflexivity.
  - apply worldOf_opened.
  - exact exampleStore_generated.
  - vm_compute. discriminate.
Defined.

(** X6. When the key generator of the store is used up, a record that
    passes the guards is rejected through the error handler of the
    request, with the text "Failed to add/update data: " and the error
    code of the host; the database is as it was, a put was issued, and the
    caller's object has already lost its [id]. *)
Theorem addOrUpdate_generator_used_up h storeName data w d s :
  heap w !! data = Some d ->
  verdict d = None ->
  opened w storeName s ->
  Store.maxGenerated < Store.keyGenerator s ->
  exists w',
    IndexedDBWrapper.addOrUpdate h storeName data w
      = (Rejected (Message ("Failed to add/update data: " +:+ errorCode h)), w')
    /\ db w' = db w
    /\ heap w' !! data = Some (delete "id" d)
    /\ puts (log w') = (puts (log w) ++ [delete "id" d])%list.
Proof.
  intros Hd Hv Hopen Hg.
  rewrite (addOrUpdate_exhausted h storeName data w d s Hd Hv Hopen Hg).
  eexists. split; [reflexivity |]. cbn.
  split; [reflexivity |]. split; [apply stripped_lookup, Hd |].
  rewrite puts_app. reflexivity.
Qed.

Lemma addOrUpdate_generator_used_up_witness :
  exists w',
    IndexedDBWrapper.addOrUpdate utc "costs" 1%positive
      (worldOf {| Store.records := []; Store.keyGenerator := Store.maxGenerated + 1 |}
         (withId 7 jan2023))
      = (Rejected (Message ("Failed to add/update data: " +:+ errorCode utc)), w')
    /\ db w' = db (worldOf {| Store.records := [];
                              Store.keyGenerator := Store.maxGenerated + 1 |}
                     (withId 7 jan2023))
    /\ heap w' !! 1%positive = Some (delete "id" (withId 7 jan2023))
    /\ puts (log w')
       = (puts (log (worldOf {| Store.records := [];
                                Store.keyGenerator := Store.maxGenerated + 1 |}
                       (withId 7 jan2023)))
          ++ [delete "id" (withId 7 jan2023)])%list.
Proof.
  apply (addOrUpdate_generator_used_up utc "costs" 1%positive _ (withId 7 jan2023)
           {| Store.records := []; Store.keyGenerator := Store.maxGenerated + 1 |}).
  - vm_compute. reflexivity.
  - vm_compute. reflexivity.
  - apply worldOf_opened.
  - vm_compute. reflexivity.
Defined.

(** X7. [delete] with a value that is not a valid key (undefined, null, a
    boolean, NaN, an invalid date, an object) is rejected with the
    DataError the store raises, after the readwrite transaction was
    opened; the database and the heap are as they were. *)
Theorem delete_invalid_key storeName key w s :
  opened w storeName s ->
  Store.key_of_value key = None ->
  IndexedDBWrapper.delete storeName key w =
    (Rejected (Thrown DataError),
     traced (traced w (Transaction storeName ReadWrite)) (Delete storeName key)).
Proof.
  intros Hopen Hk. unfold IndexedDBWrapper.delete.
  unfold bind at 1. rewrite (transaction_opened _ _ _ _ Hopen).
  unfold bind, IndexedDBWrapper.call, throw. cbn. rewrite Hk. reflexivity.
Qed.

Lemma delete_invalid_key_witness :
  IndexedDBWrapper.delete "costs" VUndefined clientWorld =
    (Rejected (Thrown DataError),
     traced (traced clientWorld (Transaction "costs" ReadWrite))
       (Delete "costs" VUndefined)).
Proof.
  apply (delete_invalid_key "costs" VUndefined clientWorld exampleStore).
  - apply worldOf_opened.
  - reflexivity.
Defined.

Lemma delete_record_twice k l :
  Store.delete_record k (Store.delete_record k l) = Store.delete_record k l.
Proof.
  apply delete_record_absent. intros k' v Hin.
  apply delete_record_elem in Hin as [_ Hne]. exact Hne.
Qed.

(** X8. Deleting the same key twice is deleting it once: the second call
    resolves as the first did and leaves the store the first call left. *)
Theorem delete_twice storeName key k w s :
  opened w storeName s ->
  Store.key_of_value key = Some k ->
  exists w1 w2,
    IndexedDBWrapper.delete storeName key w = (Resolved IndexedDBWrapper.deleted, w1)
    /\ IndexedDBWrapper.delete storeName key w1 = (Resolved IndexedDBWrapper.deleted, w2)
    /\ db w2 = db w1
    /\ heap w2 = heap w.
Proof.
  intros Hopen Hk.
  pose proof (proj1 (store_of_opened _ _ _) Hopen) as Hstore.
  rewrite (delete_opened w storeName key k s Hopen Hk).
  set (w1 := {| heap := heap w; db := _; log := _ |}).
  assert (Hopen1 : opened w1 storeName (Store.delete s k)).
  { apply store_of_opened. apply (store_of_commit _ _ _ _ s). destruct w; exact Hstore. }
  eexists w1, _. split; [reflexivity |].
  split; [exact (delete_opened w1 storeName key k _ Hopen1 Hk) |].
  split; [| reflexivity].
  assert (Hsame : Store.delete (Store.delete s k) k = Store.delete s k).
  { unfold Store.delete. cbn [Store.records Store.keyGenerator].
    rewrite delete_record_twice. reflexivity. }
  cbn [db]. rewrite Hsame. unfold w1. cbn [db].
  destruct (db w) as [stores |]; cbn; [| reflexivity].
  rewrite insert_insert_eq. reflexivity.
Qed.

Lemma delete_twice_witness :
  exists w1 w2,
    IndexedDBWrapper.delete "costs" (VNum (Number.of_Z 2)) clientWorld
      = (Resolved IndexedDBWrapper.deleted, w1)
    /\ IndexedDBWrapper.delete "costs" (VNum (Number.of_Z 2)) w1
       = (Resolved IndexedDBWrapper.deleted, w2)
    /\ db w2 = db w1
    /\ heap w2 = heap clientWorld.
Proof.
  apply (delete_twice "costs" (VNum (Number.of_Z 2)) (Store.KNumber (Number.of_Z 2))
           clientWorld exampleStore).
  - apply worldOf_opened.
  - vm_compute. reflexivity.
Defined.

(** X9. On a store that only the wrapper has written to, an [addOrUpdate]
    followed by [delete] with the [id] the new record was given brings
    back the records the store held, in their order; the key generator has
    moved on by one, so that key is not given out again. *)
Theorem delete_after_addOrUpdate h storeName data w d s :
  heap w !! data = Some d ->
  verdict d = None ->
  opened w storeName s ->
  generated s ->
  Store.keyGenerator s <= Store.maxGenerated ->
  exists w1 w2 s2,
    IndexedDBWrapper.addOrUpdate h storeName data w
      = (Resolved IndexedDBWrapper.added, w1)
    /\ IndexedDBWrapper.delete storeName
         (get (keyed (Store.keyGenerator s) d) "id") w1
       = (Resolved IndexedDBWrapper.deleted, w2)
    /\ store_of w2 storeName = Some s2
    /\ Store.records s2 = Store.records s
    /\ Store.keyGenerator s2 = Store.keyGenerator s + 1.
Proof.
  intros Hd Hv Hopen Hgen Hlive.
  pose proof (proj1 (store_of_opened _ _ _) Hopen) as Hstore.
  assert (Hg : 1 <= Store.keyGenerator s <= Store.maxGenerated)
    by (destruct Hgen; lia).
  rewrite (addOrUpdate_stored h storeName data w d s Hd Hv Hopen Hlive).
  set (w1 := {| heap := stripped data d (heap w);
                db := <[storeName := stored s d]> <$> db w;
                log := _ |}).
  assert (Hstore1 : store_of w1 storeName = Some (stored s d)).
  { apply (store_of_commit _ _ _ _ s). destruct w; exact Hstore. }
  assert (Hid : get (keyed (Store.keyGenerator s) d) "id"
                = VNum (Number.of_Z (Store.keyGenerator s))).
  { unfold get, keyed. rewrite lookup_insert_eq. reflexivity. }
  rewrite Hid.
  eexists w1, _, _. split; [reflexivity |].
  split.
  { apply (delete_opened w1 storeName _
             (Store.KNumber (Number.of_Z (Store.keyGenerator s))) (stored s d)).
    - apply store_of_opened, Hstore1.
    - apply key_of_generated, Hg. }
  split; [apply (store_of_commit _ _ _ _ (stored s d)); exact Hstore1 |].
  split; [| reflexivity].
  unfold Store.delete, stored. cbn [Store.records]. rewrite store_record_last.
  - apply delete_record_last; [| apply key_eqb_generated, Hg].
    intros k' v' Hin. unfold Store.key_eqb.
    rewrite (proj2 (generated_below s k' v' Hgen Hlive Hin)). reflexivity.
  - intros k' v' Hin. exact (proj1 (generated_below s k' v' Hgen Hlive Hin)).
Qed.

Lemma delete_after_addOrUpdate_witness :
  exists w1 w2 s2,
    IndexedDBWrapper.addOrUpdate utc "costs" 1%positive clientWorld
      = (Resolved IndexedDBWrapper.added, w1)
    /\ IndexedDBWrapper.delete "costs"
         (get (keyed (Store.keyGenerator exampleStore) (withId 2 jan2023)) "id") w1
       = (Resolved IndexedDBWrapper.deleted, w2)
    /\ store_of w2 "costs" = Some s2
    /\ Store.records s2 = Store.records exampleStore
    /\ Store.keyGenerator s2 = Store.keyGenerator exampleStore + 1.
Proof.
  apply (delete_after_addOrUpdate utc "costs" 1%positive clientWorld (withId 2 jan2023)
           exampleStore).
  - vm_compute. reflexivity.
  - vm_compute. reflexivity.
  - apply worldOf_opened.
  - exact exampleStore_generated.
  - vm_compute. discriminate.
Defined.


(** ** Listing and reports read only *)

Lemma getAll_run storeName w :
  IndexedDBWrapper.getAll storeName w =
    match db w with
    | None => (Rejected (Thrown TypeError), w)
    | Some stores =>
        match stores !! storeName with
        | None => (Rejected (Thrown NotFoundError),
                   traced w (Transaction storeName ReadOnly))
        | Some s => (Resolved (Store.getAll s), listed w storeName)
        end
    end.
Proof.
  destruct (db w) as [stores |] eqn:Hdb.
  - destruct (stores !! storeName) as [s |] eqn:Hs.
    + apply getAll_opened. exists stores. auto.
    + unfold IndexedDBWrapper.getAll. unfold bind at 1.
      unfold IndexedDBWrapper.transaction. rewrite Hdb.
      unfold bind, IndexedDBWrapper.call. cbn. rewrite Hs. reflexivity.
  - unfold IndexedDBWrapper.getAll. unfold bind at 1.
    rewrite (transaction_closed w storeName ReadOnly Hdb). reflexivity.
Qed.

Lemma writes_app l1 l2 : writes (l1 ++ l2) = (writes l1 ++ writes l2)%list.
Proof. apply List.filter_app. Qed.

Lemma additions_app l1 l2 : additions (l1 ++ l2) = (additions l1 ++ additions l2)%list.
Proof. apply omap_app. Qed.

Lemma getAll_read_only storeName w :
  read_only w (snd (IndexedDBWrapper.getAll storeName w)).
Proof.
  rewrite getAll_run. unfold read_only.
  destruct (db w) as [stores |] eqn:Hdb; [| auto].
  destruct (stores !! storeName); cbn; rewrite writes_app; cbn;
    rewrite app_nil_r; auto.
Qed.

Lemma getAll_adds_nothing storeName w :
  additions (log (snd (IndexedDBWrapper.getAll storeName w))) = additions (log w).
Proof.
  rewrite getAll_run.
  destruct (db w) as [stores |] eqn:Hdb; [| reflexivity].
  destruct (stores !! storeName); cbn; rewrite additions_app; cbn;
    rewrite app_nil_r; reflexivity.
Qed.

Lemma read_only_traced w w' k v : read_only w w' -> read_only w (traced w' (AddTotalSum k v)).
Proof.
  intros (Hh & Hd & Hw). unfold read_only, traced. cbn.
  rewrite writes_app. cbn. rewrite app_nil_r. auto.
Qed.

(** What the grouping of a report leaves of the world. *)
Lemma getYearlyReport_effect h storeName year w :
  report_effect h w storeName (IndexedDBWrapper.getYearlyReport h storeName year w).
Proof.
  unfold report_effect. cbn zeta.
  destruct (db w) as [stores |] eqn:Hdb;
    [destruct (stores !! storeName) as [s |] eqn:Hs |].
  - assert (Hopen : opened w storeName s) by (exists stores; auto).
    rewrite (getYearlyReport_opened h storeName year w s Hopen).
    rewrite (getAll_opened w storeName s Hopen). cbn [snd].
    destruct (Store.getAll s) as [| x xs] eqn:Hall; [left; reflexivity |].
    destruct (groupByCategory_world h (List.filter (IndexedDBWrapper.inYear h year) (x :: xs))
                (listed w storeName)) as [_ [Hw | (Hg & record & Hin & Hcat & Hw)]].
    + left. exact Hw.
    + right. split; [exact Hg |]. exists s, record.
      split; [exact Hopen |]. rewrite Hall.
      apply list_elem_of_In, filter_In in Hin as [Hin _].
      split; [apply list_elem_of_In, Hin | auto].
  - left. unfold IndexedDBWrapper.getYearlyReport, bind. rewrite getAll_run, Hdb, Hs.
    reflexivity.
  - left. unfold IndexedDBWrapper.getYearlyReport, bind. rewrite getAll_run, Hdb.
    reflexivity.
Qed.

Lemma getMonthlyReport_effect h storeName month year w :
  report_effect h w storeName (IndexedDBWrapper.getMonthlyReport h storeName month year w).
Proof.
  unfold report_effect. cbn zeta.
  destruct (db w) as [stores |] eqn:Hdb;
    [destruct (stores !! storeName) as [s |] eqn:Hs |].
  - assert (Hopen : opened w storeName s) by (exists stores; auto).
    rewrite (getMonthlyReport_opened h storeName month year w s Hopen).
    rewrite (getAll_opened w storeName s Hopen). cbn [snd].
    destruct (Store.getAll s) as [| x xs] eqn:Hall; [left; reflexivity |].
    destruct (List.filter (IndexedDBWrapper.inMonth h month year) (x :: xs))
      as [| m ms] eqn:Hf; [left; reflexivity |].
    destruct (groupByCategory_world h (m :: ms) (listed w storeName))
      as [_ [Hw | (Hg & record & Hin & Hcat & Hw)]].
    + left. exact Hw.
    + right. split; [exact Hg |]. exists s, record.
      split; [exact Hopen |]. rewrite Hall.
      rewrite <- Hf in Hin. apply list_elem_of_In, filter_In in Hin as [Hin _].
      split; [apply list_elem_of_In, Hin | auto].
  - left. unfold IndexedDBWrapper.getMonthlyReport, bind. rewrite getAll_run, Hdb, Hs.
    reflexivity.
  - left. unfold IndexedDBWrapper.getMonthlyReport, bind. rewrite getAll_run, Hdb.
    reflexivity.
Qed.

Lemma report_effect_read_only h w storeName run :
  report_effect h w storeName run -> read_only w (snd run).
Proof.
  intros [-> | (_ & s & record & _ & _ & _ & ->)].
  - apply getAll_read_only.
  - apply read_only_traced, getAll_read_only.
Qed.

(** A report leaves every store as it found it. *)
Lemma getYearlyReport_db h storeName year w :
  db (snd (IndexedDBWrapper.getYearlyReport h storeName year w)) = db w.
Proof.
  exact (proj1 (proj2 (report_effect_read_only h w storeName _
                         (getYearlyReport_effect h storeName year w)))).
Qed.

Lemma getMonthlyReport_db h storeName month year w :
  db (snd (IndexedDBWrapper.getMonthlyReport h storeName month year w)) = db w.
Proof.
  exact (proj1 (proj2 (report_effect_read_only h w storeName _
                         (getMonthlyReport_effect h storeName month year w)))).
Qed.

(** X10. [getAll] only reads, and the reports write no store: whatever
    their arguments and their outcome, the caller's heap and every store
    are as they were, and the call has put nothing, deleted nothing and
    opened no readwrite transaction.  What a report can write is the
    [totalSum] of an object that every object inherits from: a report
    leaves the world that [getAll] leaves, or it is rejected with a
    TypeError and has, besides, added the sum of a stored record to the
    total of the inherited object that the category of the record
    names. *)
Theorem reports_write_totals_only h storeName month year w :
  read_only w (snd (IndexedDBWrapper.getAll storeName w))
  /\ additions (log (snd (IndexedDBWrapper.getAll storeName w))) = additions (log w)
  /\ read_only w (snd (IndexedDBWrapper.getYearlyReport h storeName year w))
  /\ read_only w (snd (IndexedDBWrapper.getMonthlyReport h storeName month year w))
  /\ report_effect h w storeName (IndexedDBWrapper.getYearlyReport h storeName year w)
  /\ report_effect h w storeName
       (IndexedDBWrapper.getMonthlyReport h storeName month year w).
Proof.
  pose proof (getYearlyReport_effect h storeName year w) as Hy.
  pose proof (getMonthlyReport_effect h storeName month year w) as Hm.
  split; [apply getAll_read_only |].
  split; [apply getAll_adds_nothing |].
  split; [exact (report_effect_read_only _ _ _ _ Hy) |].
  split; [exact (report_effect_read_only _ _ _ _ Hm) |].
  split; assumption.
Qed.

(** X11. A report on a wrapper that cannot list the store does not answer
    "No records found": it is rejected with what [getAll] is rejected
    with, the TypeError of a wrapper that was never opened or the
    NotFoundError of a store the database does not have. *)
Theorem reports_fail_as_getAll h storeName month year w :
  (forall s, ~ opened w storeName s) ->
  exists e,
    (e = TypeError /\ db w = None \/ e = NotFoundError /\ db w <> None)
    /\ fst (IndexedDBWrapper.getAll storeName w) = Rejected (Thrown e)
    /\ fst (IndexedDBWrapper.getYearlyReport h storeName year w) = Rejected (Thrown e)
    /\ fst (IndexedDBWrapper.getMonthlyReport h storeName month year w)
       = Rejected (Thrown e).
Proof.
  intros Hclosed.
  assert (Hall : exists e,
             (e = TypeError /\ db w = None \/ e = NotFoundError /\ db w <> None)
             /\ exists w', IndexedDBWrapper.getAll storeName w = (Rejected (Thrown e), w')).
  { rewrite getAll_run. destruct (db w) as [stores |] eqn:Hdb.
    - destruct (stores !! storeName) as [s |] eqn:Hs.
      + destruct (Hclosed s). exists stores. auto.
      + exists NotFoundError. split; [right; split; [reflexivity | discriminate] | eauto].
    - exists TypeError. split; [left; auto | eauto]. }
  destruct Hall as (e & He & w' & Hrun). exists e. split; [exact He |].
  unfold IndexedDBWrapper.getYearlyReport, IndexedDBWrapper.getMonthlyReport, bind.
  rewrite Hrun. auto.
Qed.

Lemma reports_fail_as_getAll_witness :
  exists e,
    (e = TypeError /\ db clientWorld = None \/ e = NotFoundError /\ db clientWorld <> None)
    /\ fst (IndexedDBWrapper.getAll "income" clientWorld) = Rejected (Thrown e)
    /\ fst (IndexedDBWrapper.getYearlyReport utc "income" (VNum (Number.of_Z 2023))
              clientWorld) = Rejected (Thrown e)
    /\ fst (IndexedDBWrapper.getMonthlyReport utc "income" (VNum (Number.of_Z 1))
              (VNum (Number.of_Z 2023)) clientWorld) = Rejected (Thrown e).
Proof.
  apply (reports_fail_as_getAll utc "income" (VNum (Number.of_Z 1))
           (VNum (Number.of_Z 2023)) clientWorld).
  intros s (stores & Hdb & Hs). injection Hdb as <-.
  vm_compute in Hs. discriminate.
Defined.


(** ** Reports: selection and groups *)

(** As long as the trace holds no assignment, [Object.prototype] has no
    total. *)
Lemma totals_quiet h l : additions l = [] -> IndexedDBWrapper.totals h l = ∅.
Proof. intros Hq. exact (totals_app h [] l Hq). Qed.

Lemma untouched_prototype h w :
  additions (log w) = [] -> ToBoolean (prototypeTotal h w) = false.
Proof.
  intros Hq. unfold prototypeTotal. rewrite (totals_quiet h _ Hq), lookup_empty.
  reflexivity.
Qed.

(** What a report that was built holds. *)
Lemma grouped_report h w l r :
  grouped h w l = Resolved (Report r) ->
  (forall k, r !! k = summary h l k)
  /\ (forall record, (exists k g, r !! k = Some g /\ record ∈ items g) <-> record ∈ l)
  /\ (forall record, record ∈ l -> ~ taken h w (categoryOf h record)).
Proof.
  intros Hg.
  assert (Hsum : forall k, r !! k = summary h l k).
  { intros k. apply grouped_resolved in Hg. apply (forEach_summary h l r k _ _ Hg). }
  split; [exact Hsum |]. split.
  - intros record. split.
    + intros (k & g & Hk & Hin). rewrite Hsum in Hk. unfold summary in Hk.
      destruct (members h k l) as [| m ms] eqn:Hm; [discriminate |].
      injection Hk as <-. cbn [items] in Hin. rewrite <- Hm in Hin.
      unfold members in Hin. apply list_elem_of_In, filter_In in Hin as [Hin _].
      apply list_elem_of_In, Hin.
    + intros Hin. exists (categoryOf h record).
      assert (Hmem : record ∈ members h (categoryOf h record) l).
      { unfold members. apply list_elem_of_In, filter_In.
        split; [apply list_elem_of_In, Hin | apply bool_decide_eq_true; reflexivity]. }
      rewrite Hsum. unfold summary.
      destruct (members h (categoryOf h record) l) as [| m ms]; [inversion Hmem |].
      eexists. split; [reflexivity | exact Hmem].
  - intros record Hin Htaken.
    assert (Hthrow : grouped h w l = Rejected (Thrown TypeError))
      by (apply grouped_throws; eauto).
    congruence.
Qed.

Lemma yearly_grouped h storeName year w s r w' :
  opened w storeName s ->
  IndexedDBWrapper.getYearlyReport h storeName year w = (Resolved (Report r), w') ->
  grouped h (listed w storeName)
    (List.filter (IndexedDBWrapper.inYear h year) (Store.getAll s))
    = Resolved (Report r).
Proof.
  intros Hopen Hrun.
  pose proof (getYearlyReport_outcome h storeName year w s Hopen) as Hres.
  rewrite Hrun in Hres. cbn [fst] in Hres.
  destruct (Store.getAll s) as [| x xs]; [discriminate Hres | congruence].
Qed.

Lemma monthly_grouped h storeName month year w s r w' :
  opened w storeName s ->
  IndexedDBWrapper.getMonthlyReport h storeName month year w = (Resolved (Report r), w') ->
  grouped h (listed w storeName)
    (List.filter (IndexedDBWrapper.inMonth h month year) (Store.getAll s))
    = Resolved (Report r).
Proof.
  intros Hopen Hrun.
  pose proof (getMonthlyReport_outcome h storeName month year w s Hopen) as Hres.
  rewrite Hrun in Hres. cbn [fst] in Hres.
  destruct (Store.getAll s) as [| x xs]; [discriminate Hres |].
  destruct (List.filter _ (x :: xs)) as [| m ms]; [discriminate Hres | congruence].
Qed.

(** X12. When [getYearlyReport] resolves to a report, the records among
    its items are exactly the records of the store whose date falls, in
    local time, in the year given, and every key maps to the total and the
    records of its category among them, in the order of the store. *)
Theorem yearly_report_selects_year h storeName year w s r w' :
  opened w storeName s ->
  IndexedDBWrapper.getYearlyReport h storeName year w = (Resolved (Report r), w') ->
  (forall record,
     (exists k g, r !! k = Some g /\ record ∈ items g)
     <-> (record ∈ Store.getAll s /\ in_year_of h year record))
  /\ (forall k,
        r !! k = summary h (List.filter (IndexedDBWrapper.inYear h year)
                              (Store.getAll s)) k).
Proof.
  intros Hopen Hrun.
  destruct (grouped_report h _ _ r (yearly_grouped h storeName year w s r w' Hopen Hrun))
    as (Hsum & Hmem & _).
  split; [| exact Hsum].
  intros record. rewrite Hmem, list_elem_of_In, filter_In, inYear_iff, list_elem_of_In.
  reflexivity.
Qed.

Lemma yearly_report_selects_year_witness :
  (forall record,
     (exists k g,
        ({[ "food" := Group (VNum (Number.of_Z 30)) [withId 1 jan2023; withId 2 jun2023] ]}
           : report) !! k = Some g /\ record ∈ items g)
     <-> (record ∈ Store.getAll exampleStore
          /\ in_year_of utc (VNum (Number.of_Z 2023)) record))
  /\ (forall k,
        ({[ "food" := Group (VNum (Number.of_Z 30)) [withId 1 jan2023; withId 2 jun2023] ]}
           : report) !! k
        = summary utc (List.filter (IndexedDBWrapper.inYear utc (VNum (Number.of_Z 2023)))
                         (Store.getAll exampleStore)) k).
Proof.
  apply (yearly_report_selects_year utc "costs" (VNum (Number.of_Z 2023)) clientWorld
           exampleStore _ (listed clientWorld "costs")).
  - apply worldOf_opened.
  - vm_compute. reflexivity.
Defined.

(** X13. On an open store that holds records, [getYearlyReport] is
    rejected with a TypeError exactly when some record of the year has a
    category whose key is taken: the name of a property every object
    inherits, or "totalSum" once an earlier report has left a total that
    holds a value on [Object.prototype].  When no record of the year has
    such a category it resolves to a report.  As long as no such total
    is there, and so in every world whose trace holds no assignment, the
    keys that are taken are the names of the inherited properties and no
    others. *)
Theorem yearly_report_outcome h storeName year w s :
  opened w storeName s ->
  Store.records s <> [] ->
  (fst (IndexedDBWrapper.getYearlyReport h storeName year w) = Rejected (Thrown TypeError)
   <-> exists record, record ∈ Store.getAll s /\ in_year_of h year record
                      /\ taken h w (categoryOf h record))
  /\ ((forall record, record ∈ Store.getAll s -> in_year_of h year record ->
                      ~ taken h w (categoryOf h record)) ->
      exists r, fst (IndexedDBWrapper.getYearlyReport h storeName year w)
                = Resolved (Report r))
  /\ (ToBoolean (prototypeTotal h w) = false -> forall k, taken h w k <-> k ∈ inherited)
  /\ (additions (log w) = [] -> forall k, taken h w k <-> k ∈ inherited).
Proof.
  intros Hopen Hne.
  rewrite (getYearlyReport_outcome h storeName year w s Hopen).
  destruct (Store.getAll s) as [| x xs] eqn:Hall.
  { unfold Store.getAll in Hall. apply map_eq_nil in Hall. contradiction. }
  rewrite <- Hall. clear Hall x xs.
  set (l := List.filter (IndexedDBWrapper.inYear h year) (Store.getAll s)).
  assert (Hl : forall record, record ∈ l <->
               record ∈ Store.getAll s /\ in_year_of h year record).
  { intros record. unfold l. rewrite !list_elem_of_In, filter_In, inYear_iff.
    reflexivity. }
  assert (Hthrow : grouped h (listed w storeName) l = Rejected (Thrown TypeError) <->
                   exists record, record ∈ l /\ taken h w (categoryOf h record)).
  { rewrite grouped_throws. split; intros (record & Hin & Ht); exists record;
      (split; [exact Hin | apply (taken_listed h w storeName), Ht]). }
  assert (Hfalsy : ToBoolean (prototypeTotal h w) = false ->
                   forall k, taken h w k <-> k ∈ inherited).
  { intros Hf k. unfold taken. rewrite Hf. split; [| auto].
    intros [Hin | [_ Hc]]; [exact Hin | discriminate]. }
  split; [| split; [| split; [exact Hfalsy |]]].
  - rewrite Hthrow. split.
    + intros (record & Hin & Hinh). apply Hl in Hin as [Hin Hy]. eauto.
    + intros (record & Hin & Hy & Hinh). exists record. rewrite Hl. auto.
  - intros Hnone.
    destruct (grouped_rejected h (listed w storeName) l) as [Hr | Hr]; [exact Hr |].
    apply Hthrow in Hr as (record & Hin & Hinh).
    apply Hl in Hin as [Hin Hy]. destruct (Hnone record Hin Hy Hinh).
  - intros Hquiet. apply Hfalsy. apply untouched_prototype, Hquiet.
Qed.

Lemma yearly_report_outcome_witness :
  fst (IndexedDBWrapper.getYearlyReport utc "costs" (VNum (Number.of_Z 2023))
         (worldOf (stored emptyStore clash) ∅))
  = Rejected (Thrown TypeError).
Proof.
  apply (proj1 (yearly_report_outcome utc "costs" (VNum (Number.of_Z 2023))
                  (worldOf (stored emptyStore clash) ∅) (stored emptyStore clash)
                  (worldOf_opened _ _) ltac:(discriminate))).
  exists (keyed 1 clash). split; [| split].
  - vm_compute. apply list_elem_of_here.
  - apply inYear_iff. vm_compute. reflexivity.
  - left. apply (bool_decide_eq_true_1 (categoryOf utc (keyed 1 clash) ∈ inherited)).
    vm_compute. reflexivity.
Defined.

(** X14. The year is compared with [===]: on an open store that holds
    records, a year that is not a number, such as the string "2023", is
    the year of no record, so [getYearlyReport] resolves to the report
    without categories and [getMonthlyReport] to its "No records found"
    text. *)
Theorem year_that_is_not_a_number h storeName month year w s :
  opened w storeName s ->
  Store.records s <> [] ->
  typeof year <> TNumber ->
  fst (IndexedDBWrapper.getYearlyReport h storeName year w) = Resolved (Report ∅)
  /\ fst (IndexedDBWrapper.getMonthlyReport h storeName month year w)
     = Resolved (Text ("No records found for " +:+ ToString h month +:+ "/"
                       +:+ ToString h year +:+ ".")).
Proof.
  intros Hopen Hne Hty.
  assert (Hno : forall record, ~ in_year_of h year record).
  { intros record (t & _ & n & -> & _). apply Hty. reflexivity. }
  split.
  - rewrite (getYearlyReport_outcome h storeName year w s Hopen).
    destruct (Store.getAll s) as [| x xs] eqn:Hall.
    { unfold Store.getAll in Hall. apply map_eq_nil in Hall. contradiction. }
    rewrite filter_none; [apply grouped_nil |].
    intros record _. apply not_true_is_false. rewrite inYear_iff. apply Hno.
  - apply (monthly_message_policy h storeName month year w s Hopen).
    right. intros record _ (t & Ht & _ & Hy). apply (Hno record). exists t. auto.
Qed.

Lemma year_that_is_not_a_number_witness :
  fst (IndexedDBWrapper.getYearlyReport utc "costs" (VStr "2023") clientWorld)
    = Resolved (Report ∅)
  /\ fst (IndexedDBWrapper.getMonthlyReport utc "costs" (VNum (Number.of_Z 1))
            (VStr "2023") clientWorld)
     = Resolved (Text ("No records found for " +:+ ToString utc (VNum (Number.of_Z 1))
                       +:+ "/" +:+ ToString utc (VStr "2023") +:+ ".")).
Proof.
  apply (year_that_is_not_a_number utc "costs" (VNum (Number.of_Z 1)) (VStr "2023")
           clientWorld exampleStore).
  - apply worldOf_opened.
  - discriminate.
  - discriminate.
Defined.

(** X15. Months are counted from 1: a month argument that is none of the
    numbers 1 to 12, such as 0, 13, 1.5 or the string "1", is the month of
    no record, and [getMonthlyReport] on an open store resolves to its "No
    records found" text. *)
Theorem month_off_the_calendar h storeName month year w s :
  opened w storeName s ->
  (forall m, m ∈ calendar_months -> ~ is_integer month m) ->
  fst (IndexedDBWrapper.getMonthlyReport h storeName month year w)
  = Resolved (Text ("No records found for " +:+ ToString h month +:+ "/"
                    +:+ ToString h year +:+ ".")).
Proof.
  intros Hopen Hoff.
  apply (monthly_message_policy h storeName month year w s Hopen).
  right. intros record _ (t & _ & Hm & _).
  apply (Hoff (Calendar.MonthFromTime (LocalTime h t) + 1)); [| exact Hm].
  pose proof (MonthFromTime_range (LocalTime h t)) as Hr.
  set (m := Calendar.MonthFromTime (LocalTime h t)) in *.
  assert (Hcases : m = 0 \/ m = 1 \/ m = 2 \/ m = 3 \/ m = 4 \/ m = 5 \/ m = 6
                   \/ m = 7 \/ m = 8 \/ m = 9 \/ m = 10 \/ m = 11) by lia.
  unfold calendar_months.
  repeat (destruct Hcases as [-> | Hcases];
          [cbn; repeat (apply elem_of_cons; ((left; reflexivity) || right)) |]).
  subst m. rewrite Hcases. cbn.
  repeat (apply elem_of_cons; ((left; reflexivity) || right)).
Qed.

Lemma month_off_the_calendar_witness :
  fst (IndexedDBWrapper.getMonthlyReport utc "costs" (VNum Number.zero)
         (VNum (Number.of_Z 2023)) clientWorld)
  = Resolved (Text ("No records found for " +:+ ToString utc (VNum Number.zero) +:+ "/"
                    +:+ ToString utc (VNum (Number.of_Z 2023)) +:+ ".")).
Proof.
  apply (month_off_the_calendar utc "costs" (VNum Number.zero) (VNum (Number.of_Z 2023))
           clientWorld exampleStore).
  - apply worldOf_opened.
  - intros m Hm (n & [= <-] & Heq). unfold calendar_months in Hm.
    repeat (apply elem_of_cons in Hm as [-> | Hm]; [vm_compute in Heq; discriminate |]).
    inversion Hm.
Defined.


Lemma filter_filter_sublist {A} (c f g : A -> bool) l :
  (forall x, f x = true -> g x = true) ->
  sublist (List.filter c (List.filter f l)) (List.filter c (List.filter g l)).
Proof.
  intros Hfg. induction l as [| x l IH]; cbn; [constructor |].
  destruct (f x) eqn:Ef.
  - rewrite (Hfg x Ef). cbn. destruct (c x); [apply sublist_skip, IH | exact IH].
  - destruct (g x); cbn; [| exact IH].
    destruct (c x); [apply sublist_cons, IH | exact IH].
Qed.

Lemma inMonth_inYear h month year record :
  IndexedDBWrapper.inMonth h month year record = true ->
  IndexedDBWrapper.inYear h year record = true.
Proof.
  unfold IndexedDBWrapper.inMonth. fold (IndexedDBWrapper.inYear h year record).
  intros Hm. apply andb_true_iff in Hm. tauto.
Qed.

(** X16. The report of a month lies within the report of its year: when
    both calls resolve to reports on the same store, every category of the
    monthly report is a category of the yearly one, and its items are
    items of the yearly group, in the same order. *)
Theorem monthly_within_yearly h storeName month year w s rm ry wm wy :
  opened w storeName s ->
  IndexedDBWrapper.getMonthlyReport h storeName month year w = (Resolved (Report rm), wm) ->
  IndexedDBWrapper.getYearlyReport h storeName year w = (Resolved (Report ry), wy) ->
  forall k gm, rm !! k = Some gm ->
    exists gy, ry !! k = Some gy /\ sublist (items gm) (items gy).
Proof.
  intros Hopen Hm Hy k gm Hk.
  destruct (grouped_report h _ _ rm (monthly_grouped h storeName month year w s rm wm Hopen Hm))
    as (Hsm & _ & _).
  destruct (grouped_report h _ _ ry (yearly_grouped h storeName year w s ry wy Hopen Hy))
    as (Hsy & _ & _).
  rewrite Hsm in Hk. rewrite Hsy. unfold summary, members in *.
  pose proof (filter_filter_sublist
                (fun record => bool_decide (categoryOf h record = k))
                (IndexedDBWrapper.inMonth h month year)
                (IndexedDBWrapper.inYear h year)
                (Store.getAll s) (inMonth_inYear h month year)) as Hsub.
  destruct (List.filter _ (List.filter (IndexedDBWrapper.inMonth h month year) _))
    as [| m ms]; [discriminate |].
  injection Hk as <-. cbn [items].
  destruct (List.filter _ (List.filter (IndexedDBWrapper.inYear h year) _))
    as [| y ys].
  - apply sublist_nil_r in Hsub. discriminate.
  - eexists. split; [reflexivity | exact Hsub].
Qed.

Lemma monthly_within_yearly_witness :
  exists gy,
    ({[ "food" := Group (VNum (Number.of_Z 30)) [withId 1 jan2023; withId 2 jun2023] ]}
       : report) !! "food" = Some gy
    /\ sublist (items (Group (VNum (Number.of_Z 10)) [withId 1 jan2023])) (items gy).
Proof.
  apply (monthly_within_yearly utc "costs" (VNum (Number.of_Z 1))
           (VNum (Number.of_Z 2023)) clientWorld exampleStore
           {[ "food" := Group (VNum (Number.of_Z 10)) [withId 1 jan2023] ]} _
           (listed clientWorld "costs") (listed clientWorld "costs")).
  - apply worldOf_opened.
  - vm_compute. reflexivity.
  - vm_compute. reflexivity.
  - vm_compute. reflexivity.
Defined.

(** X17. The guards ask of the date only that it hold a value: a record
    whose date cannot be read as a date passes them and is stored, and is
    then the record of no year and no month.  After it was added to an
    empty store, [getAll] lists it, [getYearlyReport] resolves to the
    report without categories for every year, and [getMonthlyReport] to
    its "No records found" text for every month and year. *)
Theorem unreadable_date_is_never_reported h storeName data w d s month year :
  heap w !! data = Some d ->
  verdict d = None ->
  Date_new h (get d "date") = None ->
  opened w storeName s ->
  Store.records s = [] ->
  Store.keyGenerator s <= Store.maxGenerated ->
  exists w1,
    IndexedDBWrapper.addOrUpdate h storeName data w = (Resolved IndexedDBWrapper.added, w1)
    /\ fst (IndexedDBWrapper.getAll storeName w1)
       = Resolved [keyed (Store.keyGenerator s) d]
    /\ fst (IndexedDBWrapper.getYearlyReport h storeName year w1) = Resolved (Report ∅)
    /\ fst (IndexedDBWrapper.getMonthlyReport h storeName month year w1)
       = Resolved (Text ("No records found for " +:+ ToString h month +:+ "/"
                         +:+ ToString h year +:+ ".")).
Proof.
  intros Hd Hv Hdate Hopen Hempty Hlive.
  pose proof (proj1 (store_of_opened _ _ _) Hopen) as Hstore.
  rewrite (addOrUpdate_stored h storeName data w d s Hd Hv Hopen Hlive).
  set (w1 := {| heap := stripped data d (heap w);
                db := <[storeName := stored s d]> <$> db w;
                log := _ |}).
  assert (Hopen1 : opened w1 storeName (stored s d)).
  { apply store_of_opened. apply (store_of_commit _ _ _ _ s). destruct w; exact Hstore. }
  assert (Hall : Store.getAll (stored s d) = [keyed (Store.keyGenerator s) d]).
  { unfold Store.getAll, stored. cbn [Store.records]. rewrite Hempty. reflexivity. }
  assert (Hunread : Date_new h (get (keyed (Store.keyGenerator s) d) "date") = None).
  { unfold keyed, get. rewrite lookup_insert_ne by discriminate.
    rewrite lookup_delete_ne by discriminate. exact Hdate. }
  exists w1. split; [reflexivity |].
  split; [rewrite (getAll_opened w1 storeName _ Hopen1), Hall; reflexivity |].
  split.
  - rewrite (getYearlyReport_outcome h storeName year w1 _ Hopen1), Hall.
    cbn [List.filter]. unfold IndexedDBWrapper.inYear. rewrite Hunread. cbn.
    destruct year; reflexivity.
  - apply (monthly_message_policy h storeName month year w1 _ Hopen1).
    right. rewrite Hall. intros record Hin (t & Ht & _).
    apply list_elem_of_singleton in Hin as ->. congruence.
Qed.

Lemma unreadable_date_is_never_reported_witness :
  exists w1,
    IndexedDBWrapper.addOrUpdate utc "costs" 1%positive
      (worldOf emptyStore (mkRecord "soon" (Number.of_Z 10) "food"))
      = (Resolved IndexedDBWrapper.added, w1)
    /\ fst (IndexedDBWrapper.getAll "costs" w1)
       = Resolved [keyed (Store.keyGenerator emptyStore)
                     (mkRecord "soon" (Number.of_Z 10) "food")]
    /\ fst (IndexedDBWrapper.getYearlyReport utc "costs" (VNum (Number.of_Z 2023)) w1)
       = Resolved (Report ∅)
    /\ fst (IndexedDBWrapper.getMonthlyReport utc "costs" (VNum (Number.of_Z 1))
              (VNum (Number.of_Z 2023)) w1)
       = Resolved (Text ("No records found for " +:+ ToString utc (VNum (Number.of_Z 1))
                         +:+ "/" +:+ ToString utc (VNum (Number.of_Z 2023)) +:+ ".")).
Proof.
  apply (unreadable_date_is_never_reported utc "costs" 1%positive _
           (mkRecord "soon" (Number.of_Z 10) "food") emptyStore).
  - vm_compute. reflexivity.
  - vm_compute. reflexivity.
  - vm_compute. reflexivity.
  - apply worldOf_opened.
  - reflexivity.
  - vm_compute. discriminate.
Defined.

(** X18. A report, yearly or monthly, has no empty group and no key that
    is a property every object inherits: each key maps to at least one
    item, every item of a group has the key of the group as its category,
    and the total of the group is the sum of the [sum] fields of its
    items, added in order from 0. *)
Theorem report_groups h storeName month year w r :
  fst (IndexedDBWrapper.getYearlyReport h storeName year w) = Resolved (Report r)
  \/ fst (IndexedDBWrapper.getMonthlyReport h storeName month year w)
     = Resolved (Report r) ->
  forall k g, r !! k = Some g ->
    items g <> []
    /\ (forall record, record ∈ items g -> categoryOf h record = k)
    /\ totalSum g = total h (items g)
    /\ k ∉ inherited.
Proof.
  intros Hrun.
  assert (Hg : exists w0 l, grouped h w0 l = Resolved (Report r)).
  { destruct Hrun as [Hy | Hm].
    - destruct (IndexedDBWrapper.getYearlyReport h storeName year w) as [res wy] eqn:Hr.
      cbn in Hy. subst res.
      destruct (getYearlyReport_resolved _ _ _ _ _ _ Hr) as [s Hopen].
      eexists _, _. exact (yearly_grouped h storeName year w s r wy Hopen Hr).
    - destruct (IndexedDBWrapper.getMonthlyReport h storeName month year w)
        as [res wm] eqn:Hr.
      cbn in Hm. subst res.
      destruct (getMonthlyReport_resolved _ _ _ _ _ _ _ Hr) as [s Hopen].
      eexists _, _. exact (monthly_grouped h storeName month year w s r wm Hopen Hr). }
  destruct Hg as (w0 & l & Hg).
  destruct (grouped_report h w0 l r Hg) as (Hsum & _ & Hinh).
  intros k g Hk. rewrite Hsum in Hk. unfold summary in Hk.
  destruct (members h k l) as [| m ms] eqn:Hm; [discriminate |].
  injection Hk as <-. cbn [items totalSum]. rewrite <- Hm.
  assert (Hmem : forall record, record ∈ members h k l ->
                 record ∈ l /\ categoryOf h record = k).
  { intros record Hin. unfold members in Hin.
    apply list_elem_of_In, filter_In in Hin as [Hin Hc].
    split; [apply list_elem_of_In, Hin | apply bool_decide_eq_true in Hc; exact Hc]. }
  split; [rewrite Hm; discriminate |].
  split; [intros record Hin; apply (Hmem record Hin) |].
  split; [reflexivity |].
  assert (Hfirst : m ∈ members h k l) by (rewrite Hm; apply list_elem_of_here).
  destruct (Hmem m Hfirst) as [Hin <-]. intros Hc. apply (Hinh m Hin). left. exact Hc.
Qed.

Lemma report_groups_witness :
  items (Group (VNum (Number.of_Z 30)) [withId 1 jan2023; withId 2 jun2023]) <> []
  /\ (forall record,
        record ∈ items (Group (VNum (Number.of_Z 30)) [withId 1 jan2023; withId 2 jun2023]) ->
        categoryOf utc record = "food")
  /\ totalSum (Group (VNum (Number.of_Z 30)) [withId 1 jan2023; withId 2 jun2023])
     = total utc (items (Group (VNum (Number.of_Z 30)) [withId 1 jan2023; withId 2 jun2023]))
  /\ "food" ∉ inherited.
Proof.
  apply (report_groups utc "costs" (VNum (Number.of_Z 1)) (VNum (Number.of_Z 2023))
           clientWorld
           {[ "food" := Group (VNum (Number.of_Z 30)) [withId 1 jan2023; withId 2 jun2023] ]}).
  - left. vm_compute. reflexivity.
  - vm_compute. reflexivity.
Defined.


(** ** What the wrapper keeps true of its stores *)

Lemma verdict_keyed g d : verdict (keyed g d) = verdict d.
Proof.
  assert (Hget : forall k, k <> "id" -> get (keyed g d) k = get d k).
  { intros k Hk. unfold get, keyed. rewrite lookup_insert_ne by congruence.
    rewrite lookup_delete_ne by congruence. reflexivity. }
  unfold verdict, date_rejected, sum_rejected, category_rejected.
  rewrite !Hget by discriminate. reflexivity.
Qed.

Lemma kept_empty : kept emptyStore.
Proof.
  split; [vm_compute; split; discriminate |].
  exists []. repeat split; constructor.
Qed.

Lemma StronglySorted_snoc ids g :
  StronglySorted Z.lt ids -> Forall (fun i => i < g) ids ->
  StronglySorted Z.lt (ids ++ [g])%list.
Proof.
  induction 1 as [| i ids Hs IH Hall]; intros Hlt; cbn.
  - constructor; constructor.
  - inversion Hlt as [| ? ? Hi Hrest]; subst. constructor; [apply IH, Hrest |].
    apply Forall_app. split; [exact Hall | constructor; [exact Hi | constructor]].
Qed.

Lemma kept_generated s : kept s -> generated s.
Proof.
  intros (Hg & ids & _ & Hrange & Hfiled). split; [lia |].
  intros k v Hin.
  apply list_elem_of_lookup in Hin as [n Hn].
  destruct (Forall2_lookup_r _ _ _ _ _ Hfiled Hn) as (i & Hi & (Hk & _)).
  exists i. split; [| exact Hk].
  exact (proj1 (Forall_lookup _ _) Hrange n i Hi).
Qed.

Lemma kept_stored s d :
  kept s -> verdict d = None -> Store.keyGenerator s <= Store.maxGenerated ->
  kept (stored s d).
Proof.
  intros Hkept Hv Hlive. pose proof (kept_generated s Hkept) as Hgen.
  destruct Hkept as (Hg & ids & Hsorted & Hrange & Hfiled).
  split; [cbn; lia |].
  exists (ids ++ [Store.keyGenerator s])%list. split; [| split].
  - apply StronglySorted_snoc; [exact Hsorted |].
    eapply Forall_impl; [exact Hrange |]. cbn. intros i Hi. lia.
  - apply Forall_app. split.
    + eapply Forall_impl; [exact Hrange |]. cbn. intros i Hi. lia.
    + constructor; [cbn; lia | constructor].
  - unfold stored. cbn [Store.records]. rewrite store_record_last.
    + apply Forall2_app; [exact Hfiled |]. constructor; [| constructor].
      split; [reflexivity |]. split.
      * unfold get. cbn [snd]. rewrite lookup_insert_eq. reflexivity.
      * cbn [snd]. fold (keyed (Store.keyGenerator s) d). rewrite verdict_keyed. exact Hv.
    + intros k' v' Hin. exact (proj1 (generated_below s k' v' Hgen Hlive Hin)).
Qed.

Lemma StronglySorted_filter f ids :
  StronglySorted Z.lt ids -> StronglySorted Z.lt (List.filter f ids).
Proof.
  induction 1 as [| i ids Hs IH Hall]; cbn; [constructor |].
  destruct (f i); [| exact IH]. constructor; [exact IH |].
  apply List.Forall_forall. intros x Hx. apply filter_In in Hx as [Hx _].
  exact (proj1 (List.Forall_forall _ _) Hall x Hx).
Qed.

Lemma Forall2_filter {A B} (P : A -> B -> Prop) f g l1 l2 :
  Forall2 P l1 l2 ->
  (forall x y, P x y -> f x = g y) ->
  Forall2 P (List.filter f l1) (List.filter g l2).
Proof.
  intros Hall Hfg. induction Hall as [| x y l1 l2 Hxy Hall IH]; cbn; [constructor |].
  rewrite (Hfg x y Hxy). destruct (g y); [constructor; assumption | exact IH].
Qed.

Lemma kept_delete s k : kept s -> kept (Store.delete s k).
Proof.
  intros (Hg & ids & Hsorted & Hrange & Hfiled). split; [exact Hg |].
  exists (List.filter
            (fun i => negb (Store.key_eqb (Store.KNumber (Number.of_Z i)) k)) ids).
  split; [apply StronglySorted_filter, Hsorted |]. split.
  - apply List.Forall_forall. intros i Hi. apply filter_In in Hi as [Hi _].
    exact (proj1 (List.Forall_forall _ _) Hrange i Hi).
  - unfold Store.delete, Store.delete_record. cbn [Store.records].
    apply Forall2_filter; [exact Hfiled |].
    intros i kv (Hk & _). rewrite Hk. reflexivity.
Qed.

Lemma all_kept_commit w hp lg storeName s' :
  all_kept w ->
  kept s' ->
  all_kept {| heap := hp; db := <[storeName := s']> <$> db w; log := lg |}.
Proof.
  intros Hall Hs' name s Hs. unfold store_of in Hs. cbn in Hs.
  destruct (db w) as [d |] eqn:Hdb; cbn in Hs; [| discriminate].
  destruct (decide (storeName = name)) as [-> | Hne].
  - rewrite lookup_insert_eq in Hs. injection Hs as <-. exact Hs'.
  - rewrite lookup_insert_ne in Hs by exact Hne. apply (Hall name).
    unfold store_of. rewrite Hdb. exact Hs.
Qed.

Lemma all_kept_db w w' : db w' = db w -> all_kept w -> all_kept w'.
Proof. intros Hdb Hall name s Hs. apply (Hall name). unfold store_of in *. congruence. Qed.

Lemma addOrUpdate_all_kept h storeName data w :
  all_kept w -> all_kept (snd (IndexedDBWrapper.addOrUpdate h storeName data w)).
Proof.
  intros Hall.
  destruct (heap w !! data) as [d |] eqn:Hd.
  2:{ rewrite (addOrUpdate_dangling h storeName data w Hd). exact Hall. }
  destruct (verdict d) as [msg |] eqn:Hv.
  { rewrite (addOrUpdate_rejected h storeName data w d msg Hd Hv). exact Hall. }
  destruct (store_of w storeName) as [s |] eqn:Hs.
  2:{ destruct (addOrUpdate_unopened h storeName data w d Hd Hv Hs)
        as (e & w0 & Hrun0 & _ & Hdb & _).
      rewrite Hrun0. exact (all_kept_db w w0 Hdb Hall). }
  pose proof (proj2 (store_of_opened _ _ _) Hs) as Hopen.
  destruct (Z_le_gt_dec (Store.keyGenerator s) Store.maxGenerated) as [Hg | Hg].
  - rewrite (addOrUpdate_stored h storeName data w d s Hd Hv Hopen Hg). cbn [snd].
    apply all_kept_commit; [exact Hall |].
    apply kept_stored; [apply (Hall storeName), Hs | exact Hv | exact Hg].
  - rewrite (addOrUpdate_exhausted h storeName data w d s Hd Hv Hopen) by lia.
    apply (all_kept_db w); [reflexivity | exact Hall].
Qed.

Lemma delete_all_kept storeName key w :
  all_kept w -> all_kept (snd (IndexedDBWrapper.delete storeName key w)).
Proof.
  intros Hall. unfold IndexedDBWrapper.delete. unfold bind at 1.
  destruct (IndexedDBWrapper.transaction storeName ReadWrite w) as [[s | r] w1] eqn:Ht.
  - pose proof (transaction_resolved _ _ _ _ _ Ht) as Hopen.
    rewrite (transaction_opened _ _ _ _ Hopen) in Ht. injection Ht as <-.
    unfold bind, IndexedDBWrapper.call, IndexedDBWrapper.commit, ret, throw. cbn.
    destruct (Store.key_of_value key) as [k |]; cbn.
    + apply (all_kept_commit w); [exact Hall |].
      apply kept_delete, (Hall storeName), store_of_opened, Hopen.
    + apply (all_kept_db w); [reflexivity | exact Hall].
  - cbn. apply (all_kept_db w); [| exact Hall].
    exact (transaction_db _ _ _ _ _ Ht).
Qed.

Lemma reachable_all_kept h w : reachable h w -> all_kept w.
Proof.
  induction 1 as [w Hfresh | w w' Hreach IH Hstep].
  - intros name s Hs. rewrite (Hfresh name s Hs). exact kept_empty.
  - destruct Hstep as [name data w | name w | name key w | name year w
                      | name month year w | hp w].
    + apply addOrUpdate_all_kept, IH.
    + apply (all_kept_db w); [| exact IH].
      apply (getAll_read_only name w).
    + apply delete_all_kept, IH.
    + apply (all_kept_db w); [| exact IH]. apply getYearlyReport_db.
    + apply (all_kept_db w); [| exact IH]. apply getMonthlyReport_db.
    + apply (all_kept_db w); [reflexivity | exact IH].
Qed.

Lemma of_Z_distinct i j :
  1 <= i < j -> j <= Store.maxGenerated -> Number.of_Z i <> Number.of_Z j.
Proof.
  intros Hij Hj Heq.
  pose proof (of_Z_lt i j ltac:(lia) Hj) as Hlt.
  pose proof (SFcompare_Lt_Gt _ _ Hlt) as Hgt.
  rewrite Heq in Hlt. congruence.
Qed.

Lemma filed_keys_distinct g ids recs :
  g <= Store.maxGenerated + 1 ->
  StronglySorted Z.lt ids ->
  Forall (fun i => 1 <= i < g) ids ->
  Forall2 filed ids recs ->
  NoDup (map fst recs).
Proof.
  intros Hg Hsorted Hrange Hfiled. revert Hsorted Hrange.
  induction Hfiled as [| i kv ids recs (Hk & _) Hfiled IH]; intros Hsorted Hrange; cbn.
  - constructor.
  - inversion Hsorted as [| ? ? Hs Hall]; subst.
    inversion Hrange as [| ? ? Hi Hrest]; subst.
    apply NoDup_cons. split; [| exact (IH Hs Hrest)].
    intros Hin. apply list_elem_of_In, in_map_iff in Hin as (kv' & Heq & Hin).
    apply list_elem_of_In, list_elem_of_lookup in Hin as [n Hn].
    destruct (Forall2_lookup_r _ _ _ _ _ Hfiled Hn) as (j & Hj & (Hk' & _)).
    pose proof (proj1 (List.Forall_forall _ _) Hall j
                  (proj1 (list_elem_of_In _ _) (list_elem_of_lookup_2 _ _ _ Hj))) as Hij.
    pose proof (proj1 (Forall_lookup _ _) Hrest n j Hj) as Hjr.
    cbn beta in Hjr.
    apply (of_Z_distinct i j); [lia | lia | congruence].
Qed.

(** X19. In every world a page gets to from stores that were just created,
    by calls of [addOrUpdate], [getAll], [delete] and the two reports in
    any order, with the caller changing its objects in between, each store
    lists its records by strictly increasing integers the generator has
    given out: no two records share a key, each record carries its key as
    its [id], and each record passes the guards of [addOrUpdate]. *)
Theorem stores_stay_kept h w :
  reachable h w ->
  forall storeName s, store_of w storeName = Some s ->
    kept s
    /\ NoDup (map fst (Store.records s))
    /\ forall k v, (k, v) ∈ Store.records s ->
         verdict v = None /\ Store.key_of_value (get v "id") = Some k.
Proof.
  intros Hreach name s Hs.
  pose proof (reachable_all_kept h w Hreach name s Hs) as Hkept.
  split; [exact Hkept |].
  destruct Hkept as (Hg & ids & Hsorted & Hrange & Hfiled).
  split; [apply (filed_keys_distinct (Store.keyGenerator s) ids); [lia | assumption ..] |].
  intros k v Hin. apply list_elem_of_lookup in Hin as [n Hn].
  destruct (Forall2_lookup_r _ _ _ _ _ Hfiled Hn) as (i & Hi & (Hk & Hid & Hv)).
  pose proof (proj1 (Forall_lookup _ _) Hrange n i Hi) as Hir.
  cbn [fst snd] in *. split; [exact Hv |].
  rewrite Hid, Hk. apply key_of_generated. lia.
Qed.

Lemma ledger_reachable : reachable utc ledger.
Proof.
  apply reachable_created. intros name s Hs. unfold store_of in Hs. cbn in Hs.
  destruct (decide (name = "costs")) as [-> | Hne].
  - rewrite lookup_singleton_eq in Hs. congruence.
  - rewrite lookup_singleton_ne in Hs by congruence. discriminate.
Qed.

Lemma stores_stay_kept_witness :
  kept (stored (stored emptyStore jan2023) jun2023)
  /\ NoDup (map fst (Store.records (stored (stored emptyStore jan2023) jun2023)))
  /\ forall k v, (k, v) ∈ Store.records (stored (stored emptyStore jan2023) jun2023) ->
       verdict v = None /\ Store.key_of_value (get v "id") = Some k.
Proof.
  apply (stores_stay_kept utc
           (snd (IndexedDBWrapper.addOrUpdate utc "costs" 2%positive
              (snd (IndexedDBWrapper.addOrUpdate utc "costs" 1%positive ledger))))
           (reachable_step utc _ _
              (reachable_step utc _ _ ledger_reachable
                 (step_addOrUpdate utc "costs" 1%positive ledger))
              (step_addOrUpdate utc "costs" 2%positive _))
           "costs").
  vm_compute. reflexivity.
Defined.


Lemma report_source h storeName month year w r :
  fst (IndexedDBWrapper.getYearlyReport h storeName year w) = Resolved (Report r)
  \/ fst (IndexedDBWrapper.getMonthlyReport h storeName month year w)
     = Resolved (Report r) ->
  exists s w0 l,
    opened w storeName s
    /\ grouped h w0 l = Resolved (Report r)
    /\ forall record, record ∈ l -> record ∈ Store.getAll s.
Proof.
  intros [Hy | Hm].
  - destruct (IndexedDBWrapper.getYearlyReport h storeName year w) as [res wy] eqn:Hr.
    cbn in Hy. subst res.
    destruct (getYearlyReport_resolved _ _ _ _ _ _ Hr) as [s Hopen].
    exists s. eexists _, _. split; [exact Hopen |].
    split; [exact (yearly_grouped h storeName year w s r wy Hopen Hr) |].
    intros record Hin. apply list_elem_of_In, filter_In in Hin as [Hin _].
    apply list_elem_of_In, Hin.
  - destruct (IndexedDBWrapper.getMonthlyReport h storeName month year w)
      as [res wm] eqn:Hr.
    cbn in Hm. subst res.
    destruct (getMonthlyReport_resolved _ _ _ _ _ _ _ Hr) as [s Hopen].
    exists s. eexists _, _. split; [exact Hopen |].
    split; [exact (monthly_grouped h storeName month year w s r wm Hopen Hr) |].
    intros record Hin. apply list_elem_of_In, filter_In in Hin as [Hin _].
    apply list_elem_of_In, Hin.
Qed.

Lemma passes_has_number v : verdict v = None -> get v "sum" = VNum (amount v).
Proof.
  intros Hv. apply verdict_none in Hv as (_ & Hsum & _).
  unfold sum_rejected in Hsum. apply orb_false_iff in Hsum as [Hty _].
  apply negb_false_iff, bool_decide_eq_true in Hty.
  unfold amount. destruct (get v "sum"); try discriminate. reflexivity.
Qed.

Lemma fold_numbers h l n :
  (forall record, record ∈ l -> get record "sum" = VNum (amount record)) ->
  fold_left (fun acc record => js_add h acc (get record "sum")) l (VNum n)
  = VNum (fold_left (fun acc record => Number.add acc (amount record)) l n).
Proof.
  revert n. induction l as [| x l IH]; intros n Hall; cbn; [reflexivity |].
  rewrite (Hall x (list_elem_of_here _ _)). cbn. apply IH.
  intros record Hin. apply Hall, list_elem_of_further, Hin.
Qed.

(** X20. In every world a page gets to from stores that were just created,
    the total of each group of a report, yearly or monthly, is a number:
    the sums of the items of the group added as doubles, in the order of
    the store, from 0.  The [+=] of the grouping never concatenates
    strings there, since every stored sum has passed the guard that asks
    for a number. *)
Theorem totals_are_numbers h storeName month year w r :
  reachable h w ->
  fst (IndexedDBWrapper.getYearlyReport h storeName year w) = Resolved (Report r)
  \/ fst (IndexedDBWrapper.getMonthlyReport h storeName month year w)
     = Resolved (Report r) ->
  forall k g, r !! k = Some g ->
    totalSum g
    = VNum (fold_left (fun acc record => Number.add acc (amount record))
              (items g) Number.zero).
Proof.
  intros Hreach Hrun k g Hk.
  destruct (report_source h storeName month year w r Hrun)
    as (s & w0 & l & Hopen & Hg & Hsrc).
  pose proof (reachable_all_kept h w Hreach storeName s
                (proj1 (store_of_opened _ _ _) Hopen)) as (_ & ids & _ & _ & Hfiled).
  destruct (grouped_report h w0 l r Hg) as (Hsum & Hmem & _).
  assert (Hin : forall record, record ∈ items g ->
                get record "sum" = VNum (amount record)).
  { intros record Hrec. apply passes_has_number.
    assert (Hl : record ∈ l) by (apply Hmem; eauto).
    apply Hsrc in Hl. unfold Store.getAll in Hl.
    apply list_elem_of_In, in_map_iff in Hl as ([k0 v0] & <- & Hkv).
    apply list_elem_of_In, list_elem_of_lookup in Hkv as [n Hn].
    destruct (Forall2_lookup_r _ _ _ _ _ Hfiled Hn) as (i & _ & (_ & _ & Hv)).
    exact Hv. }
  rewrite Hsum in Hk. unfold summary in Hk.
  destruct (members h k l) as [| m ms] eqn:Hm; [discriminate |].
  injection Hk as <-. cbn [items totalSum] in *.
  unfold total. apply fold_numbers. exact Hin.
Qed.

Lemma totals_are_numbers_witness :
  totalSum (Group (VNum (Number.of_Z 30)) [withId 1 jan2023; withId 2 jun2023])
  = VNum (fold_left (fun acc record => Number.add acc (amount record))
            (items (Group (VNum (Number.of_Z 30)) [withId 1 jan2023; withId 2 jun2023]))
            Number.zero).
Proof.
  apply (totals_are_numbers utc "costs" (VNum (Number.of_Z 1)) (VNum (Number.of_Z 2023))
           (snd (IndexedDBWrapper.addOrUpdate utc "costs" 3%positive
              (snd (IndexedDBWrapper.addOrUpdate utc "costs" 2%positive
                 (snd (IndexedDBWrapper.addOrUpdate utc "costs" 1%positive ledger))))))
           {[ "food" := Group (VNum (Number.of_Z 30)) [withId 1 jan2023; withId 2 jun2023] ]})
    with (k := "food").
  - apply (reachable_step utc _ _
             (reachable_step utc _ _
                (reachable_step utc _ _ ledger_reachable
                   (step_addOrUpdate utc "costs" 1%positive ledger))
                (step_addOrUpdate utc "costs" 2%positive _))
             (step_addOrUpdate utc "costs" 3%positive _)).
  - left. vm_compute. reflexivity.
  - vm_compute. reflexivity.
Defined.

(** Outside such worlds the grouping does concatenate: stored sums that
    are strings turn the total into a string. *)
Example total_of_string_sums h :
  total h [<["sum" := VStr "10"]> jan2023; <["sum" := VStr "20"]> jun2023]
  = VStr ((numberToString h Number.zero +:+ "10") +:+ "20").
Proof.
  unfold total. cbn [fold_left].
  replace (get (<["sum" := VStr "10"]> jan2023) "sum") with (VStr "10")
    by (vm_compute; reflexivity).
  replace (get (<["sum" := VStr "20"]> jun2023) "sum") with (VStr "20")
    by (vm_compute; reflexivity).
  reflexivity.
Qed.

(** ** Opening *)

Lemma getAll_no_store storeName w stores :
  db w = Some stores -> stores !! storeName = None ->
  fst (IndexedDBWrapper.getAll storeName w) = Rejected (Thrown NotFoundError).
Proof. intros Hdb Hs. rewrite getAll_run, Hdb, Hs. reflexivity. Qed.

Lemma delete_no_store storeName key w stores :
  db w = Some stores -> stores !! storeName = None ->
  fst (IndexedDBWrapper.delete storeName key w) = Rejected (Thrown NotFoundError).
Proof.
  intros Hdb Hs. unfold IndexedDBWrapper.delete. unfold bind at 1.
  rewrite (transaction_no_store storeName ReadWrite w stores Hdb Hs). reflexivity.
Qed.

Lemma Factory_open_new dbs name v :
  dbs !! name = None -> 1 <= v <= Lifecycle.Factory.maxVersion ->
  Lifecycle.Factory.open dbs name v false = Lifecycle.Factory.Success true ∅.
Proof.
  intros Hnew [Hlo Hhi]. unfold Lifecycle.Factory.open. rewrite Hnew.
  destruct (Z.ltb_spec v 1); [lia |].
  destruct (Z.ltb_spec Lifecycle.Factory.maxVersion v); [lia | reflexivity].
Qed.

Lemma Factory_open_stored dbs name v v0 stores held :
  dbs !! name = Some (v0, stores) -> 1 <= v <= Lifecycle.Factory.maxVersion ->
  Lifecycle.Factory.open dbs name v held
  = if v <? v0 then Lifecycle.Factory.Error
    else if v0 <? v
         then (if held then Lifecycle.Factory.Blocked
               else Lifecycle.Factory.Success true stores)
         else Lifecycle.Factory.Success false stores.
Proof.
  intros Hdb [Hlo Hhi]. unfold Lifecycle.Factory.open. rewrite Hdb.
  destruct (Z.ltb_spec v 1); [lia |].
  destruct (Z.ltb_spec Lifecycle.Factory.maxVersion v); [lia | reflexivity].
Qed.

Lemma not_connected w : db w = None -> bool_decide (db w <> None) = false.
Proof. intros ->. apply bool_decide_eq_false_2. auto. Qed.


(** X21. From the constructor to a listed record: on an origin that has
    no database of the name, [open] with a version from 1 and an upgrade
    routine that creates the store empty resolves, records the database
    at that version, and leaves the wrapper such that [addOrUpdate] of a
    record that passes the guards resolves and [getAll] then lists that
    one record, with 1 as its [id]. *)
Theorem first_open_then_use h this routine stores dbs hp storeName data d :
  dbs !! Lifecycle.dbName this = None ->
  1 <= Lifecycle.version this <= Lifecycle.Factory.maxVersion ->
  Lifecycle.upgradeCallback this = Some routine ->
  routine ∅ = Some stores ->
  stores !! storeName = Some emptyStore ->
  hp !! data = Some d ->
  verdict d = None ->
  exists dbs' w0 w1,
    Lifecycle.open h this dbs (Lifecycle.constructed hp)
      = (Lifecycle.Settled (Resolved stores), dbs', w0)
    /\ dbs' !! Lifecycle.dbName this = Some (Lifecycle.version this, stores)
    /\ IndexedDBWrapper.addOrUpdate h storeName data w0
       = (Resolved IndexedDBWrapper.added, w1)
    /\ fst (IndexedDBWrapper.getAll storeName w1) = Resolved [keyed 1 d].
Proof.
  intros Hnew Hv Hcb Hran Hstore Hd Hpass.
  unfold Lifecycle.open. rewrite (not_connected (Lifecycle.constructed hp) eq_refl).
  rewrite (Factory_open_new _ _ _ Hnew Hv), Hcb. cbn zeta.
  rewrite Hran.
  set (w0 := {| heap := _; db := Some stores; log := _ |}).
  assert (Hopen : opened w0 storeName emptyStore) by (exists stores; auto).
  eexists _, w0, _. split; [reflexivity |].
  split; [apply lookup_insert_eq |].
  split.
  - apply (addOrUpdate_stored h storeName data w0 d emptyStore Hd Hpass Hopen).
    vm_compute. discriminate.
  - set (w1 := {| heap := _; db := _; log := _ |}).
    assert (Hopen1 : opened w1 storeName (stored emptyStore d)).
    { apply store_of_opened. unfold w1.
      apply (store_of_commit _ _ _ _ emptyStore), store_of_opened, Hopen. }
    rewrite (getAll_opened w1 storeName _ Hopen1). reflexivity.
Qed.

Lemma first_open_then_use_witness :
  exists dbs' w0 w1,
    Lifecycle.open utc (Lifecycle.Settings "ledger" 1 (Some createCosts)) ∅
      (Lifecycle.constructed {[ 1%positive := jan2023 ]})
      = (Lifecycle.Settled (Resolved {[ "costs" := emptyStore ]}), dbs', w0)
    /\ dbs' !! "ledger" = Some (1, {[ "costs" := emptyStore ]})
    /\ IndexedDBWrapper.addOrUpdate utc "costs" 1%positive w0
       = (Resolved IndexedDBWrapper.added, w1)
    /\ fst (IndexedDBWrapper.getAll "costs" w1) = Resolved [keyed 1 jan2023].
Proof.
  apply (first_open_then_use utc (Lifecycle.Settings "ledger" 1 (Some createCosts))
           createCosts {[ "costs" := emptyStore ]} ∅ {[ 1%positive := jan2023 ]}
           "costs" 1%positive jan2023).
  - reflexivity.
  - vm_compute. split; discriminate.
  - reflexivity.
  - reflexivity.
  - vm_compute. reflexivity.
  - vm_compute. reflexivity.
  - vm_compute. reflexivity.
Defined.

(** X22. A wrapper constructed without an upgrade routine opens a database
    that is not there yet as a database without stores: [open] resolves,
    and from then on [getAll], [delete] and, for a record that passes the
    guards, [addOrUpdate] are rejected with NotFoundError whatever the
    store name, and so are the reports. *)
Theorem open_without_routine h this dbs hp storeName data d key month year :
  dbs !! Lifecycle.dbName this = None ->
  1 <= Lifecycle.version this <= Lifecycle.Factory.maxVersion ->
  Lifecycle.upgradeCallback this = None ->
  hp !! data = Some d ->
  verdict d = None ->
  exists dbs' w0,
    Lifecycle.open h this dbs (Lifecycle.constructed hp)
      = (Lifecycle.Settled (Resolved ∅), dbs', w0)
    /\ fst (IndexedDBWrapper.addOrUpdate h storeName data w0)
       = Rejected (Thrown NotFoundError)
    /\ fst (IndexedDBWrapper.getAll storeName w0) = Rejected (Thrown NotFoundError)
    /\ fst (IndexedDBWrapper.delete storeName key w0) = Rejected (Thrown NotFoundError)
    /\ fst (IndexedDBWrapper.getYearlyReport h storeName year w0)
       = Rejected (Thrown NotFoundError)
    /\ fst (IndexedDBWrapper.getMonthlyReport h storeName month year w0)
       = Rejected (Thrown NotFoundError).
Proof.
  intros Hnew Hv Hcb Hd Hpass.
  unfold Lifecycle.open. rewrite (not_connected (Lifecycle.constructed hp) eq_refl).
  rewrite (Factory_open_new _ _ _ Hnew Hv), Hcb. cbn zeta.
  set (w0 := {| heap := _; db := Some ∅; log := _ |}).
  assert (Hall : fst (IndexedDBWrapper.getAll storeName w0)
                 = Rejected (Thrown NotFoundError)).
  { apply (getAll_no_store storeName w0 ∅); [reflexivity | apply lookup_empty]. }
  eexists _, w0. split; [reflexivity |].
  split.
  { rewrite (addOrUpdate_transaction_throws h storeName data w0 d _ _ Hd Hpass
               (transaction_no_store storeName ReadWrite w0 ∅ eq_refl (lookup_empty _))).
    reflexivity. }
  split; [exact Hall |].
  split; [apply (delete_no_store storeName key w0 ∅); [reflexivity | apply lookup_empty] |].
  unfold IndexedDBWrapper.getYearlyReport, IndexedDBWrapper.getMonthlyReport, bind.
  destruct (IndexedDBWrapper.getAll storeName w0) as [res w1]. cbn in Hall. subst res.
  auto.
Qed.

Lemma open_without_routine_witness :
  exists dbs' w0,
    Lifecycle.open utc (Lifecycle.Settings "ledger" 1 None) ∅
      (Lifecycle.constructed {[ 1%positive := jan2023 ]})
      = (Lifecycle.Settled (Resolved ∅), dbs', w0)
    /\ fst (IndexedDBWrapper.addOrUpdate utc "costs" 1%positive w0)
       = Rejected (Thrown NotFoundError)
    /\ fst (IndexedDBWrapper.getAll "costs" w0) = Rejected (Thrown NotFoundError)
    /\ fst (IndexedDBWrapper.delete "costs" (VNum (Number.of_Z 1)) w0)
       = Rejected (Thrown NotFoundError)
    /\ fst (IndexedDBWrapper.getYearlyReport utc "costs" (VNum (Number.of_Z 2023)) w0)
       = Rejected (Thrown NotFoundError)
    /\ fst (IndexedDBWrapper.getMonthlyReport utc "costs" (VNum (Number.of_Z 1))
              (VNum (Number.of_Z 2023)) w0)
       = Rejected (Thrown NotFoundError).
Proof.
  apply (open_without_routine utc (Lifecycle.Settings "ledger" 1 None) ∅
           {[ 1%positive := jan2023 ]} "costs" 1%positive jan2023).
  - reflexivity.
  - vm_compute. split; discriminate.
  - reflexivity.
  - vm_compute. reflexivity.
  - vm_compute. reflexivity.
Defined.

(** X23. An [open] that is rejected has changed nothing: [this.db] holds
    what it held, null for a wrapper that was just constructed, and the
    databases of the origin are as they were.  For a version from 1 to
    2^53 - 1 the reason is the text "Failed to open DB: " followed by the
    error code of the host; for any other version it is the TypeError the
    call of [indexedDB.open] throws. *)
Theorem open_rejected_changes_nothing h this dbs w r dbs' w' :
  Lifecycle.open h this dbs w = (Lifecycle.Settled (Rejected r), dbs', w') ->
  dbs' = dbs /\ w' = w
  /\ r = (if (1 <=? Lifecycle.version this)
             && (Lifecycle.version this <=? Lifecycle.Factory.maxVersion)
          then Message ("Failed to open DB: " +:+ errorCode h)
          else Thrown TypeError).
Proof.
  unfold Lifecycle.open, Lifecycle.Factory.open. intros Hrun.
  destruct (Z.ltb_spec (Lifecycle.version this) 1) as [Hlo | Hlo];
    [| destruct (Z.ltb_spec Lifecycle.Factory.maxVersion (Lifecycle.version this))
         as [Hhi | Hhi]]; cbn [orb] in Hrun.
  - injection Hrun as <- <- <-.
    destruct (Z.leb_spec 1 (Lifecycle.version this)); [lia | auto].
  - injection Hrun as <- <- <-.
    destruct (Z.leb_spec (Lifecycle.version this) Lifecycle.Factory.maxVersion);
      [lia | rewrite andb_false_r; auto].
  - destruct (Z.leb_spec 1 (Lifecycle.version this)); [| lia].
    destruct (Z.leb_spec (Lifecycle.version this) Lifecycle.Factory.maxVersion); [| lia].
    cbn [andb].
    destruct (dbs !! Lifecycle.dbName this) as [[v0 stores] |].
    + destruct (Lifecycle.version this <? v0).
      * injection Hrun as <- <- <-. auto.
      * destruct (v0 <? Lifecycle.version this), (bool_decide (db w <> None)),
          (Lifecycle.upgradeCallback this) as [routine |];
          try discriminate Hrun.
        destruct (routine stores); [discriminate Hrun |].
        injection Hrun as <- <- <-. auto.
    + destruct (bool_decide (db w <> None)); [discriminate Hrun |].
      destruct (Lifecycle.upgradeCallback this) as [routine |]; [| discriminate Hrun].
      destruct (routine ∅); [discriminate Hrun |].
      injection Hrun as <- <- <-. auto.
Qed.

Lemma open_rejected_changes_nothing_witness :
  {[ "ledger" := (2, {[ "costs" := emptyStore ]}) ]}
  = ({[ "ledger" := (2, {[ "costs" := emptyStore ]}) ]} : gmap string (Z * database))
  /\ Lifecycle.constructed ∅ = Lifecycle.constructed ∅
  /\ Message ("Failed to open DB: " +:+ errorCode utc)
     = (if (1 <=? 1) && (1 <=? Lifecycle.Factory.maxVersion)
        then Message ("Failed to open DB: " +:+ errorCode utc)
        else Thrown TypeError).
Proof.
  apply (open_rejected_changes_nothing utc
           (Lifecycle.Settings "ledger" 1 (Some createCosts))
           {[ "ledger" := (2, {[ "costs" := emptyStore ]}) ]} (Lifecycle.constructed ∅)).
  vm_compute. reflexivity.
Defined.

(** X24. Opening at the version the database has does not run the upgrade
    routine, whatever the routine: [open] resolves to the stores as they
    are, [this.db] holds them, and the databases of the origin are as
    they were. *)
Theorem reopen_at_stored_version h this dbs w stores :
  dbs !! Lifecycle.dbName this = Some (Lifecycle.version this, stores) ->
  1 <= Lifecycle.version this <= Lifecycle.Factory.maxVersion ->
  Lifecycle.open h this dbs w
  = (Lifecycle.Settled (Resolved stores), dbs,
     {| heap := heap w; db := Some stores; log := log w |}).
Proof.
  intros Hdb Hv. unfold Lifecycle.open.
  rewrite (Factory_open_stored _ _ _ _ _ _ Hdb Hv), Z.ltb_irrefl. cbn.
  rewrite (insert_id dbs _ _ Hdb). reflexivity.
Qed.

Lemma reopen_at_stored_version_witness :
  Lifecycle.open utc (Lifecycle.Settings "ledger" 2 (Some (fun _ => None)))
    {[ "ledger" := (2, {[ "costs" := emptyStore ]}) ]} (Lifecycle.constructed ∅)
  = (Lifecycle.Settled (Resolved {[ "costs" := emptyStore ]}),
     {[ "ledger" := (2, {[ "costs" := emptyStore ]}) ]},
     {| heap := heap (Lifecycle.constructed ∅); db := Some {[ "costs" := emptyStore ]};
        log := log (Lifecycle.constructed ∅) |}).
Proof.
  apply (reopen_at_stored_version utc (Lifecycle.Settings "ledger" 2 (Some (fun _ => None)))
           {[ "ledger" := (2, {[ "costs" := emptyStore ]}) ]} (Lifecycle.constructed ∅)
           {[ "costs" := emptyStore ]}).
  - vm_compute. reflexivity.
  - vm_compute. split; discriminate.
Defined.

(** X25. The page after a first [open] is where the stores start from:
    when the database was not there and the upgrade routine, if any,
    creates only empty stores, the world [open] leaves is one of those the
    properties of reachable worlds speak of. *)
Theorem opened_page_is_reachable h this dbs hp :
  dbs !! Lifecycle.dbName this = None ->
  1 <= Lifecycle.version this <= Lifecycle.Factory.maxVersion ->
  (forall routine stores storeName s,
     Lifecycle.upgradeCallback this = Some routine ->
     routine ∅ = Some stores ->
     stores !! storeName = Some s -> s = emptyStore) ->
  reachable h (snd (Lifecycle.open h this dbs (Lifecycle.constructed hp))).
Proof.
  intros Hnew Hv Hroutine. apply reachable_created.
  unfold Lifecycle.open. rewrite (not_connected (Lifecycle.constructed hp) eq_refl).
  rewrite (Factory_open_new _ _ _ Hnew Hv). cbn zeta.
  intros name s Hs. unfold store_of in Hs.
  destruct (Lifecycle.upgradeCallback this) as [routine |] eqn:Hcb.
  - destruct (routine ∅) as [stores |] eqn:Hran; cbn in Hs.
    + exact (Hroutine routine stores name s eq_refl Hran Hs).
    + discriminate.
  - cbn in Hs. rewrite lookup_empty in Hs. discriminate.
Qed.

Lemma opened_page_is_reachable_witness :
  reachable utc
    (snd (Lifecycle.open utc (Lifecycle.Settings "ledger" 1 (Some createCosts)) ∅
            (Lifecycle.constructed ∅))).
Proof.
  apply (opened_page_is_reachable utc (Lifecycle.Settings "ledger" 1 (Some createCosts))
           ∅ ∅).
  - reflexivity.
  - vm_compute. split; discriminate.
  - intros routine stores name s [= <-] Hran Hs.
    unfold createCosts in Hran. rewrite lookup_empty in Hran. injection Hran as <-.
    destruct (decide (name = "costs")) as [-> | Hne].
    + rewrite lookup_insert_eq in Hs. congruence.
    + rewrite lookup_insert_ne in Hs by congruence. rewrite lookup_empty in Hs.
      discriminate.
Defined.

(** X26. On a wrapper that holds no connection, raising the version with
    an upgrade routine that throws on the database as it is, as a routine
    does that creates a store the database already has, makes [open]
    fail: it is rejected with "Failed to open DB: " and the error code of
    the host, and the database keeps its version and its stores. *)
Theorem upgrade_routine_throws h this routine dbs w v0 stores :
  db w = None ->
  dbs !! Lifecycle.dbName this = Some (v0, stores) ->
  v0 < Lifecycle.version this ->
  1 <= Lifecycle.version this <= Lifecycle.Factory.maxVersion ->
  Lifecycle.upgradeCallback this = Some routine ->
  routine stores = None ->
  Lifecycle.open h this dbs w
  = (Lifecycle.Settled (Rejected (Message ("Failed to open DB: " +:+ errorCode h))),
     dbs, w).
Proof.
  intros Hnull Hdb Hlt Hv Hcb Hthrows. unfold Lifecycle.open.
  rewrite (Factory_open_stored _ _ _ _ _ _ Hdb Hv), (not_connected w Hnull).
  destruct (Z.ltb_spec (Lifecycle.version this) v0); [lia |].
  destruct (Z.ltb_spec v0 (Lifecycle.version this)); [| lia].
  rewrite Hcb. cbn zeta. rewrite Hthrows. reflexivity.
Qed.

Lemma upgrade_routine_throws_witness :
  Lifecycle.open utc (Lifecycle.Settings "ledger" 2 (Some createCosts))
    {[ "ledger" := (1, {[ "costs" := exampleStore ]}) ]} (Lifecycle.constructed ∅)
  = (Lifecycle.Settled (Rejected (Message ("Failed to open DB: " +:+ errorCode utc))),
     {[ "ledger" := (1, {[ "costs" := exampleStore ]}) ]}, Lifecycle.constructed ∅).
Proof.
  apply (upgrade_routine_throws utc (Lifecycle.Settings "ledger" 2 (Some createCosts))
           createCosts {[ "ledger" := (1, {[ "costs" := exampleStore ]}) ]}
           (Lifecycle.constructed ∅) 1 {[ "costs" := exampleStore ]}).
  - reflexivity.
  - vm_compute. reflexivity.
  - cbn. lia.
  - vm_compute. split; discriminate.
  - reflexivity.
  - vm_compute. reflexivity.
Defined.




(** * Insertion and deletion by key *)

Lemma generated_fresh s k v :
  generated s ->
  Store.keyGenerator s <= Store.maxGenerated ->
  (k, v) ∈ Store.records s ->
  ~ same_key k (Store.KNumber (Number.of_Z (Store.keyGenerator s))).
Proof.
  intros [Hpos Hkeys] Hlive Hin. destruct (Hkeys k v Hin) as (i & Hi & ->).
  destruct (of_Z_finite (Store.keyGenerator s) ltac:(lia)) as (m & e & Hg).
  intros [Heq | [_ Hz]].
  - injection Heq as Heq. exact (of_Z_distinct i (Store.keyGenerator s) Hi Hlive Heq).
  - rewrite Hg in Hz. exact Hz.
Qed.

(** C4. Whatever the caller's object holds as its [id], [addOrUpdate]
    never updates: on an open store that only the wrapper has written to,
    a record that passes the guards is put without an [id], in the one
    put of the call, and the store files it behind the records it held,
    under the key of its generator, which is the key of none of them; the
    records the store held are all there, unchanged and in their order,
    also the one whose key the caller had supplied as [id].  A record
    that does not pass the guards is rejected and the store is as it
    was. *)
Theorem addOrUpdate_always_inserts h storeName data w d s :
  heap w !! data = Some d ->
  opened w storeName s ->
  generated s ->
  Store.keyGenerator s <= Store.maxGenerated ->
  exists res w' s',
    IndexedDBWrapper.addOrUpdate h storeName data w = (res, w')
    /\ store_of w' storeName = Some s'
    /\ match verdict d with
       | Some msg => res = Rejected (Message msg) /\ w' = w /\ s' = s
       | None =>
           res = Resolved IndexedDBWrapper.added
           /\ puts (log w') = (puts (log w) ++ [delete "id" d])%list
           /\ delete "id" d !! "id" = None
           /\ Store.records s' =
                (Store.records s
                 ++ [(Store.KNumber (Number.of_Z (Store.keyGenerator s)),
                      keyed (Store.keyGenerator s) d)])%list
           /\ get (keyed (Store.keyGenerator s) d) "id"
              = VNum (Number.of_Z (Store.keyGenerator s))
           /\ Store.keyGenerator s' = Store.keyGenerator s + 1
           /\ (forall k v, (k, v) ∈ Store.records s ->
                 ~ same_key k (Store.KNumber (Number.of_Z (Store.keyGenerator s))))
       end.
Proof.
  intros Hd Hopen Hgen Hlive.
  pose proof (proj1 (store_of_opened _ _ _) Hopen) as Hstore.
  destruct (verdict d) as [msg |] eqn:Hv.
  - exists (Rejected (Message msg)), w, s.
    split; [exact (addOrUpdate_rejected h storeName data w d msg Hd Hv) | auto].
  - eexists _, _, (stored s d).
    split; [exact (addOrUpdate_stored h storeName data w d s Hd Hv Hopen Hlive) |].
    split; [apply (store_of_commit _ _ _ _ s); destruct w; exact Hstore |].
    split; [reflexivity |].
    split; [cbn [log]; rewrite puts_app; reflexivity |].
    split; [apply lookup_delete_eq |].
    split.
    { unfold stored. cbn [Store.records]. apply store_record_last.
      intros k' v' Hin. exact (proj1 (generated_below s k' v' Hgen Hlive Hin)). }
    split; [unfold keyed, get; rewrite lookup_insert_eq; reflexivity |].
    split; [reflexivity |].
    intros k v Hin. exact (generated_fresh s k v Hgen Hlive Hin).
Qed.

Lemma addOrUpdate_always_inserts_witness :
  exists w' s',
    IndexedDBWrapper.addOrUpdate utc "costs" 1%positive clientWorld
      = (Resolved IndexedDBWrapper.added, w')
    /\ store_of w' "costs" = Some s'
    /\ puts (log w') = [jan2023]
    /\ Store.records s' =
         [ (Store.KNumber (Number.of_Z 1), withId 1 jan2023);
           (Store.KNumber (Number.of_Z 2), withId 2 jun2023);
           (Store.KNumber (Number.of_Z 3), withId 3 jan2022);
           (Store.KNumber (Number.of_Z 4), withId 4 jan2023) ].
Proof.
  destruct (addOrUpdate_always_inserts utc "costs" 1%positive clientWorld
              (withId 2 jan2023) exampleStore)
    as (res & w' & s' & Hrun & Hs & Hcase).
  - vm_compute. reflexivity.
  - apply worldOf_opened.
  - exact exampleStore_generated.
  - vm_compute. discriminate.
  - replace (verdict (withId 2 jan2023)) with (@None string) in Hcase
      by (vm_compute; reflexivity).
    destruct Hcase as (-> & Hputs & _ & Hrec & _).
    exists w', s'. split; [exact Hrun |]. split; [exact Hs |].
    split.
    + rewrite Hputs. vm_compute. reflexivity.
    + rewrite Hrec. vm_compute. reflexivity.
Defined.

(** Keys that a store can hold are compared as the keys they are. *)
Lemma valid_key_number n : valid_key (Store.KNumber n) -> Number.is_nan n = false.
Proof.
  intros (v & Hv). destruct v as [| | b | x | x | [t |] |]; cbn in Hv; try discriminate.
  destruct (Number.is_nan x) eqn:Hx; [discriminate |]. injection Hv as <-. exact Hx.
Qed.

Lemma compare_refl s : String.compare s s = Eq.
Proof.
  pose proof (String.compare_antisym s s) as Hc.
  destruct (String.compare s s); [reflexivity | discriminate ..].
Qed.

Lemma key_eqb_same a b :
  valid_key a -> valid_key b -> (Store.key_eqb a b = true <-> same_key a b).
Proof.
  intros Ha Hb. unfold Store.key_eqb, same_key.
  destruct a as [x | x | x], b as [y | y | y]; cbn [Store.key_compare zero_key];
    try (split; [discriminate | intros [[=] | [[] _]]]);
    try (split; [discriminate | intros [[=] | [_ []]]]).
  - apply valid_key_number in Ha, Hb.
    destruct x as [sx | sx | | sx mx ex], y as [sy | sy | | sy my ey];
      try discriminate Ha; try discriminate Hb; cbn.
    + split; auto.
    + destruct sy; (split; [discriminate | intros [[=] | [_ []]]]).
    + destruct sy; (split; [discriminate | intros [[=] | [_ []]]]).
    + destruct sx; (split; [discriminate | intros [[=] | [[] _]]]).
    + destruct sx, sy; (split; [try discriminate; auto | intros [[=] | [[] _]]; auto]).
    + destruct sx; (split; [discriminate | intros [[=] | [[] _]]]).
    + destruct sx; (split; [discriminate | intros [[=] | [[] _]]]).
    + destruct sy; (split; [discriminate | intros [[=] | [[] _]]]).
    + change (Pos.compare_cont Eq mx my) with (mx ?= my)%positive.
      destruct sx, sy; try (split; [discriminate | intros [[=] | [[] _]]]);
        destruct (Z.compare_spec ex ey) as [-> | Hlt | Hgt];
        try (split; [discriminate | intros [[=] | [[] _]]; lia]);
        destruct (Pos.compare_spec mx my) as [-> | Hlt | Hgt]; cbn;
        try (split; [discriminate | intros [[=] | [[] _]]; lia]);
        (split; auto).
  - destruct (Z.compare_spec x y) as [-> | Hlt | Hgt];
      [split; auto | split; [discriminate | intros [[=] | [[] _]]; lia] ..].
  - destruct (String.compare x y) eqn:Hc.
    + apply String.compare_eq_iff in Hc as ->. split; auto.
    + split; [discriminate | intros [[= ->] | [[] _]]].
      rewrite compare_refl in Hc. discriminate.
    + split; [discriminate | intros [[= ->] | [[] _]]].
      rewrite compare_refl in Hc. discriminate.
Qed.

Lemma delete_record_same k l :
  valid_key k ->
  (forall k' v, (k', v) ∈ l -> valid_key k') ->
  Store.delete_record k l
  = List.filter (fun kv => bool_decide (~ same_key (fst kv) k)) l.
Proof.
  intros Hk Hl. unfold Store.delete_record. apply filter_ext_in.
  intros [k' v] Hin. cbn [fst].
  pose proof (key_eqb_same k' k (Hl k' v (proj2 (list_elem_of_In _ _) Hin)) Hk) as Hsame.
  destruct (Store.key_eqb k' k); cbn.
  - symmetry. apply bool_decide_eq_false_2. intros Hn. apply Hn, Hsame. reflexivity.
  - symmetry. apply bool_decide_eq_true_2. intros Hs. apply Hsame in Hs. discriminate.
Qed.

(** C8. On an open store, [delete] with a key resolves, whether or not a
    record has that key.  No record of the store is under the key
    afterwards; the records under other keys are all there, unchanged and
    in their order, and nothing else is; when no record had the key, the
    store is as it was.  The key generator, the other stores and the
    caller's heap are as they were.  Two keys are the same when they are
    equal, +0 and -0 being one key. *)
Theorem delete_removes_only_target storeName key k w s :
  opened w storeName s ->
  Store.key_of_value key = Some k ->
  (forall k' v, (k', v) ∈ Store.records s -> valid_key k') ->
  exists w' s',
    IndexedDBWrapper.delete storeName key w = (Resolved IndexedDBWrapper.deleted, w')
    /\ store_of w' storeName = Some s'
    /\ (forall k' v, same_key k' k -> (k', v) ∉ Store.records s')
    /\ (forall k' v, ~ same_key k' k ->
          ((k', v) ∈ Store.records s' <-> (k', v) ∈ Store.records s))
    /\ Store.records s' =
         List.filter (fun kv => bool_decide (~ same_key (fst kv) k)) (Store.records s)
    /\ ((forall k' v, (k', v) ∈ Store.records s -> ~ same_key k' k) -> s' = s)
    /\ Store.keyGenerator s' = Store.keyGenerator s
    /\ (forall other, other <> storeName -> store_of w' other = store_of w other)
    /\ heap w' = heap w.
Proof.
  intros Hopen Hk Hvalid.
  pose proof (proj1 (store_of_opened _ _ _) Hopen) as Hstore.
  assert (Hkv : valid_key k) by (exists key; exact Hk).
  assert (Hrec : Store.records (Store.delete s k)
                 = List.filter (fun kv => bool_decide (~ same_key (fst kv) k))
                     (Store.records s))
    by exact (delete_record_same k (Store.records s) Hkv Hvalid).
  assert (Hin : forall k' v, (k', v) ∈ Store.records (Store.delete s k)
                             <-> (k', v) ∈ Store.records s /\ ~ same_key k' k).
  { intros k' v. rewrite Hrec, !list_elem_of_In, filter_In. cbn [fst].
    rewrite bool_decide_eq_true. reflexivity. }
  eexists _, (Store.delete s k).
  split; [exact (delete_opened w storeName key k s Hopen Hk) |].
  split; [apply (store_of_commit _ _ _ _ s); destruct w; exact Hstore |].
  split; [intros k' v Hsame Hc; apply Hin in Hc as [_ Hn]; exact (Hn Hsame) |].
  split; [intros k' v Hn; rewrite Hin; tauto |].
  split; [exact Hrec |].
  split.
  { intros Habsent. destruct s as [recs g]. unfold Store.delete. cbn [Store.records] in *.
    f_equal. change (Store.delete_record k recs = recs).
    rewrite (delete_record_same k recs Hkv Hvalid). apply filter_all.
    intros [k' v] Hx. apply bool_decide_eq_true_2.
    exact (Habsent k' v Hx). }
  split; [reflexivity |].
  split; [| reflexivity].
  intros other Hne. rewrite store_of_commit_other by exact Hne. destruct w; reflexivity.
Qed.

(** The keys of a store that only the wrapper has written to are keys a
    store can hold. *)
Lemma generated_valid s k v :
  generated s ->
  Store.keyGenerator s <= Store.maxGenerated + 1 ->
  (k, v) ∈ Store.records s -> valid_key k.
Proof.
  intros [Hpos Hkeys] Hlive Hin. destruct (Hkeys k v Hin) as (i & Hi & ->).
  exists (VNum (Number.of_Z i)). apply key_of_generated. lia.
Qed.

Lemma delete_removes_only_target_witness :
  exists w' s',
    IndexedDBWrapper.delete "costs" (VNum (Number.of_Z 2)) clientWorld
      = (Resolved IndexedDBWrapper.deleted, w')
    /\ store_of w' "costs" = Some s'
    /\ Store.records s' =
         [ (Store.KNumber (Number.of_Z 1), withId 1 jan2023);
           (Store.KNumber (Number.of_Z 3), withId 3 jan2022) ]
    /\ Store.keyGenerator s' = 4
    /\ heap w' = heap clientWorld.
Proof.
  destruct (delete_removes_only_target "costs" (VNum (Number.of_Z 2))
              (Store.KNumber (Number.of_Z 2)) clientWorld exampleStore)
    as (w' & s' & Hrun & Hs & _ & _ & Hrec & _ & Hgen & _ & Hheap).
  - apply worldOf_opened.
  - vm_compute. reflexivity.
  - intros k' v. apply (generated_valid exampleStore k' v exampleStore_generated).
    vm_compute. discriminate.
  - exists w', s'. split; [exact Hrun |]. split; [exact Hs |].
    split; [rewrite Hrec; vm_compute; reflexivity |].
    split; [rewrite Hgen; reflexivity | exact Hheap].
Defined.


(** ** Totals left on inherited objects *)

Lemma totals_snoc h l k v :
  IndexedDBWrapper.totals h (l ++ [AddTotalSum k v])
  = <[k := js_add h (IndexedDBWrapper.readTotal (IndexedDBWrapper.totals h l) k) v]>
      (IndexedDBWrapper.totals h l).
Proof. unfold IndexedDBWrapper.totals. rewrite fold_left_app. reflexivity. Qed.

Lemma prototypeTotal_traced h w v :
  prototypeTotal h (traced w (AddTotalSum "__proto__" v))
  = js_add h (prototypeTotal h w) v.
Proof.
  unfold prototypeTotal, traced. cbn [log]. rewrite totals_snoc, lookup_insert_eq.
  unfold IndexedDBWrapper.readTotal.
  destruct (IndexedDBWrapper.totals h (log w) !! "__proto__"); reflexivity.
Qed.

(** The first record filed under the name of an inherited object ends the
    grouping: its sum is added to the total of that object and the
    callback throws. *)
Lemma forEach_first_taken h l1 record l2 r0 w :
  (forall x, x ∈ l1 -> ~ taken h w (categoryOf h x)) ->
  categoryOf h record ∈ inherited ->
  r0 !! categoryOf h record = None ->
  IndexedDBWrapper.forEach h (l1 ++ record :: l2) r0 w
  = (Rejected (Thrown TypeError),
     traced w (AddTotalSum (categoryOf h record) (get record "sum"))).
Proof.
  intros Hfree Hin. revert r0.
  induction l1 as [| x l1 IH]; intros r0 Hnone; cbn; unfold bind;
    rewrite accumulate_taken; cbn zeta.
  - rewrite bool_decide_eq_true_2 by (split; [left; exact Hin | exact Hnone]).
    rewrite bool_decide_eq_true_2 by exact Hin. reflexivity.
  - assert (Hx : ~ taken h w (categoryOf h x)) by apply Hfree, list_elem_of_here.
    rewrite bool_decide_eq_false_2 by tauto.
    apply IH.
    + intros y Hy. apply Hfree, list_elem_of_further, Hy.
    + rewrite lookup_insert_ne; [exact Hnone |].
      intros Heq. apply Hx. left. rewrite Heq. exact Hin.
Qed.

(** X28. A report writes on [Object.prototype]: when the first record of
    the year that is filed under a key that is taken has the category
    "__proto__", [getYearlyReport] is rejected with a TypeError and has
    added the sum of that record to the [totalSum] of [Object.prototype],
    which every object of the page then shows as its own; where there was
    none and the sum is a number, that total is NaN.  Whatever the
    inherited object the category names, the world is the one [getAll]
    leaves and that one assignment. *)
Theorem report_leaves_total_on_prototype h storeName year w s l1 record l2 :
  opened w storeName s ->
  List.filter (IndexedDBWrapper.inYear h year) (Store.getAll s)
    = (l1 ++ record :: l2)%list ->
  (forall x, x ∈ l1 -> ~ taken h w (categoryOf h x)) ->
  categoryOf h record ∈ inherited ->
  exists w',
    IndexedDBWrapper.getYearlyReport h storeName year w = (Rejected (Thrown TypeError), w')
    /\ w' = traced (listed w storeName)
              (AddTotalSum (categoryOf h record) (get record "sum"))
    /\ additions (log w')
       = (additions (log w) ++ [(categoryOf h record, get record "sum")])%list
    /\ (categoryOf h record = "__proto__" ->
        prototypeTotal h w' = js_add h (prototypeTotal h w) (get record "sum")
        /\ (prototypeTotal h w = VUndefined -> typeof (get record "sum") = TNumber ->
            prototypeTotal h w' = VNum Number.NaN)).
Proof.
  intros Hopen Hl Hfree Hin. eexists. split.
  - rewrite (getYearlyReport_opened h storeName year w s Hopen).
    destruct (Store.getAll s) as [| x xs] eqn:Hall.
    { destruct l1; discriminate Hl. }
    rewrite Hl. unfold IndexedDBWrapper.groupByCategory, bind.
    rewrite forEach_first_taken; [reflexivity | | exact Hin | apply lookup_empty].
    intros y Hy Ht. apply (Hfree y Hy), (taken_listed h w storeName), Ht.
  - split; [reflexivity |]. split.
    + unfold traced, listed. cbn [log]. rewrite !additions_app. cbn.
      rewrite app_nil_r. reflexivity.
    + intros Hname. rewrite Hname, prototypeTotal_traced, prototypeTotal_listed.
      split; [reflexivity |]. intros Hnone Hnum. rewrite Hnone.
      destruct (get record "sum"); try (destruct Hnum; fail); try discriminate Hnum.
      reflexivity.
Qed.

Lemma report_leaves_total_on_prototype_witness :
  exists w',
    IndexedDBWrapper.getYearlyReport utc "costs" (VNum (Number.of_Z 2023))
      (worldOf (stored emptyStore heir) ∅) = (Rejected (Thrown TypeError), w')
    /\ additions (log w') = [("__proto__", VNum (Number.of_Z 10))]
    /\ prototypeTotal utc (worldOf (stored emptyStore heir) ∅) = VUndefined
    /\ prototypeTotal utc w' = VNum Number.NaN.
Proof.
  destruct (report_leaves_total_on_prototype utc "costs" (VNum (Number.of_Z 2023))
              (worldOf (stored emptyStore heir) ∅) (stored emptyStore heir)
              [] (keyed 1 heir) [])
    as (w' & Hrun & _ & Hadd & Htotal).
  - apply worldOf_opened.
  - vm_compute. reflexivity.
  - intros x Hx. inversion Hx.
  - apply (bool_decide_eq_true_1 (categoryOf utc (keyed 1 heir) ∈ inherited)).
    vm_compute. reflexivity.
  - exists w'. split; [exact Hrun |].
    split; [rewrite Hadd; vm_compute; reflexivity |].
    split; [reflexivity |].
    apply (proj2 (Htotal ltac:(vm_compute; reflexivity)));
      vm_compute; reflexivity.
Defined.

(** Totals that numbers were added to are NaN. *)
Lemma totals_of_numbers h l :
  (forall k v, (k, v) ∈ additions l -> typeof v = TNumber) ->
  forall k t, IndexedDBWrapper.totals h l !! k = Some t -> t = VNum Number.NaN.
Proof.
  induction l as [| e l IH] using rev_ind; intros Hnum k t Ht.
  - unfold IndexedDBWrapper.totals in Ht. cbn in Ht. rewrite lookup_empty in Ht.
    discriminate.
  - assert (Hprev : forall k v, (k, v) ∈ additions l -> typeof v = TNumber).
    { intros k0 v0 Hin. apply (Hnum k0 v0). rewrite additions_app.
      apply elem_of_app. left. exact Hin. }
    specialize (IH Hprev).
    destruct e as [n m | n v | n | n v | k0 v0];
      try (rewrite totals_app in Ht by reflexivity; exact (IH k t Ht)).
    rewrite totals_snoc in Ht.
    destruct (decide (k = k0)) as [-> | Hne].
    + rewrite lookup_insert_eq in Ht. injection Ht as <-.
      assert (Hv : typeof v0 = TNumber).
      { apply (Hnum k0 v0). rewrite additions_app. apply elem_of_app. right.
        apply list_elem_of_here. }
      destruct v0; try discriminate Hv.
      unfold IndexedDBWrapper.readTotal.
      destruct (IndexedDBWrapper.totals h l !! k0) as [t |] eqn:Hk.
      * rewrite (IH k0 t Hk). reflexivity.
      * destruct (IndexedDBWrapper.totals h l !! "__proto__") as [t |] eqn:Hp.
        -- rewrite (IH _ t Hp). reflexivity.
        -- reflexivity.
    + rewrite lookup_insert_ne in Ht by congruence. exact (IH k t Ht).
Qed.

Lemma number_totals_taken h w :
  number_totals w -> forall k, taken h w k <-> k ∈ inherited.
Proof.
  intros Hnum k. unfold taken, prototypeTotal.
  destruct (IndexedDBWrapper.totals h (log w) !! "__proto__") as [t |] eqn:Ht.
  - rewrite (totals_of_numbers h (log w) Hnum _ t Ht). cbn.
    split; [intros [Hin | [_ Hc]]; [exact Hin | discriminate] | auto].
  - cbn. split; [intros [Hin | [_ Hc]]; [exact Hin | discriminate] | auto].
Qed.

(** The methods that do not group add to no total. *)
Lemma bind_adds_nothing {A B} (m : M A) (f : A -> M B) :
  (forall w, additions (log (snd (m w))) = additions (log w)) ->
  (forall a w, additions (log (snd (f a w))) = additions (log w)) ->
  forall w, additions (log (snd (bind m f w))) = additions (log w).
Proof.
  intros Hm Hf w. unfold bind. specialize (Hm w).
  destruct (m w) as [[a | r] w1]; cbn [snd] in *; [rewrite Hf |]; exact Hm.
Qed.

Lemma call_adds_nothing e w :
  additions [e] = [] ->
  additions (log (snd (IndexedDBWrapper.call e w))) = additions (log w).
Proof.
  intros He. unfold IndexedDBWrapper.call. cbn. rewrite additions_app, He.
  apply app_nil_r.
Qed.

Lemma transaction_adds_nothing storeName mode w :
  additions (log (snd (IndexedDBWrapper.transaction storeName mode w)))
  = additions (log w).
Proof.
  unfold IndexedDBWrapper.transaction.
  destruct (db w) as [stores |]; [| reflexivity].
  apply bind_adds_nothing.
  - intros w0. apply call_adds_nothing. reflexivity.
  - intros _ w0. destruct (stores !! storeName); reflexivity.
Qed.

Lemma addOrUpdate_adds_nothing h storeName data w :
  additions (log (snd (IndexedDBWrapper.addOrUpdate h storeName data w)))
  = additions (log w).
Proof.
  unfold IndexedDBWrapper.addOrUpdate. revert w.
  assert (Hderef : forall w, additions (log (snd (IndexedDBWrapper.deref data w)))
                             = additions (log w)).
  { intros w. unfold IndexedDBWrapper.deref. destruct (heap w !! data); reflexivity. }
  apply bind_adds_nothing; [exact Hderef |]. intros d w.
  destruct (negb (ToBoolean (get d "date"))); [reflexivity |].
  destruct (_ || _); [reflexivity |].
  destruct (_ || _); [reflexivity |].
  revert w. apply bind_adds_nothing; [apply transaction_adds_nothing |]. intros store.
  apply bind_adds_nothing; [intros w; destruct (has d "id"); reflexivity |]. intros _.
  apply bind_adds_nothing; [exact Hderef |]. intros d'.
  apply bind_adds_nothing; [intros w; apply call_adds_nothing; reflexivity |]. intros _ w.
  destruct (Store.put store d'); reflexivity.
Qed.

Lemma delete_adds_nothing storeName key w :
  additions (log (snd (IndexedDBWrapper.delete storeName key w))) = additions (log w).
Proof.
  unfold IndexedDBWrapper.delete. revert w.
  apply bind_adds_nothing; [apply transaction_adds_nothing |]. intros store.
  apply bind_adds_nothing; [intros w; apply call_adds_nothing; reflexivity |]. intros _ w.
  destruct (Store.key_of_value key); reflexivity.
Qed.

Lemma report_effect_numbers h w storeName run :
  all_kept w -> number_totals w -> report_effect h w storeName run ->
  number_totals (snd run).
Proof.
  intros Hkept Hnum Hrun k v.
  destruct Hrun as [-> | (_ & s & record & Hopen & Hin & _ & ->)].
  - rewrite getAll_adds_nothing. apply Hnum.
  - unfold traced. cbn [log]. rewrite additions_app, getAll_adds_nothing.
    intros Hx. apply elem_of_app in Hx as [Hx | Hx]; [exact (Hnum k v Hx) |].
    apply list_elem_of_singleton in Hx. injection Hx as -> ->.
    destruct (Hkept storeName s (proj1 (store_of_opened _ _ _) Hopen))
      as (_ & ids & _ & _ & Hfiled).
    unfold Store.getAll in Hin.
    apply list_elem_of_In, in_map_iff in Hin as ([k0 v0] & <- & Hkv).
    apply list_elem_of_In, list_elem_of_lookup in Hkv as [n Hn].
    destruct (Forall2_lookup_r _ _ _ _ _ Hfiled Hn) as (i & _ & (_ & _ & Hv)).
    cbn [snd] in *. rewrite (passes_has_number v0 Hv). reflexivity.
Qed.

(** X29. On stores that the wrapper has filled, the totals that reports
    leave on inherited objects do no further harm: as long as every store
    is kept and every sum that was added to such a total was a number,
    one more call of a method of the wrapper, or a change the caller makes
    to its objects, leaves it so, and the keys that are taken are the
    names of the inherited properties and no others; "totalSum" stays a
    category like any other. *)
Theorem totals_stay_numbers h w w' :
  all_kept w ->
  number_totals w ->
  wrapper_step h w w' ->
  all_kept w' /\ number_totals w' /\ forall k, taken h w' k <-> k ∈ inherited.
Proof.
  intros Hkept Hnum Hstep.
  assert (Hboth : all_kept w' /\ number_totals w').
  { destruct Hstep as [name data w | name w | name key w | name year w
                      | name month year w | hp w].
    - split; [apply addOrUpdate_all_kept, Hkept |].
      intros k v. rewrite addOrUpdate_adds_nothing. apply Hnum.
    - split; [apply (all_kept_db w); [apply (getAll_read_only name w) | exact Hkept] |].
      intros k v. rewrite getAll_adds_nothing. apply Hnum.
    - split; [apply delete_all_kept, Hkept |].
      intros k v. rewrite delete_adds_nothing. apply Hnum.
    - split; [apply (all_kept_db w); [apply getYearlyReport_db | exact Hkept] |].
      exact (report_effect_numbers h w name _ Hkept Hnum
               (getYearlyReport_effect h name year w)).
    - split; [apply (all_kept_db w); [apply getMonthlyReport_db | exact Hkept] |].
      exact (report_effect_numbers h w name _ Hkept Hnum
               (getMonthlyReport_effect h name month year w)).
    - split; [apply (all_kept_db w); [reflexivity | exact Hkept] | exact Hnum]. }
  destruct Hboth as [Hk Hn]. split; [exact Hk |]. split; [exact Hn |].
  exact (number_totals_taken h w' Hn).
Qed.

Lemma totals_stay_numbers_witness :
  all_kept (snd (IndexedDBWrapper.getYearlyReport utc "costs" (VNum (Number.of_Z 2023))
                   (worldOf (stored emptyStore heir) ∅)))
  /\ number_totals (snd (IndexedDBWrapper.getYearlyReport utc "costs"
                           (VNum (Number.of_Z 2023)) (worldOf (stored emptyStore heir) ∅)))
  /\ forall k,
       taken utc (snd (IndexedDBWrapper.getYearlyReport utc "costs"
                         (VNum (Number.of_Z 2023)) (worldOf (stored emptyStore heir) ∅))) k
       <-> k ∈ inherited.
Proof.
  apply (totals_stay_numbers utc (worldOf (stored emptyStore heir) ∅)).
  - intros name s Hs. unfold store_of in Hs. cbn in Hs.
    destruct (decide (name = "costs")) as [-> | Hne].
    + rewrite lookup_singleton_eq in Hs. injection Hs as <-.
      apply kept_stored; [apply kept_empty | vm_compute; reflexivity |
                          vm_compute; discriminate].
    + rewrite lookup_singleton_ne in Hs by congruence. discriminate.
  - intros k v Hin. inversion Hin.
  - apply step_getYearlyReport.
Defined.
